(** * cga_scraper.py: a shallow embedding and its verified properties

    The program scrapes a fortnight of event listings of a legislature,
    turns table rows into [Event] records, removes duplicates by a hash
    derived identifier, sorts by start time and writes an iCalendar file.

    Conventions of the embedding.
    - A Python [str] is a [string]; a character is one of the code points
      U+0000..U+00FF, classified the way Python classifies them.
    - A Python [int] is a [Z].
    - A computation that may raise is a [result]; one that also touches the
      session, the network, the console, the clock or the file system runs
      in the monad [M] over a [World]. A raise keeps the effects performed
      before it, as in Python.
    - The libraries the script calls (re, datetime, hashlib, bs4, requests)
      are not part of the repository; the parts the script uses are written
      out here after their documented behaviour. *)

From Stdlib Require Import ZArith NArith QArith Bool List Lia.
From Stdlib Require Import Strings.Ascii Strings.String.
From Stdlib Require Import Sorting.Sorted Sorting.Permutation.
Import ListNotations.

Local Open Scope Z_scope.
Local Open Scope list_scope.
Local Open Scope string_scope.

(** ** Exceptions *)

Inductive exn : Type :=
| ValueError (msg : string)
| TypeError (msg : string)
| AttributeError (msg : string)
| OverflowError (msg : string)
| RequestException (msg : string).

Definition exn_str (e : exn) : string :=
  match e with
  | ValueError m | TypeError m | AttributeError m
  | OverflowError m | RequestException m => m
  end.

Inductive result (A : Type) : Type :=
| Ok (a : A)
| Raise (e : exn).
Arguments Ok {A} a.
Arguments Raise {A} e.

Definition rbind {A B : Type} (r : result A) (k : A -> result B) : result B :=
  match r with
  | Ok a => k a
  | Raise e => Raise e
  end.

(** [try: body  except Exception: handler] for pure code. *)
Definition try_except {A : Type} (body : result A) (handler : exn -> result A)
  : result A :=
  match body with
  | Ok a => Ok a
  | Raise e => handler e
  end.

Declare Scope result_scope.
Delimit Scope result_scope with result.
Notation "x <- c ;; k" := (rbind c (fun x => k))
  (at level 61, c at next level, right associativity) : result_scope.

(** ** Characters and strings *)

Module Chars.

Definition code (c : ascii) : N := N_of_ascii c.

Definition between (lo hi : N) (c : ascii) : bool :=
  ((lo <=? code c) && (code c <=? hi))%N.

(** Python's notion of white space, used by [str.strip] and by [\s] in a
    [str] pattern: TAB..CR, FS..US, SPACE, NEL and NBSP below U+0100. *)
Definition is_space (c : ascii) : bool :=
  between 9 13 c || between 28 32 c
  || (code c =? 133)%N || (code c =? 160)%N.

(** [\d] in a [str] pattern: category Nd, below U+0100 that is 0..9. *)
Definition is_decimal (c : ascii) : bool := between 48 57 c.

(** [str.isdigit] on a character also accepts the superscripts
    U+00B2, U+00B3 and U+00B9. *)
Definition is_digit (c : ascii) : bool :=
  is_decimal c || (code c =? 178)%N || (code c =? 179)%N || (code c =? 185)%N.

Definition shift (c : ascii) (d : Z) : ascii :=
  ascii_of_N (Z.to_N (Z.of_N (code c) + d)).

(** [str.lower] on one character. *)
Definition lower (c : ascii) : ascii :=
  if between 65 90 c then shift c 32
  else if between 192 222 c && negb (code c =? 215)%N then shift c 32
  else c.

(** [str.upper] on one character whose upper case is again below U+0100
    (U+00B5, U+00DF and U+00FF have none there and are left alone; the
    script upper-cases only text matched by [AM|PM]). *)
Definition upper (c : ascii) : ascii :=
  if between 97 122 c then shift c (-32)
  else if between 224 254 c && negb (code c =? 247)%N then shift c (-32)
  else c.

(** Equality of characters under [re.IGNORECASE]. *)
Definition eq_ci (a b : ascii) : bool := Ascii.eqb (lower a) (lower b).

End Chars.

Fixpoint string_map (f : ascii -> ascii) (s : string) : string :=
  match s with
  | EmptyString => EmptyString
  | String c s' => String (f c) (string_map f s')
  end.

Fixpoint string_forallb (p : ascii -> bool) (s : string) : bool :=
  match s with
  | EmptyString => true
  | String c s' => p c && string_forallb p s'
  end.

Definition str_lower (s : string) : string := string_map Chars.lower s.
Definition str_upper (s : string) : string := string_map Chars.upper s.

(** [s.isdigit()]: every character is a digit and there is at least one. *)
Definition str_isdigit (s : string) : bool :=
  match s with
  | EmptyString => false
  | _ => string_forallb Chars.is_digit s
  end.

Fixpoint lstrip (s : string) : string :=
  match s with
  | EmptyString => EmptyString
  | String c s' => if Chars.is_space c then lstrip s' else s
  end.

Fixpoint rstrip (s : string) : string :=
  match s with
  | EmptyString => EmptyString
  | String c s' =>
      match rstrip s' with
      | EmptyString => if Chars.is_space c then EmptyString
                       else String c EmptyString
      | r => String c r
      end
  end.

Definition strip (s : string) : string := rstrip (lstrip s).

(** [re.sub(r"\s+", " ", s)]: every maximal run of white space becomes one
    space; [in_run] tells that the previous character was white space. *)
Fixpoint collapse_ws (in_run : bool) (s : string) : string :=
  match s with
  | EmptyString => EmptyString
  | String c s' =>
      if Chars.is_space c
      then if in_run then collapse_ws true s'
           else String " " (collapse_ws true s')
      else String c (collapse_ws false s')
  end.

Definition normalize_ws (s : string) : string := collapse_ws false (strip s).

(** [str.replace(old, new)] for a one-character [old]. *)
Fixpoint replace_char (old : ascii) (new : string) (s : string) : string :=
  match s with
  | EmptyString => EmptyString
  | String c s' =>
      if Ascii.eqb c old then new ++ replace_char old new s'
      else String c (replace_char old new s')
  end.

(** [sep.join(lines)]. *)
Fixpoint join (sep : string) (lines : list string) : string :=
  match lines with
  | [] => EmptyString
  | [l] => l
  | l :: rest => l ++ sep ++ join sep rest
  end.

(** ** Integers and their decimal text *)

Definition digit_value (c : ascii) : Z := Z.of_N (Chars.code c) - 48.

Fixpoint int_digits (acc : Z) (s : string) : Z :=
  match s with
  | EmptyString => acc
  | String c s' => int_digits (10 * acc + digit_value c) s'
  end.

(** [int(x)] for the arguments the script passes: the text of a regex
    group, or [None] when the group took no part in the match. *)
Definition py_int (x : option string) : result Z :=
  match x with
  | None => Raise (TypeError "int() argument must be a string or a number")
  | Some s =>
      if negb (String.eqb s "") && string_forallb Chars.is_decimal s
      then Ok (int_digits 0 s)
      else Raise (ValueError "invalid literal for int() with base 10")
  end.

Definition digit_char (d : Z) : ascii := ascii_of_N (Z.to_N (48 + d mod 10)).

(** The last [width] decimal digits of [n], zero padded. *)
Fixpoint pad_digits (width : nat) (n : Z) : string :=
  match width with
  | O => EmptyString
  | S w => pad_digits w (n / 10) ++ String (digit_char n) EmptyString
  end.

Definition fmt02 (n : Z) : string := pad_digits 2 n.
Definition fmt04 (n : Z) : string := pad_digits 4 n.

(** [str(n)] for a natural number. *)
Fixpoint nat_digits (fuel : nat) (n : Z) : string :=
  match fuel with
  | O => EmptyString
  | S f =>
      if (n <? 10)%Z then String (digit_char n) EmptyString
      else nat_digits f (n / 10) ++ String (digit_char n) EmptyString
  end.


Definition str_of_nat (n : nat) : string := nat_digits (S n) (Z.of_nat n).

(** The decimal text of an integer that is not negative, without padding:
    what the directive [%Y] of [strftime] writes for a year (the C library
    does not pad, so year 999 is written 999). *)
Definition str_of_Z (n : Z) : string :=
  nat_digits (S (Z.to_nat (Z.log2 n))) n.

(** ** datetime *)

(** A naive [datetime.datetime]. *)
Record datetime : Type := mkDatetime {
  year : Z; month : Z; day : Z;
  hour : Z; minute : Z; second : Z; microsecond : Z
}.

Definition is_leap (y : Z) : bool :=
  (y mod 4 =? 0)%Z && (negb (y mod 100 =? 0)%Z || (y mod 400 =? 0)%Z).

Definition days_in_month (y m : Z) : Z :=
  if (m =? 2)%Z then (if is_leap y then 29 else 28)
  else if (m =? 4)%Z || (m =? 6)%Z || (m =? 9)%Z || (m =? 11)%Z then 30
  else 31.

Definition in_range (lo hi x : Z) : bool := (lo <=? x)%Z && (x <=? hi)%Z.

(** The constructor [datetime(year, month, day, hour, minute, second,
    microsecond)]: every field is range checked, a field out of range is a
    [ValueError]. *)
Definition datetime_new (y mo d h mi s us : Z) : result datetime :=
  if negb (in_range 1 9999 y) then Raise (ValueError "year is out of range")
  else if negb (in_range 1 12 mo) then Raise (ValueError "month must be in 1..12")
  else if negb (in_range 1 (days_in_month y mo) d)
  then Raise (ValueError "day is out of range for month")
  else if negb (in_range 0 23 h) then Raise (ValueError "hour must be in 0..23")
  else if negb (in_range 0 59 mi) then Raise (ValueError "minute must be in 0..59")
  else if negb (in_range 0 59 s) then Raise (ValueError "second must be in 0..59")
  else if negb (in_range 0 999999 us)
  then Raise (ValueError "microsecond must be in 0..999999")
  else Ok (mkDatetime y mo d h mi s us).

(** [dt.isoformat()]. *)
Definition isoformat (dt : datetime) : string :=
  fmt04 (year dt) ++ "-" ++ fmt02 (month dt) ++ "-" ++ fmt02 (day dt) ++ "T"
  ++ fmt02 (hour dt) ++ ":" ++ fmt02 (minute dt) ++ ":" ++ fmt02 (second dt)
  ++ (if (microsecond dt =? 0)%Z then "" else "." ++ pad_digits 6 (microsecond dt)).

(** [dt.strftime('%Y%m%dT%H%M%S')]: the year as [%Y] writes it, without
    padding, the other fields with two digits. *)
Definition strftime_compact (dt : datetime) : string :=
  str_of_Z (year dt) ++ fmt02 (month dt) ++ fmt02 (day dt) ++ "T"
  ++ fmt02 (hour dt) ++ fmt02 (minute dt) ++ fmt02 (second dt).

(** [dt.strftime('%m/%d %H:%M')]. *)
Definition strftime_found (dt : datetime) : string :=
  fmt02 (month dt) ++ "/" ++ fmt02 (day dt) ++ " "
  ++ fmt02 (hour dt) ++ ":" ++ fmt02 (minute dt).

(** Comparison of naive datetimes: field by field, most significant first. *)
Fixpoint lex_ltb (a b : list Z) : bool :=
  match a, b with
  | x :: a', y :: b' => (x <? y)%Z || ((x =? y)%Z && lex_ltb a' b')
  | [], _ :: _ => true
  | _, [] => false
  end.

Definition dt_fields (dt : datetime) : list Z :=
  [year dt; month dt; day dt; hour dt; minute dt; second dt; microsecond dt].

Definition dt_ltb (a b : datetime) : bool := lex_ltb (dt_fields a) (dt_fields b).

(** ** The part of [re] the script uses *)

Module Re.

Inductive cclass : Type := Digit | Space.

Definition in_class (cl : cclass) (c : ascii) : bool :=
  match cl with
  | Digit => Chars.is_decimal c
  | Space => Chars.is_space c
  end.

(** Patterns; every repetition is greedy, the flag IGNORECASE is on. *)
Inductive regex : Type :=
| Chr (c : ascii)
| Rep (cl : cclass) (lo : nat) (hi : option nat)
| Cat (r1 r2 : regex)
| Alt (r1 r2 : regex)
| Opt (r : regex)
| Group (name : string) (r : regex).

(** Text of the groups that took part in a match, latest first. *)
Definition captures : Type := list (string * string).

Fixpoint group (m : captures) (name : string) : option string :=
  match m with
  | [] => None
  | (g, v) :: m' => if String.eqb g name then Some v else group m' name
  end.

(** The text between the position of [s] and that of its suffix [s']. *)
Definition consumed (s s' : string) : string :=
  substring 0 (String.length s - String.length s') s.

Section Matcher.
Context {A : Type}.

(** [cl{lo,hi}], longest first, giving characters back one at a time. *)
Fixpoint rep (cl : cclass) (lo : nat) (hi : option nat) (s : string)
         (k : string -> option A) {struct s} : option A :=
  let stop := match lo with O => k s | S _ => None end in
  match hi with
  | Some O => stop
  | _ =>
      match s with
      | String c s' =>
          if in_class cl c
          then match rep cl (Nat.pred lo) (option_map Nat.pred hi) s' k with
               | Some x => Some x
               | None => stop
               end
          else stop
      | EmptyString => stop
      end
  end.

(** Backtracking match of [r] at the head of [s]; [k] is what remains
    to be matched after [r]. *)
Fixpoint rmatch (r : regex) (s : string) (caps : captures)
         (k : string -> captures -> option A) {struct r} : option A :=
  match r with
  | Chr c =>
      match s with
      | String c' s' => if Chars.eq_ci c c' then k s' caps else None
      | EmptyString => None
      end
  | Rep cl lo hi => rep cl lo hi s (fun s' => k s' caps)
  | Cat r1 r2 => rmatch r1 s caps (fun s1 caps1 => rmatch r2 s1 caps1 k)
  | Alt r1 r2 =>
      match rmatch r1 s caps k with
      | Some x => Some x
      | None => rmatch r2 s caps k
      end
  | Opt r1 =>
      match rmatch r1 s caps k with
      | Some x => Some x
      | None => k s caps
      end
  | Group g r1 =>
      rmatch r1 s caps (fun s' caps' => k s' ((g, consumed s s') :: caps'))
  end.
End Matcher.

(** [pattern.search(s)]: the match at the leftmost position that has one. *)
Fixpoint search (r : regex) (s : string) : option captures :=
  match rmatch r s [] (fun _ caps => Some caps) with
  | Some m => Some m
  | None =>
      match s with
      | String _ s' => search r s'
      | EmptyString => None
      end
  end.

(** What a successful [rmatch] stands for: [matches r s caps s' caps']
    says that [r] matches the text between [s] and its suffix [s'] and
    turns the captures [caps] into [caps']. *)
Inductive matches : regex -> string -> captures -> string -> captures -> Prop :=
| M_Chr c c' s caps :
    Chars.eq_ci c c' = true ->
    matches (Chr c) (String c' s) caps s caps
| M_Rep cl lo hi w s caps :
    string_forallb (in_class cl) w = true ->
    (lo <= String.length w)%nat ->
    match hi with Some h => (String.length w <= h)%nat | None => True end ->
    matches (Rep cl lo hi) (w ++ s) caps s caps
| M_Cat r1 r2 s caps s1 caps1 s2 caps2 :
    matches r1 s caps s1 caps1 ->
    matches r2 s1 caps1 s2 caps2 ->
    matches (Cat r1 r2) s caps s2 caps2
| M_AltL r1 r2 s caps s' caps' :
    matches r1 s caps s' caps' ->
    matches (Alt r1 r2) s caps s' caps'
| M_AltR r1 r2 s caps s' caps' :
    matches r2 s caps s' caps' ->
    matches (Alt r1 r2) s caps s' caps'
| M_OptSome r s caps s' caps' :
    matches r s caps s' caps' ->
    matches (Opt r) s caps s' caps'
| M_OptNone r s caps :
    matches (Opt r) s caps s caps
| M_Group g r s caps s' caps' :
    matches r s caps s' caps' ->
    matches (Group g r) s caps s' ((g, consumed s s') :: caps').

End Re.

Declare Scope regex_scope.
Delimit Scope regex_scope with regex.
Infix "+++" := Re.Cat (at level 60, right associativity) : regex_scope.

(** ** parse_dt_line *)

(** (?P<mon>\d{1,2})/(?P<day>\d{1,2})/(?P<year>\d{4})\s+
    (?P<h>\d{1,2}):(?P<m>\d{2})(?::(?P<s>\d{2}))?\s*(?P<ampm>AM|PM) *)
Definition pattern : Re.regex :=
  (Re.Group "mon" (Re.Rep Re.Digit 1 (Some 2%nat)) +++ Re.Chr "/"
   +++ Re.Group "day" (Re.Rep Re.Digit 1 (Some 2%nat)) +++ Re.Chr "/"
   +++ Re.Group "year" (Re.Rep Re.Digit 4 (Some 4%nat))
   +++ Re.Rep Re.Space 1 None
   +++ Re.Group "h" (Re.Rep Re.Digit 1 (Some 2%nat)) +++ Re.Chr ":"
   +++ Re.Group "m" (Re.Rep Re.Digit 2 (Some 2%nat))
   +++ Re.Opt (Re.Chr ":" +++ Re.Group "s" (Re.Rep Re.Digit 2 (Some 2%nat)))
   +++ Re.Rep Re.Space 0 None
   +++ Re.Group "ampm" (Re.Alt (Re.Chr "A" +++ Re.Chr "M")
                               (Re.Chr "P" +++ Re.Chr "M")))%regex.

(** [x.upper()] where [x] is a group, [None] having no such method. *)
Definition group_upper (x : option string) : result string :=
  match x with
  | None => Raise (AttributeError "'NoneType' object has no attribute 'upper'")
  | Some s => Ok (str_upper s)
  end.

(** The 12-hour to 24-hour step of lines 50-52. *)
Definition to_24h (h : Z) (ampm : string) : Z :=
  if String.eqb ampm "PM" && negb (h =? 12)%Z then h + 12
  else if String.eqb ampm "AM" && (h =? 12)%Z then 0
  else h.

(** The body of the [try] of [parse_dt_line]. *)
Definition parse_dt_line_body (date_str time_str : string)
  : result (option datetime) :=
  (let clean_dt := normalize_ws (date_str ++ " " ++ time_str) in
   match Re.search pattern clean_dt with
   | None => Ok None
   | Some m =>
       h <- py_int (Re.group m "h") ;;
       ampm <- group_upper (Re.group m "ampm") ;;
       let h := to_24h h ampm in
       y <- py_int (Re.group m "year") ;;
       mo <- py_int (Re.group m "mon") ;;
       d <- py_int (Re.group m "day") ;;
       mi <- py_int (Re.group m "m") ;;
       dt <- datetime_new y mo d h mi 0 0 ;;
       Ok (Some dt)
   end)%result.

Definition parse_dt_line (date_str time_str : string)
  : result (option datetime) :=
  try_except (parse_dt_line_body date_str time_str) (fun _ => Ok None).

(** ** Vocabulary of the statements about [parse_dt_line] *)

(** [w] is made of between [lo] and [hi] decimal digits. *)
Definition digits_text (lo hi : nat) (w : string) : Prop :=
  string_forallb Chars.is_decimal w = true /\
  (lo <= String.length w <= hi)%nat.

(** The text handed to the pattern. *)
Definition clean_dt (date_str time_str : string) : string :=
  normalize_ws (date_str ++ " " ++ time_str).

(** ** hashlib.sha1 *)

Module Sha1.

Definition mask32 (x : Z) : Z := Z.land x 4294967295.

Definition add32 (a b : Z) : Z := mask32 (a + b).

Definition rotl (n x : Z) : Z :=
  mask32 (Z.lor (Z.shiftl x n) (Z.shiftr x (32 - n))).

Definition not32 (x : Z) : Z := Z.lxor x 4294967295.

(** Big-endian 32-bit words of a byte sequence. *)
Fixpoint words (bytes : list Z) : list Z :=
  match bytes with
  | b0 :: b1 :: b2 :: b3 :: rest =>
      (Z.shiftl b0 24 + Z.shiftl b1 16 + Z.shiftl b2 8 + b3) :: words rest
  | _ => []
  end.

Definition be64 (n : Z) : list Z :=
  map (fun i => Z.land (Z.shiftr n (8 * i)) 255) [7; 6; 5; 4; 3; 2; 1; 0].

(** The message, the byte 0x80, zeros up to 56 modulo 64, the bit length. *)
Definition pad (msg : list Z) : list Z :=
  let l := Z.of_nat (List.length msg) in
  (msg ++ [128] ++ repeat 0 (Z.to_nat ((55 - l) mod 64)) ++ be64 (8 * l))%list.

Fixpoint blocks (n : nat) (ws : list Z) : list (list Z) :=
  match n with
  | O => []
  | S n' => firstn 16 ws :: blocks n' (skipn 16 ws)
  end.

(** The message schedule, latest word first. *)
Fixpoint extend (n : nat) (rev_w : list Z) : list Z :=
  match n with
  | O => rev_w
  | S n' =>
      let w i := nth i rev_w 0 in
      extend n' (rotl 1 (Z.lxor (Z.lxor (w 2%nat) (w 7%nat))
                                (Z.lxor (w 13%nat) (w 15%nat))) :: rev_w)
  end.

Definition schedule (block : list Z) : list Z := rev (extend 64 (rev block)).

Definition state : Type := (Z * Z * Z * Z * Z)%type.

Definition round (st : state) (tw : nat * Z) : state :=
  let '(a, b, c, d, e) := st in
  let '(t, w) := tw in
  let '(f, k) :=
    if (t <? 20)%nat
    then (Z.lor (Z.land b c) (Z.land (not32 b) d), 1518500249)
    else if (t <? 40)%nat
    then (Z.lxor (Z.lxor b c) d, 1859775393)
    else if (t <? 60)%nat
    then (Z.lor (Z.lor (Z.land b c) (Z.land b d)) (Z.land c d), 2400959708)
    else (Z.lxor (Z.lxor b c) d, 3395469782) in
  let temp := add32 (add32 (add32 (add32 (rotl 5 a) f) e) k) w in
  (temp, a, rotl 30 b, c, d).

Definition compress (h : state) (block : list Z) : state :=
  let '(h0, h1, h2, h3, h4) := h in
  let '(a, b, c, d, e) :=
    fold_left round (combine (seq 0 80) (schedule block)) h in
  (add32 h0 a, add32 h1 b, add32 h2 c, add32 h3 d, add32 h4 e).

Definition init : state :=
  (1732584193, 4023233417, 2562383102, 271733878, 3285377520).

Definition digest (msg : list Z) : state :=
  let ws := words (pad msg) in
  fold_left compress (blocks (List.length ws / 16) ws) init.

Definition hex_char (d : Z) : ascii :=
  if (d <? 10)%Z then ascii_of_N (Z.to_N (48 + d))
  else ascii_of_N (Z.to_N (87 + d)).

Fixpoint hex (width : nat) (n : Z) : string :=
  match width with
  | O => EmptyString
  | S w => hex w (n / 16) ++ String (hex_char (n mod 16)) EmptyString
  end.

Definition hexdigest (msg : list Z) : string :=
  let '(h0, h1, h2, h3, h4) := digest msg in
  hex 8 h0 ++ hex 8 h1 ++ hex 8 h2 ++ hex 8 h3 ++ hex 8 h4.

End Sha1.

(** [s.encode()]: UTF-8 of the code points below U+0100. *)
Fixpoint utf8 (s : string) : list Z :=
  match s with
  | EmptyString => []
  | String c s' =>
      let n := Z.of_N (Chars.code c) in
      if (n <? 128)%Z then n :: utf8 s'
      else Z.lor 192 (Z.shiftr n 6) :: Z.lor 128 (Z.land n 63) :: utf8 s'
  end.

(** ** Event *)

Record Event : Type := mkEvent {
  dt_start : datetime;
  title : string;
  location : string
}.

(** What [Event.uid] hashes. *)
Definition uid_key (e : Event) : string :=
  isoformat (dt_start e) ++ "|" ++ str_lower (title e).

Definition uid (e : Event) : string :=
  let h := Sha1.hexdigest (utf8 (uid_key e)) in
  "cga-" ++ h ++ "@cga.ct.gov".

(** ** Dictionaries *)

(** A Python [dict] with text keys: the items in insertion order, every key
    once. Assigning to a key that is present replaces its value where it
    stands; a new key goes to the end. *)
Definition dict (V : Type) : Type := list (string * V).

Fixpoint dict_set {V : Type} (d : dict V) (k : string) (v : V) : dict V :=
  match d with
  | [] => [(k, v)]
  | (k', v') :: d' =>
      if String.eqb k' k then (k', v) :: d'
      else (k', v') :: dict_set d' k v
  end.

Fixpoint dict_get {V : Type} (d : dict V) (k : string) : option V :=
  match d with
  | [] => None
  | (k', v') :: d' => if String.eqb k' k then Some v' else dict_get d' k
  end.

Definition dict_values {V : Type} (d : dict V) : list V := map snd d.
Definition dict_keys {V : Type} (d : dict V) : list string := map fst d.

(** [{key(x): x for x in xs}]. *)
Definition dict_by {V : Type} (key : V -> string) (xs : list V) : dict V :=
  fold_left (fun d x => dict_set d (key x) x) xs [].

(** [{**d1, **d2}]: the items of [d2] are assigned in turn. *)
Definition dict_update {V : Type} (d1 d2 : dict V) : dict V :=
  fold_left (fun d kv => dict_set d (fst kv) (snd kv)) d2 d1.

(** ** sorted *)

(** [sorted(xs, key=...)] is stable: of two items whose keys do not
    compare as smaller either way, the one that came first stays first.
    [ltb a b] is [key(a) < key(b)]. *)
Fixpoint insert_sorted {V : Type} (ltb : V -> V -> bool) (x : V) (l : list V)
  : list V :=
  match l with
  | [] => [x]
  | y :: l' => if ltb y x then y :: insert_sorted ltb x l' else x :: l
  end.

Definition sorted {V : Type} (ltb : V -> V -> bool) (xs : list V) : list V :=
  fold_right (insert_sorted ltb) [] xs.

(** ** Deduplication and order of the final list (line 163) *)

Definition event_ltb (a b : Event) : bool := dt_ltb (dt_start a) (dt_start b).

(** [a] does not start after [b]. *)
Definition starts_no_later (a b : Event) : Prop := event_ltb b a = false.

(** [x] is the last item of [l] that has its key. *)
Definition last_of_its_key {V : Type} (key : V -> string) (l : list V) (x : V)
  : Prop :=
  exists before after,
    l = (before ++ x :: after)%list /\
    forall y, In y after -> key y <> key x.

(** [e] is the last event of [l] that has its uid. *)
Definition last_of_its_uid (l : list Event) (e : Event) : Prop :=
  last_of_its_key uid l e.

(** Every item of the dictionary sits under its own key. *)
Definition keyed {V : Type} (key : V -> string) (d : dict V) : Prop :=
  forall k v, In (k, v) d -> k = key v.

Definition final_events (all_events : list Event) : list Event :=
  sorted event_ltb (dict_values (dict_by uid all_events)).

(** ** Row extraction (lines 80-96) *)

Definition is_candidate (text : string) : bool :=
  negb (String.eqb text "") && negb (str_isdigit text)
  && negb (String.eqb (str_lower text) "cga event").

(** The texts of the cells from the third on that may be a title. *)
Definition potential_titles (cols : list string) : list string :=
  filter is_candidate (map normalize_ws (skipn 2 cols)).

(** Lines 90-96: the title and the location chosen among the candidates. *)
Definition choose_title_location (potential_titles : list string)
  : string * string :=
  let n := List.length potential_titles in
  let title := match potential_titles with
               | t :: _ => t
               | [] => "Unknown CGA Meeting"
               end in
  let location := if (1 <? n)%nat then nth 1 potential_titles "" else "" in
  if (String.length title <? 3)%nat && (1 <? n)%nat
  then (nth 1 potential_titles "",
        if (2 <? n)%nat then nth 2 potential_titles "" else "")
  else (title, location).

(** ** build_ics *)

Definition TZID : string := "America/New_York".
Definition CRLF : string := String "013" (String "010" EmptyString).

Definition escape_commas (s : string) : string := replace_char "," "\," s.

Definition vevent_lines (now : string) (e : Event) : list string :=
  [ "BEGIN:VEVENT";
    "UID:" ++ uid e;
    "DTSTAMP:" ++ now;
    "DTSTART;TZID=" ++ TZID ++ ":" ++ strftime_compact (dt_start e);
    "SUMMARY:" ++ escape_commas (title e);
    "LOCATION:" ++ escape_commas (location e);
    "END:VEVENT" ].

Definition ics_lines (now : string) (events : list Event) : list string :=
  (["BEGIN:VCALENDAR"; "VERSION:2.0"; "PRODID:-//CGA//EN"; "METHOD:PUBLISH"]
   ++ flat_map (vevent_lines now) events
   ++ ["END:VCALENDAR"])%list.

(** [utcnow] is the reading of the clock, [datetime.now(timezone.utc)]. *)
Definition build_ics (utcnow : datetime) (events : list Event) : string :=
  let now := strftime_compact utcnow ++ "Z" in
  join CRLF (ics_lines now events) ++ CRLF.

(** ** datetime.date *)

Record date : Type := mkDate { d_year : Z; d_month : Z; d_day : Z }.

Definition next_day (d : date) : date :=
  if (d_day d <? days_in_month (d_year d) (d_month d))%Z
  then mkDate (d_year d) (d_month d) (d_day d + 1)
  else if (d_month d <? 12)%Z then mkDate (d_year d) (d_month d + 1) 1
  else mkDate (d_year d + 1) 1 1.

(** [d + timedelta(days=n)]; a result after year 9999 is an
    [OverflowError]. *)
Definition date_add_days (d : date) (n : nat) : result date :=
  let r := Nat.iter n next_day d in
  if (d_year r <=? 9999)%Z then Ok r
  else Raise (OverflowError "date value out of range").

(** [d.strftime("%m/%d/%Y")]: month and day with two digits, the year as
    [%Y] writes it, without padding. *)
Definition strftime_mdY (d : date) : string :=
  fmt02 (d_month d) ++ "/" ++ fmt02 (d_day d) ++ "/" ++ str_of_Z (d_year d).

(** [str(d)]. *)
Definition date_str (d : date) : string :=
  fmt04 (d_year d) ++ "-" ++ fmt02 (d_month d) ++ "-" ++ fmt02 (d_day d).

(** ** What bs4 gives back *)

(** The part of a parsed document the script looks at: the attributes of
    its [input] elements, in document order, and for every [tr] element
    the [get_text(strip=True)] of each of its [td] elements. *)
Record Soup : Type := mkSoup {
  soup_inputs : list (dict string);
  soup_rows : list (list string)
}.

(** [soup.find("input", attrs={"name": f})]. *)
Definition find_input (soup : Soup) (f : string) : option (dict string) :=
  find (fun attrs => match dict_get attrs "name" with
                     | Some v => String.eqb v f
                     | None => false
                     end) (soup_inputs soup).

(** [tag.get("value", "")]. *)
Definition tag_get_value (attrs : dict string) : string :=
  match dict_get attrs "value" with
  | Some v => v
  | None => ""
  end.

(** ** The world the script runs in *)

Inductive request : Type :=
| GET (url : string)
| POST (url : string) (headers : dict string) (data : dict string).

(** What the script does to the outside, in the order it does it. *)
Inductive io_event : Type :=
| IoRequest (r : request)
| IoSleep (seconds : Q)
| IoPrint (line : string)
| IoWrite (path : string) (content : string).

Record World : Type := mkWorld {
  (** [session.asp_tokens]; [None] while the attribute does not exist *)
  asp_tokens : option (dict string);
  (** number of requests sent so far *)
  sent : nat;
  (** everything done so far, oldest first *)
  trace : list io_event;
  (** contents of the file cga.ics, [None] when there is no such file *)
  output_ics : option string
}.

Definition M (A : Type) : Type := World -> result A * World.

Definition ret {A : Type} (a : A) : M A := fun w => (Ok a, w).

Definition bind {A B : Type} (c : M A) (k : A -> M B) : M B :=
  fun w => match c w with
           | (Ok a, w') => k a w'
           | (Raise e, w') => (Raise e, w')
           end.

Definition lift {A : Type} (r : result A) : M A := fun w => (r, w).

(** [try: body  except Exception as e: handler]: what [body] did before
    it raised stays done. *)
Definition try_catch {A : Type} (body : M A) (handler : exn -> M A) : M A :=
  fun w => match body w with
           | (Ok a, w') => (Ok a, w')
           | (Raise e, w') => handler e w'
           end.

Declare Scope M_scope.
Delimit Scope M_scope with M.
Notation "x <- c ;; k" := (bind c (fun x => k))
  (at level 61, c at next level, right associativity) : M_scope.
Notation "c ;; k" := (bind c (fun _ => k))
  (at level 61, right associativity) : M_scope.

Definition emit (e : io_event) : M unit :=
  fun w => (Ok tt, mkWorld (asp_tokens w) (sent w) (trace w ++ [e])%list
                           (output_ics w)).

(** [print(line)] on a console that takes every line (one that cannot
    encode a character is outside this model). *)
Definition print (line : string) : M unit := emit (IoPrint line).
Definition sleep (seconds : Q) : M unit := emit (IoSleep seconds).

(** [hasattr(session, 'asp_tokens')]. *)
Definition has_asp_tokens : M bool :=
  fun w => (Ok (match asp_tokens w with Some _ => true | None => false end), w).

(** Reading [session.asp_tokens]. *)
Definition get_asp_tokens : M (dict string) :=
  fun w => (match asp_tokens w with
            | Some t => Ok t
            | None => Raise (AttributeError
                        "'Session' object has no attribute 'asp_tokens'")
            end, w).

Definition set_asp_tokens (t : dict string) : M unit :=
  fun w => (Ok tt, mkWorld (Some t) (sent w) (trace w) (output_ics w)).

Definition OUTPUT_ICS : string := "cga.ics".
Definition USER_AGENT : string :=
  "Mozilla/5.0 (Windows NT 10.0; Win64; x64) AppleWebKit/537.36 (KHTML, like Gecko) Chrome/120.0.0.0 Safari/537.36".

(** [OUTPUT_ICS.write_text(content, "utf-8")]. *)
Definition write_text (content : string) : M unit :=
  fun w => (Ok tt, mkWorld (asp_tokens w) (sent w)
                           (trace w ++ [IoWrite OUTPUT_ICS content])%list
                           (Some content)).

Section Script.

(** [BeautifulSoup(text, "html.parser")], taken for a document that the
    parser reads to its end: the tree it gives is all the script looks at.
    A text on which the parser itself fails is outside this model. *)
Variable BeautifulSoup : string -> Soup.

(** The other end of the session: what the request sent after [n] others
    gets, the text of a response or an exception of [requests]. *)
Variable server : nat -> request -> result string.

(** The readings of the clock: [datetime.now().date()] and
    [datetime.now(timezone.utc)]. *)
Variable today : date.
Variable utcnow : datetime.

(** [session.get] and [session.post], giving the text of the response. *)
Definition send (r : request) : M string :=
  fun w => (server (sent w) r,
            mkWorld (asp_tokens w) (S (sent w)) (trace w ++ [IoRequest r])%list
                    (output_ics w)).

(** *** parse_events_from_html *)

(** One turn of the loop over the rows. *)
Definition parse_row (cols : list string) (events : list Event)
  : M (list Event) :=
  (if (List.length cols <? 4)%nat then ret events
   else
     let date_raw := nth 0 cols "" in
     let time_raw := nth 1 cols "" in
     dt <- lift (parse_dt_line date_raw time_raw) ;;
     match dt with
     | None => ret events
     | Some dt =>
         let '(title, location) :=
           choose_title_location (potential_titles cols) in
         print ("    [FOUND] " ++ strftime_found dt ++ " -> " ++ title) ;;
         ret (events ++ [mkEvent dt title location])%list
     end)%M.

Fixpoint parse_rows (rows : list (list string)) (events : list Event)
  : M (list Event) :=
  match rows with
  | [] => ret events
  | cols :: rows' =>
      (events' <- parse_row cols events ;; parse_rows rows' events')%M
  end.

Definition parse_events_from_html (html_content : string) : M (list Event) :=
  let soup := BeautifulSoup html_content in
  parse_rows (soup_rows soup) [].

(** *** fetch_events_for_day *)

Definition search_url : string := "https://www.cga.ct.gov/webapps/cgaevents.asp".
Definition xhr_url : string := "https://www.cga.ct.gov/webapps/in-events1x.asp".

Definition token_fields : list string :=
  ["__VIEWSTATE"; "__VIEWSTATEGENERATOR"; "__EVENTVALIDATION"].

(** The dictionary comprehension of lines 110-114. *)
Definition extract_tokens (soup : Soup) : dict string :=
  fold_left (fun d f => match find_input soup f with
                        | Some tag => dict_set d f (tag_get_value tag)
                        | None => d
                        end) token_fields [].

Definition fetch_events_for_day (target_date : date) : M string :=
  (captured <- has_asp_tokens ;;
   (if negb captured
    then r_text <- send (GET search_url) ;;
         let soup := BeautifulSoup r_text in
         set_asp_tokens (extract_tokens soup)
    else ret tt) ;;
   let date_str := strftime_mdY target_date in
   tokens <- get_asp_tokens ;;
   let data := dict_update
                 [("sDate", date_str); ("eDate", date_str);
                  ("btnSubmit", "Search"); ("List", "1")]
                 tokens in
   let headers := [("User-Agent", USER_AGENT); ("Referer", search_url)] in
   send (POST xhr_url headers data))%M.

(** *** main *)

Definition days_to_pull : nat := 14.

(** The body of the [try] of one day. *)
Definition day_body (current : date) (all_events : list Event)
  : M (list Event) :=
  (html <- fetch_events_for_day current ;;
   day_events <- parse_events_from_html html ;;
   let all_events := match day_events with
                     | [] => all_events
                     | _ => (all_events ++ day_events)%list
                     end in
   sleep (1 # 2) ;;
   ret all_events)%M.

(** One turn of the loop over the days. *)
Definition day_step (i : nat) (all_events : list Event) : M (list Event) :=
  (current <- lift (date_add_days today i) ;;
   try_catch (day_body current all_events)
     (fun e =>
        print ("  [!] Error on " ++ date_str current ++ ": " ++ exn_str e) ;;
        ret all_events))%M.

Fixpoint for_days (days : list nat) (all_events : list Event)
  : M (list Event) :=
  match days with
  | [] => ret all_events
  | i :: days' =>
      (all_events' <- day_step i all_events ;; for_days days' all_events')%M
  end.

(** The loop of lines 150-159. *)
Definition collect_events : M (list Event) :=
  for_days (seq 0 days_to_pull) [].

Definition fail_message : string :=
  String "010" "[FAIL] No events found. Please check if the CGA website is up.".

(** Lines 161-167. *)
Definition report (all_events : list Event) : M unit :=
  match all_events with
  | _ :: _ =>
      let final := final_events all_events in
      (write_text (build_ics utcnow final) ;;
       print (String "010" "[SUCCESS] Wrote "
              ++ str_of_nat (List.length final)
              ++ " events to " ++ OUTPUT_ICS))%M
  | [] => print fail_message
  end.

Definition start_message : string :=
  "[*] Starting CGA Scraper for " ++ str_of_nat days_to_pull ++ " days...".

Definition main : M unit :=
  (print start_message ;;
   all_events <- collect_events ;;
   report all_events)%M.

(** The list the loop of [main] hands to lines 161-167 in a run started
    in [w], or the exception that ended the loop. *)
Definition collected (w : World) : result (list Event) :=
  fst ((print start_message ;; collect_events)%M w).

End Script.

(** ** Vocabulary of the statements about the calendar text *)

Definition CR : ascii := "013"%char.
Definition LF : ascii := "010"%char.

(** [text.split("\r\n")]: the pieces between the line terminators. *)
Fixpoint split_crlf (text : string) : list string :=
  match text with
  | EmptyString => [EmptyString]
  | String c rest =>
      let continue :=
        match split_crlf rest with
        | piece :: pieces => String c piece :: pieces
        | [] => [String c EmptyString]
        end in
      match rest with
      | String c' rest' =>
          if Ascii.eqb c CR && Ascii.eqb c' LF
          then EmptyString :: split_crlf rest'
          else continue
      | EmptyString => continue
      end
  end.

(** [s] holds neither a carriage return nor a line feed. *)
Definition no_newline (s : string) : bool :=
  string_forallb (fun c => negb (Ascii.eqb c CR) && negb (Ascii.eqb c LF)) s.

(** Every line followed by the terminator. *)
Fixpoint terminated (lines : list string) : string :=
  match lines with
  | [] => EmptyString
  | l :: rest => l ++ CRLF ++ terminated rest
  end.

(** How many of [lines] read exactly [line]. *)
Definition count_line (line : string) (lines : list string) : nat :=
  List.length (filter (String.eqb line) lines).

(** The text of an event is on one line. *)
Definition single_line (e : Event) : Prop :=
  no_newline (title e) = true /\ no_newline (location e) = true.

(** ** Vocabulary of the statements about runs *)

Definition is_write (e : io_event) : bool :=
  match e with IoWrite _ _ => true | _ => false end.

Definition is_sleep (e : io_event) : bool :=
  match e with IoSleep _ => true | _ => false end.

Definition is_get (e : io_event) : bool :=
  match e with IoRequest (GET _) => true | _ => false end.

Definition is_print (e : io_event) : bool :=
  match e with IoPrint _ => true | _ => false end.

Definition is_request (e : io_event) : bool :=
  match e with IoRequest _ => true | _ => false end.

(** The delays of a trace, in order. *)
Definition sleeps (t : list io_event) : list io_event := filter is_sleep t.

(** The landing page requests of a trace. *)
Definition gets (t : list io_event) : list io_event := filter is_get t.

(** The writes of the output file in a trace. *)
Definition writes (t : list io_event) : list io_event := filter is_write t.

(** A session in which nothing has happened yet. *)
Definition fresh_world (file : option string) : World :=
  mkWorld None 0 [] file.

(** [c] takes every world to one related to it by [R]. *)
Definition respects (R : World -> World -> Prop) {A : Type} (c : M A) : Prop :=
  forall w, R w (snd (c w)).

(** The events of kind [P] are the same in the traces of [w] and [w']. *)
Definition unchanged (P : io_event -> bool) (w w' : World) : Prop :=
  filter P (trace w') = filter P (trace w).

(** The output file is the same in [w] and [w']. *)
Definition same_file (w w' : World) : Prop := output_ics w' = output_ics w.

(** A token mapping held in [w] is still the one held in [w'], and no
    landing page was requested in between. *)
Definition tokens_kept (w w' : World) : Prop :=
  forall t, asp_tokens w = Some t ->
            asp_tokens w' = Some t /\ unchanged is_get w w'.

(** The search request of [fetch_events_for_day] for a day and a token
    mapping. *)
Definition day_post (target_date : date) (tokens : dict string) : request :=
  let date_str := strftime_mdY target_date in
  POST xhr_url
    [("User-Agent", USER_AGENT); ("Referer", search_url)]
    (dict_update [("sDate", date_str); ("eDate", date_str);
                  ("btnSubmit", "Search"); ("List", "1")] tokens).

(** The line printed for a day that raised. *)
Definition error_message (current : date) (e : exn) : string :=
  "  [!] Error on " ++ date_str current ++ ": " ++ exn_str e.

(** ** Sample surroundings *)

(** A parser that finds nothing in any text. *)
Definition blank_soup (text : string) : Soup := mkSoup [] [].

(** Every request fails. *)
Definition server_down (n : nat) (r : request) : result string :=
  Raise (RequestException "Connection refused").

(** The first request fails, every later one is answered. *)
Definition server_late (n : nat) (r : request) : result string :=
  match n with
  | O => Raise (RequestException "Read timed out")
  | S _ => Ok "<html></html>"
  end.

(** Whenever [c] returns, what it returns satisfies [Q]. *)
Definition returns {A : Type} (Q : A -> Prop) (c : M A) : Prop :=
  forall w, match fst (c w) with
            | Ok a => Q a
            | Raise _ => True
            end.

(** A parser that finds the given table rows in any text. *)
Definition soup_of_rows (rows : list (list string)) (text : string) : Soup :=
  mkSoup [] rows.

(** * Further vocabulary *)

(** A timestamp the [datetime] constructor accepts, with the seconds and
    microseconds [parse_dt_line] leaves at 0. *)
Definition valid_minute_stamp (dt : datetime) : Prop :=
  1 <= year dt <= 9999 /\ 1 <= month dt <= 12 /\
  1 <= day dt <= days_in_month (year dt) (month dt) /\
  0 <= hour dt <= 23 /\ 0 <= minute dt <= 59 /\
  second dt = 0 /\ microsecond dt = 0.

(** A lower-case hexadecimal digit. *)
Definition is_hex_lower (c : ascii) : bool :=
  Chars.between 48 57 c || Chars.between 97 102 c.

(** In [s] every comma comes right after a backslash; [prev] is the
    character before [s]. *)
Fixpoint commas_escaped (prev : ascii) (s : string) : bool :=
  match s with
  | EmptyString => true
  | String c s' =>
      (negb (Ascii.eqb c ",") || Ascii.eqb prev "\") && commas_escaped c s'
  end.

(** The number of commas of [s]. *)
Fixpoint count_commas (s : string) : nat :=
  match s with
  | EmptyString => O
  | String c s' => ((if Ascii.eqb c "," then 1 else 0) + count_commas s')%nat
  end.

(** The first character of [s], if there is one, is no white space. *)
Definition starts_clean (s : string) : bool :=
  match s with
  | String c _ => negb (Chars.is_space c)
  | EmptyString => true
  end.

(** [s] starts with a character that is no white space. *)
Definition starts_word (s : string) : bool :=
  match s with
  | String c _ => negb (Chars.is_space c)
  | EmptyString => false
  end.

(** The last character of [s], if there is one, is no white space. *)
Fixpoint ends_clean (s : string) : bool :=
  match s with
  | EmptyString => true
  | String c s' =>
      match s' with
      | EmptyString => negb (Chars.is_space c)
      | String _ _ => ends_clean s'
      end
  end.

(** Every white space of [s] is one space character followed by a
    character that is no white space. *)
Fixpoint single_spaced (s : string) : bool :=
  match s with
  | EmptyString => true
  | String c s' =>
      (negb (Chars.is_space c) || (Ascii.eqb c " " && starts_word s'))
      && single_spaced s'
  end.

(** [s] is as [normalize_ws] leaves a text: no white space at either end,
    and between words one space. *)
Definition ws_normal (s : string) : bool := starts_clean s && single_spaced s.

(** The event a table row stands for, if any: the row has at least four
    cells and its first two cells parse as a date and a time. *)
Definition row_event (cols : list string) : option Event :=
  if (List.length cols <? 4)%nat then None
  else match parse_dt_line (nth 0 cols "") (nth 1 cols "") with
       | Ok (Some dt) =>
           let '(title, location) :=
             choose_title_location (potential_titles cols) in
           Some (mkEvent dt title location)
       | _ => None
       end.

(** The events of the rows of a document, in the order of the rows. *)
Definition row_events (rows : list (list string)) : list Event :=
  flat_map (fun cols => match row_event cols with
                        | Some e => [e]
                        | None => []
                        end) rows.

(** The line printed for an event that was found. *)
Definition found_message (e : Event) : string :=
  "    [FOUND] " ++ strftime_found (dt_start e) ++ " -> " ++ title e.

(** What makes a text a title or a location taken from a row. *)
Definition row_text (s : string) : Prop :=
  is_candidate s = true /\ ws_normal s = true.

(** The texts of [keys] without repetition, each at the place where it
    first appears. *)
Fixpoint first_occurrences (keys : list string) : list string :=
  match keys with
  | [] => []
  | k :: keys' =>
      k :: filter (fun k' => negb (String.eqb k k')) (first_occurrences keys')
  end.

Definition datetime_eqb (a b : datetime) : bool :=
  (year a =? year b)%Z && (month a =? month b)%Z && (day a =? day b)%Z
  && (hour a =? hour b)%Z && (minute a =? minute b)%Z
  && (second a =? second b)%Z && (microsecond a =? microsecond b)%Z.

(** [e] starts at [t]. *)
Definition starts_at (t : datetime) (e : Event) : bool :=
  datetime_eqb (dt_start e) t.

(** [k] is not among [ks]. *)
Definition absent (ks : list string) (k : string) : bool :=
  negb (existsb (String.eqb k) ks).

(** The form fields of a request, none for a GET. *)
Definition request_data (r : request) : dict string :=
  match r with
  | GET _ => []
  | POST _ _ data => data
  end.

(** The four fields of the search form. *)
Definition search_fields : list string := ["sDate"; "eDate"; "btnSubmit"; "List"].

(** [s] begins with [p]. *)
Fixpoint starts_with (p s : string) : bool :=
  match p with
  | EmptyString => true
  | String a p' =>
      match s with
      | EmptyString => false
      | String b s' => Ascii.eqb a b && starts_with p' s'
      end
  end.





(** Every request is answered. *)
Definition server_up (n : nat) (r : request) : result string :=
  Ok "<html></html>".

(** The lines of the pieces of a text that begin with [tag]. *)
Definition tagged (tag : string) (lines : list string) : list string :=
  filter (starts_with tag) lines.

(** The ways of writing the AM and PM markers. *)
Definition markers : list string :=
  ["AM"; "PM"; "am"; "pm"; "Am"; "Pm"; "aM"; "pM"].

(** [s] begins with a character of the class [cl]. *)
Definition starts_in_class (cl : Re.cclass) (s : string) : bool :=
  match s with
  | String c _ => Re.in_class cl c
  | EmptyString => false
  end.

(** What [parse_dt_line] makes of the numbers and the marker it read. *)
Definition stamp_of_fields (yr mon dd h mi ap : string)
  : result (option datetime) :=
  match datetime_new (int_digits 0 yr) (int_digits 0 mon) (int_digits 0 dd)
                     (to_24h (int_digits 0 h) (str_upper ap))
                     (int_digits 0 mi) 0 0 with
  | Ok dt => Ok (Some dt)
  | Raise _ => Ok None
  end.

(** The characters of [s] that are no white space. *)
Fixpoint without_ws (s : string) : string :=
  match s with
  | EmptyString => EmptyString
  | String c s' =>
      if Chars.is_space c then without_ws s' else String c (without_ws s')
  end.

(** * Properties *)

Local Open Scope list_scope.

(** ** The embedding at work *)

Example str_of_nat_sample : str_of_nat 42 = "42". Proof. reflexivity. Qed.

Example fmt04_sample : fmt04 7 = "0007". Proof. reflexivity. Qed.

Example str_of_Z_samples :
  map str_of_Z [0; 7; 10; 999; 1000; 2026; 9999]%Z
  = ["0"; "7"; "10"; "999"; "1000"; "2026"; "9999"]%string.
Proof. reflexivity. Qed.

(** [%Y] does not pad a year below 1000, [isoformat] does. *)
Example strftime_compact_year_999 :
  strftime_compact (mkDatetime 999 1 5 10 0 0 0) = "9990105T100000".
Proof. reflexivity. Qed.

Example strftime_compact_year_2026 :
  strftime_compact (mkDatetime 2026 3 4 14 30 0 0) = "20260304T143000".
Proof. reflexivity. Qed.

Example strftime_mdY_year_999 :
  strftime_mdY (mkDate 999 1 5) = "01/05/999".
Proof. reflexivity. Qed.

Example isoformat_year_999 :
  isoformat (mkDatetime 999 1 5 10 0 0 0) = "0999-01-05T10:00:00".
Proof. reflexivity. Qed.

Example normalize_ws_sample :
  normalize_ws (String "009" " a  b " ++ String "010" "c ") = "a b c".
Proof. reflexivity. Qed.

Example parse_dt_line_morning :
  parse_dt_line "1/5/2025" "10:00 AM" = Ok (Some (mkDatetime 2025 1 5 10 0 0 0)).
Proof. vm_compute. reflexivity. Qed.

Example parse_dt_line_malformed :
  parse_dt_line "13/45/2024" "25:00 AM" = Ok None.
Proof. vm_compute. reflexivity. Qed.

Example parse_dt_line_afternoon_with_seconds :
  parse_dt_line " 01/05/2025" "  1:15:59pm (est)" = Ok (Some (mkDatetime 2025 1 5 13 15 0 0)).
Proof. vm_compute. reflexivity. Qed.

Example parse_dt_line_leftmost_match_is_month_23 :
  parse_dt_line "x123/5/2025" "12:00AM" = Ok None.
Proof. vm_compute. reflexivity. Qed.

Example parse_dt_line_match_inside_text :
  parse_dt_line "x012/5/2025" "12:00AM" = Ok (Some (mkDatetime 2025 12 5 0 0 0 0)).
Proof. vm_compute. reflexivity. Qed.

Example sha1_abc :
  Sha1.hexdigest (utf8 "abc") = "a9993e364706816aba3e25717850c26c9cd0d89d".
Proof. vm_compute. reflexivity. Qed.

Example sha1_empty :
  Sha1.hexdigest (utf8 "") = "da39a3ee5e6b4b0d3255bfef95601890afd80709".
Proof. vm_compute. reflexivity. Qed.

Example sha1_two_blocks :
  Sha1.hexdigest (utf8 "abcdbcdecdefdefgefghfghighijhijkijkljklmklmnlmnomnopnopq")
  = "84983e441c3bd26ebaae4aa1f95129e5e54670f1".
Proof. vm_compute. reflexivity. Qed.

Example uid_key_sample :
  uid_key (mkEvent (mkDatetime 2025 1 5 10 0 0 0) "Budget Session" "Room 2C")
  = "2025-01-05T10:00:00|budget session".
Proof. vm_compute. reflexivity. Qed.

Example choose_skips_numeric_cell :
  choose_title_location (potential_titles ["1/5/2025"; "10:00 AM"; "101"; "Public Hearing on Energy"; "Room 2C"])
  = ("Public Hearing on Energy", "Room 2C").
Proof. vm_compute. reflexivity. Qed.

Example final_events_sample :
  map title (final_events
    [ mkEvent (mkDatetime 2025 1 6 10 0 0 0) "B" "x";
      mkEvent (mkDatetime 2025 1 5 10 0 0 0) "A" "x";
      mkEvent (mkDatetime 2025 1 6 10 0 0 0) "b" "y";
      mkEvent (mkDatetime 2025 1 5 10 0 0 0) "C" "y" ]) = ["A"; "C"; "b"].
Proof. vm_compute. reflexivity. Qed.

Example build_ics_sample :
  build_ics (mkDatetime 2025 1 1 8 0 0 0)
    [mkEvent (mkDatetime 2025 1 5 10 0 0 0) "A, B" "Room 2C"]
  = terminated
      [ "BEGIN:VCALENDAR"; "VERSION:2.0"; "PRODID:-//CGA//EN"; "METHOD:PUBLISH";
        "BEGIN:VEVENT";
        "UID:cga-aceafdd31880529bbd95f17fc90634c733014e52@cga.ct.gov";
        "DTSTAMP:20250101T080000Z";
        "DTSTART;TZID=America/New_York:20250105T100000";
        "SUMMARY:A\, B"; "LOCATION:Room 2C"; "END:VEVENT"; "END:VCALENDAR" ].
Proof. vm_compute. reflexivity. Qed.

Example extract_tokens_sample :
  extract_tokens
    (mkSoup [ [("type", "hidden"); ("name", "__VIEWSTATE"); ("value", "abc")];
              [("type", "text"); ("name", "q")];
              [("type", "hidden"); ("name", "__EVENTVALIDATION")] ] [])
  = [("__VIEWSTATE", "abc"); ("__EVENTVALIDATION", "")].
Proof. reflexivity. Qed.

Example sha1_latin1 :
  uid_key (mkEvent (mkDatetime 2025 1 5 10 0 0 0)
             (String "067" (String "065" (String "070" (String "201" " ")))
              ++ String "201" (String "084" (String "201" ""))) "")
  = ("2025-01-05T10:00:00|caf" ++ String "233" " "
     ++ String "233" (String "116" (String "233" "")))%string /\
  Sha1.hexdigest
    (utf8 ("2025-01-05T10:00:00|caf" ++ String "233" " "
           ++ String "233" (String "116" (String "233" ""))))
  = "ab6e3717b38a75b0977f76e732ffc47c68feb98d".
Proof. vm_compute. split; reflexivity. Qed.

Example row_with_numeric_cell :
  fst (parse_events_from_html
         (soup_of_rows [["1/5/2025"; "10:00 AM"; "101";
                         "Public Hearing on Energy"; "Room 2C"]])
         "" (fresh_world None))
  = Ok [mkEvent (mkDatetime 2025 1 5 10 0 0 0)
                "Public Hearing on Energy" "Room 2C"].
Proof. vm_compute. reflexivity. Qed.

Example row_with_three_cells :
  fst (parse_events_from_html
         (soup_of_rows [["1/5/2025"; "10:00 AM"; "Public Hearing"]])
         "" (fresh_world None))
  = Ok [].
Proof. vm_compute. reflexivity. Qed.

Example row_with_numeric_cells_only :
  fst (parse_events_from_html
         (soup_of_rows [["1/5/2025"; "10:00 AM"; "101"; "7"]])
         "" (fresh_world None))
  = Ok [mkEvent (mkDatetime 2025 1 5 10 0 0 0) "Unknown CGA Meeting" ""].
Proof. vm_compute. reflexivity. Qed.

Example row_header_is_skipped :
  parse_events_from_html
    (soup_of_rows [["Date"; "Time"; "Event"; "Location"]])
    "" (fresh_world None)
  = (Ok [], fresh_world None).
Proof. vm_compute. reflexivity. Qed.

(** ** The matcher is sound for the declarative reading of patterns *)

Lemma string_app_length (a b : string) :
  String.length (a ++ b) = (String.length a + String.length b)%nat.
Proof. induction a as [|c a IH]; simpl; [reflexivity | now rewrite IH]. Qed.

Lemma substring_prefix (w s : string) :
  substring 0 (String.length w) (w ++ s) = w.
Proof.
  induction w as [|c w IH]; simpl.
  - destruct s; reflexivity.
  - now rewrite IH.
Qed.

Lemma consumed_app (w s : string) : Re.consumed (w ++ s) s = w.
Proof.
  unfold Re.consumed. rewrite string_app_length.
  replace (String.length w + String.length s - String.length s)%nat
    with (String.length w) by lia.
  apply substring_prefix.
Qed.

Lemma rep_sound {A : Type} cl (s : string) :
  forall lo hi (k : string -> option A) x,
    Re.rep cl lo hi s k = Some x ->
    exists w s',
      s = (w ++ s')%string /\ string_forallb (Re.in_class cl) w = true /\
      (lo <= String.length w)%nat /\
      match hi with Some h => (String.length w <= h)%nat | None => True end /\
      k s' = Some x.
Proof.
  assert (Hstop : forall (t : string) lo hi (k : string -> option A) x,
             match lo with O => k t | S _ => None end = Some x ->
             exists w s',
               t = (w ++ s')%string /\ string_forallb (Re.in_class cl) w = true /\
               (lo <= String.length w)%nat /\
               match hi with Some h => (String.length w <= h)%nat | None => True end /\
               k s' = Some x).
  { intros t lo hi k x H. destruct lo; [|discriminate].
    exists EmptyString, t. simpl. repeat split; auto.
    destruct hi; simpl; auto with arith. }
  induction s as [|c s IH]; intros lo hi k x H.
  - apply (Hstop EmptyString lo hi k x). simpl in H. destruct hi as [[|h]|]; exact H.
  - assert (Hstep :
      (if Re.in_class cl c
       then match Re.rep cl (Nat.pred lo) (option_map Nat.pred hi) s k with
            | Some y => Some y
            | None => match lo with O => k (String c s) | S _ => None end
            end
       else match lo with O => k (String c s) | S _ => None end) = Some x ->
      hi <> Some O ->
      exists w s',
        String c s = (w ++ s')%string /\ string_forallb (Re.in_class cl) w = true /\
        (lo <= String.length w)%nat /\
        match hi with Some h => (String.length w <= h)%nat | None => True end /\
        k s' = Some x).
    { intros H' Hhi. destruct (Re.in_class cl c) eqn:Ec; [|exact (Hstop _ _ hi _ _ H')].
      destruct (Re.rep cl (Nat.pred lo) (option_map Nat.pred hi) s k) as [y|] eqn:Er;
        [|exact (Hstop _ _ hi _ _ H')].
      injection H' as ->.
      destruct (IH _ _ _ _ Er) as (w & s' & -> & Hw & Hlo & Hhi' & Hk).
      exists (String c w), s'. simpl. rewrite Ec, Hw. repeat split; auto.
      - lia.
      - destruct hi as [[|h]|]; simpl in *; auto; [congruence | lia]. }
    destruct hi as [[|h]|]; simpl in H.
    + exact (Hstop _ _ (Some O) _ _ H).
    + apply Hstep; [exact H | discriminate].
    + apply Hstep; [exact H | discriminate].
Qed.

Lemma rmatch_sound {A : Type} (r : Re.regex) :
  forall s caps (k : string -> Re.captures -> option A) x,
    Re.rmatch r s caps k = Some x ->
    exists s' caps', Re.matches r s caps s' caps' /\ k s' caps' = Some x.
Proof.
  induction r as [c | cl lo hi | r1 IH1 r2 IH2 | r1 IH1 r2 IH2 | r1 IH1 | g r1 IH1];
    intros s caps k x H; simpl in H.
  - destruct s as [|c' s]; [discriminate|].
    destruct (Chars.eq_ci c c') eqn:E; [|discriminate].
    exists s, caps. split; [now constructor | exact H].
  - apply rep_sound in H. destruct H as (w & s' & -> & Hw & Hlo & Hhi & Hk).
    exists s', caps. split; [now constructor | exact Hk].
  - apply IH1 in H. destruct H as (s1 & caps1 & M1 & H).
    apply IH2 in H. destruct H as (s2 & caps2 & M2 & H).
    exists s2, caps2. split; [econstructor; eassumption | exact H].
  - destruct (Re.rmatch r1 s caps k) as [y|] eqn:E1.
    + injection H as ->. apply IH1 in E1. destruct E1 as (s' & caps' & M & Hk).
      exists s', caps'. split; [now apply Re.M_AltL | exact Hk].
    + apply IH2 in H. destruct H as (s' & caps' & M & Hk).
      exists s', caps'. split; [now apply Re.M_AltR | exact Hk].
  - destruct (Re.rmatch r1 s caps k) as [y|] eqn:E1.
    + injection H as ->. apply IH1 in E1. destruct E1 as (s' & caps' & M & Hk).
      exists s', caps'. split; [now apply Re.M_OptSome | exact Hk].
    + exists s, caps. split; [apply Re.M_OptNone | exact H].
  - apply IH1 in H. destruct H as (s' & caps' & M & Hk).
    exists s', ((g, Re.consumed s s') :: caps'). split; [now constructor | exact Hk].
Qed.

Lemma search_sound (r : Re.regex) (s : string) (m : Re.captures) :
  Re.search r s = Some m -> exists s0 s', Re.matches r s0 [] s' m.
Proof.
  induction s as [|c s IH]; simpl; intros H.
  - destruct (Re.rmatch r "" [] (fun _ caps => Some caps)) as [y|] eqn:E;
      [|discriminate].
    injection H as ->. apply rmatch_sound in E.
    destruct E as (s' & caps' & M & Hk). injection Hk as ->. eauto.
  - destruct (Re.rmatch r (String c s) [] (fun _ caps => Some caps)) as [y|] eqn:E.
    + injection H as ->. apply rmatch_sound in E.
      destruct E as (s' & caps' & M & Hk). injection Hk as ->. eauto.
    + auto.
Qed.

(** ** What a match of the date and time pattern captures *)

Ltac inv H := inversion H; subst; clear H.

Ltac inv_matches :=
  repeat match goal with
  | H : Re.matches (Re.Cat _ _) _ _ _ _ |- _ => inv H
  | H : Re.matches (Re.Group _ _) _ _ _ _ |- _ => inv H
  | H : Re.matches (Re.Chr _) _ _ _ _ |- _ => inv H
  | H : Re.matches (Re.Rep _ _ _) _ _ _ _ |- _ => inv H
  | H : Re.matches (Re.Opt _) _ _ _ _ |- _ => inv H
  | H : Re.matches (Re.Alt _ _) _ _ _ _ |- _ => inv H
  end.

Lemma eq_ci_letter (c c' : ascii) :
  c = "A"%char \/ c = "M"%char \/ c = "P"%char ->
  Chars.eq_ci c c' = true -> Chars.upper c' = c.
Proof.
  intros [-> | [-> | ->]];
    destruct c' as [[] [] [] [] [] [] [] []];
    vm_compute; intros H; solve [reflexivity | discriminate H].
Qed.

Lemma consumed_two (a b : ascii) (s : string) :
  Re.consumed (String a (String b s)) s = String a (String b EmptyString).
Proof. apply (consumed_app (String a (String b EmptyString)) s). Qed.

Lemma consumed_sep (w : string) (c : ascii) (s : string) :
  Re.consumed (w ++ String c s) (String c s) = w.
Proof. apply consumed_app. Qed.

Lemma pattern_groups s0 s' m :
  Re.matches pattern s0 [] s' m ->
  exists mon dd yr h mi ap,
    Re.group m "mon" = Some mon /\ Re.group m "day" = Some dd /\
    Re.group m "year" = Some yr /\ Re.group m "h" = Some h /\
    Re.group m "m" = Some mi /\ Re.group m "ampm" = Some ap /\
    digits_text 1 2 mon /\ digits_text 1 2 dd /\ digits_text 4 4 yr /\
    digits_text 1 2 h /\ digits_text 2 2 mi /\
    (str_upper ap = "AM" \/ str_upper ap = "PM").
Proof.
  unfold pattern. intros H.
  inv_matches.
  all: repeat rewrite ?consumed_two, ?consumed_sep, ?consumed_app; simpl Re.group.
  all: do 6 eexists; repeat (split; [reflexivity|]).
  all: unfold digits_text; repeat (split; [split; [assumption | lia]|]).
  all: unfold str_upper; cbn [string_map];
    repeat match goal with
    | H : Chars.eq_ci ?c _ = true |- _ =>
        first [ apply (eq_ci_letter c) in H; [rewrite H | solve [auto]]
              | clear H ]
    end; auto.
Qed.

Lemma search_pattern_groups (s : string) (m : Re.captures) :
  Re.search pattern s = Some m ->
  exists mon dd yr h mi ap,
    Re.group m "mon" = Some mon /\ Re.group m "day" = Some dd /\
    Re.group m "year" = Some yr /\ Re.group m "h" = Some h /\
    Re.group m "m" = Some mi /\ Re.group m "ampm" = Some ap /\
    digits_text 1 2 mon /\ digits_text 1 2 dd /\ digits_text 4 4 yr /\
    digits_text 1 2 h /\ digits_text 2 2 mi /\
    (str_upper ap = "AM" \/ str_upper ap = "PM").
Proof.
  intros H. apply search_sound in H. destruct H as (s0 & s' & H).
  eapply pattern_groups; eassumption.
Qed.

Lemma py_int_digits (lo hi : nat) (w : string) :
  (1 <= lo)%nat -> digits_text lo hi w -> py_int (Some w) = Ok (int_digits 0 w).
Proof.
  intros Hlo [Hd Hlen]. unfold py_int. rewrite Hd.
  destruct w; simpl in *; [lia | reflexivity].
Qed.

Lemma datetime_new_ok y mo d h mi s us dt :
  datetime_new y mo d h mi s us = Ok dt ->
  dt = mkDatetime y mo d h mi s us /\
  1 <= y <= 9999 /\ 1 <= mo <= 12 /\ 1 <= d <= days_in_month y mo /\
  0 <= h <= 23 /\ 0 <= mi <= 59 /\ 0 <= s <= 59 /\ 0 <= us <= 999999.
Proof.
  unfold datetime_new, in_range. intros H.
  repeat match type of H with
         | (if negb (?a && ?b) then _ else _) = _ =>
             destruct a eqn:?; destruct b eqn:?; simpl in H; try discriminate H
         end.
  injection H as <-. repeat split; lia.
Qed.

(** Every success of [parse_dt_line] comes from a match whose groups are
    digit runs and whose marker reads AM or PM once upper-cased. *)
Lemma parse_dt_line_Some (date_str time_str : string) (dt : datetime) :
  parse_dt_line date_str time_str = Ok (Some dt) ->
  exists m mon dd yr h mi ap,
    Re.search pattern (clean_dt date_str time_str) = Some m /\
    Re.group m "mon" = Some mon /\ Re.group m "day" = Some dd /\
    Re.group m "year" = Some yr /\ Re.group m "h" = Some h /\
    Re.group m "m" = Some mi /\ Re.group m "ampm" = Some ap /\
    digits_text 1 2 h /\
    (str_upper ap = "AM" \/ str_upper ap = "PM") /\
    datetime_new (int_digits 0 yr) (int_digits 0 mon) (int_digits 0 dd)
      (to_24h (int_digits 0 h) (str_upper ap)) (int_digits 0 mi) 0 0 = Ok dt.
Proof.
  unfold parse_dt_line, parse_dt_line_body. fold (clean_dt date_str time_str).
  destruct (Re.search pattern (clean_dt date_str time_str)) as [m|] eqn:Es;
    [|discriminate].
  destruct (search_pattern_groups _ _ Es)
    as (mon & dd & yr & h & mi & ap & Gmon & Gdd & Gyr & Gh & Gmi & Gap &
        Dmon & Ddd & Dyr & Dh & Dmi & Hap).
  rewrite Gmon, Gdd, Gyr, Gh, Gmi, Gap.
  rewrite (py_int_digits 1 2 h), (py_int_digits 1 2 mon), (py_int_digits 1 2 dd),
    (py_int_digits 4 4 yr), (py_int_digits 2 2 mi) by (assumption || lia).
  simpl.
  destruct (datetime_new _ _ _ _ _ 0 0) as [dt'|e] eqn:Edt; simpl; intros H;
    [|discriminate].
  injection H as ->.
  exists m, mon, dd, yr, h, mi, ap. repeat split; try assumption.
  all: apply Dh.
Qed.

(** ** DateTimeParser *)

(** C3. For every pair of fragments [parse_dt_line] returns, without
    raising, either a timestamp or the "no match" value [None]. It returns
    [None] when the pattern does not match, and the same [None] when the
    pattern matches but the digits are refused by the [datetime]
    constructor, as for day 32, month 13 or the fragments
    ("13/45/2024", "25:00 AM"). *)
Theorem parse_dt_line_total_no_match :
  (forall date_str time_str,
      parse_dt_line date_str time_str = Ok None \/
      exists dt, parse_dt_line date_str time_str = Ok (Some dt)) /\
  (forall date_str time_str,
      Re.search pattern (clean_dt date_str time_str) = None ->
      parse_dt_line date_str time_str = Ok None) /\
  (forall date_str time_str m yr mon dd h mi ap e,
      Re.search pattern (clean_dt date_str time_str) = Some m ->
      py_int (Re.group m "year") = Ok yr ->
      py_int (Re.group m "mon") = Ok mon ->
      py_int (Re.group m "day") = Ok dd ->
      py_int (Re.group m "h") = Ok h ->
      py_int (Re.group m "m") = Ok mi ->
      group_upper (Re.group m "ampm") = Ok ap ->
      datetime_new yr mon dd (to_24h h ap) mi 0 0 = Raise e ->
      parse_dt_line date_str time_str = Ok None) /\
  (Re.search pattern (clean_dt "13/45/2024" "25:00 AM") <> None /\
   parse_dt_line "13/45/2024" "25:00 AM" = Ok None) /\
  (Re.search pattern (clean_dt "1/32/2025" "10:00 AM") <> None /\
   parse_dt_line "1/32/2025" "10:00 AM" = Ok None) /\
  (Re.search pattern (clean_dt "13/5/2025" "10:00 AM") <> None /\
   parse_dt_line "13/5/2025" "10:00 AM" = Ok None).
Proof.
  repeat apply conj.
  - intros d t. unfold parse_dt_line, try_except.
    destruct (parse_dt_line_body d t) as [[dt|]|e]; eauto.
  - intros d t H. unfold parse_dt_line, parse_dt_line_body.
    fold (clean_dt d t). rewrite H. reflexivity.
  - intros d t m yr mon dd h mi ap e Hs Hy Hmo Hd Hh Hmi Hap Hdt.
    unfold parse_dt_line, parse_dt_line_body. fold (clean_dt d t).
    rewrite Hs, Hy, Hmo, Hd, Hh, Hmi, Hap. simpl. rewrite Hdt. reflexivity.
  - vm_compute. discriminate.
  - vm_compute. reflexivity.
  - vm_compute. discriminate.
  - vm_compute. reflexivity.
  - vm_compute. discriminate.
  - vm_compute. reflexivity.
Qed.

Lemma parse_dt_line_total_no_match_witness :
  parse_dt_line "2/30/2024" "9:05 pm" = Ok None.
Proof.
  eapply (proj1 (proj2 (proj2 parse_dt_line_total_no_match))
            "2/30/2024" "9:05 pm");
    vm_compute; reflexivity.
Defined.

Lemma to_24h_cases (h : Z) (ampm : string) :
  (ampm = "PM" -> h = 12 -> to_24h h ampm = 12) /\
  (ampm = "PM" -> h <> 12 -> to_24h h ampm = h + 12) /\
  (ampm = "AM" -> h = 12 -> to_24h h ampm = 0) /\
  (ampm = "AM" -> h <> 12 -> to_24h h ampm = h).
Proof.
  unfold to_24h. repeat split; intros -> Hh; simpl;
    destruct (Z.eqb_spec h 12); simpl; congruence.
Qed.

(** C4. Whenever [parse_dt_line] succeeds, the hour of the timestamp is
    obtained from the matched hour [h] and the upper-cased marker, which
    is AM or PM, by: 12 PM gives 12, another hour with PM gives [h + 12],
    12 AM gives 0, another hour with AM gives [h]; the hour of the
    timestamp lies in 0..23. 12:00 AM gives hour 0, 12:30 PM hour 12,
    1:15 PM hour 13 and 11:59 PM hour 23. *)
Theorem parse_dt_line_hour_24h :
  (forall date_str time_str dt,
      parse_dt_line date_str time_str = Ok (Some dt) ->
      exists m h ampm,
        Re.search pattern (clean_dt date_str time_str) = Some m /\
        py_int (Re.group m "h") = Ok h /\
        group_upper (Re.group m "ampm") = Ok ampm /\
        (ampm = "AM" \/ ampm = "PM") /\
        (ampm = "PM" -> h = 12 -> hour dt = 12) /\
        (ampm = "PM" -> h <> 12 -> hour dt = h + 12) /\
        (ampm = "AM" -> h = 12 -> hour dt = 0) /\
        (ampm = "AM" -> h <> 12 -> hour dt = h) /\
        0 <= hour dt <= 23) /\
  (exists dt, parse_dt_line "1/5/2025" "12:00 AM" = Ok (Some dt) /\ hour dt = 0) /\
  (exists dt, parse_dt_line "1/5/2025" "12:30 PM" = Ok (Some dt) /\ hour dt = 12) /\
  (exists dt, parse_dt_line "1/5/2025" "1:15 PM" = Ok (Some dt) /\ hour dt = 13) /\
  (exists dt, parse_dt_line "1/5/2025" "11:59 PM" = Ok (Some dt) /\ hour dt = 23).
Proof.
  split.
  - intros d t dt H.
    destruct (parse_dt_line_Some _ _ _ H)
      as (m & mon & dd & yr & h & mi & ap & Hs & _ & _ & _ & Gh & _ & Gap &
          Dh & Hap & Hdt).
    apply datetime_new_ok in Hdt. destruct Hdt as (-> & _ & _ & _ & Hh & _).
    exists m, (int_digits 0 h), (str_upper ap).
    rewrite Gh, Gap, (py_int_digits 1 2 h) by (assumption || lia).
    cbn [hour group_upper].
    destruct (to_24h_cases (int_digits 0 h) (str_upper ap)) as (C1 & C2 & C3 & C4).
    repeat split; auto; tauto.
  - repeat split; eexists; (split; [vm_compute; reflexivity | reflexivity]).
Qed.

Lemma parse_dt_line_hour_24h_witness :
  exists m h ampm,
    Re.search pattern (clean_dt "3/9/2025" "7:45 pm") = Some m /\
    py_int (Re.group m "h") = Ok h /\
    group_upper (Re.group m "ampm") = Ok ampm /\
    (ampm = "AM" \/ ampm = "PM") /\
    (ampm = "PM" -> h = 12 -> hour (mkDatetime 2025 3 9 19 45 0 0) = 12) /\
    (ampm = "PM" -> h <> 12 -> hour (mkDatetime 2025 3 9 19 45 0 0) = h + 12) /\
    (ampm = "AM" -> h = 12 -> hour (mkDatetime 2025 3 9 19 45 0 0) = 0) /\
    (ampm = "AM" -> h <> 12 -> hour (mkDatetime 2025 3 9 19 45 0 0) = h) /\
    0 <= hour (mkDatetime 2025 3 9 19 45 0 0) <= 23.
Proof.
  apply (proj1 parse_dt_line_hour_24h "3/9/2025" "7:45 pm").
  vm_compute. reflexivity.
Defined.

(** C10. Whenever [parse_dt_line] succeeds, the seconds of the timestamp
    are 0. This holds also when the optional group [s] took part in the
    match: for "10:00:45 AM" the group holds "45" and the timestamp has
    second 0. *)
Theorem parse_dt_line_second_zero :
  (forall date_str time_str dt,
      parse_dt_line date_str time_str = Ok (Some dt) -> second dt = 0) /\
  (exists m,
      Re.search pattern (clean_dt "1/5/2025" "10:00:45 AM") = Some m /\
      Re.group m "s" = Some "45" /\
      parse_dt_line "1/5/2025" "10:00:45 AM"
      = Ok (Some (mkDatetime 2025 1 5 10 0 0 0))).
Proof.
  split.
  - intros d t dt H.
    destruct (parse_dt_line_Some _ _ _ H)
      as (m & mon & dd & yr & h & mi & ap & _ & _ & _ & _ & _ & _ & _ &
          _ & _ & Hdt).
    apply datetime_new_ok in Hdt. destruct Hdt as (-> & _). reflexivity.
  - eexists. split; [vm_compute; reflexivity|].
    split; vm_compute; reflexivity.
Qed.

Lemma parse_dt_line_second_zero_witness :
  second (mkDatetime 2025 1 5 22 30 0 0) = 0.
Proof.
  apply (proj1 parse_dt_line_second_zero "1/5/2025" "10:30:59 PM").
  vm_compute. reflexivity.
Defined.

(** ** Event identity *)

(** C1. Two events with the same start time and titles that are equal
    once lower-cased have the same uid, whatever their locations: the uid
    is computed from the start time and the lower-cased title alone. *)
Theorem uid_ignores_location_and_case :
  forall e1 e2 : Event,
    dt_start e1 = dt_start e2 ->
    str_lower (title e1) = str_lower (title e2) ->
    uid e1 = uid e2.
Proof.
  intros e1 e2 Hdt Ht. unfold uid, uid_key. now rewrite Hdt, Ht.
Qed.

Lemma uid_ignores_location_and_case_witness :
  uid (mkEvent (mkDatetime 2025 1 5 10 0 0 0) "Budget Session" "Room 2C")
  = uid (mkEvent (mkDatetime 2025 1 5 10 0 0 0) "BUDGET session" "Senate Chamber").
Proof.
  apply uid_ignores_location_and_case; reflexivity.
Defined.

(** ** Dictionaries keep one item per key, the last assigned *)

Section DictFacts.
Context {V : Type}.

Lemma dict_get_set (d : dict V) (k k' : string) (v : V) :
  dict_get (dict_set d k v) k' =
  if String.eqb k k' then Some v else dict_get d k'.
Proof.
  induction d as [|[k0 v0] d IH]; simpl.
  - reflexivity.
  - destruct (String.eqb_spec k0 k) as [->|Hne]; simpl.
    + destruct (String.eqb_spec k k'); reflexivity.
    + rewrite IH. destruct (String.eqb_spec k0 k') as [->|Hne'].
      * destruct (String.eqb_spec k k'); congruence.
      * reflexivity.
Qed.

Lemma dict_keys_set (d : dict V) (k : string) (v : V) :
  dict_keys (dict_set d k v) = dict_keys d \/
  (~ In k (dict_keys d) /\ dict_keys (dict_set d k v) = dict_keys d ++ [k]).
Proof.
  induction d as [|[k0 v0] d IH]; simpl.
  - right. auto.
  - destruct (String.eqb_spec k0 k) as [->|Hne]; simpl.
    + left. reflexivity.
    + destruct IH as [IH | [Hnin IH]]; rewrite IH.
      * left. reflexivity.
      * right. split; [intros [?|?]; congruence | reflexivity].
Qed.

Lemma dict_set_NoDup (d : dict V) (k : string) (v : V) :
  NoDup (dict_keys d) -> NoDup (dict_keys (dict_set d k v)).
Proof.
  intros Hd. destruct (dict_keys_set d k v) as [-> | [Hnin ->]]; auto.
  apply NoDup_app; auto.
  - repeat constructor. simpl. tauto.
  - intros x Hx [<- | []]. contradiction.
Qed.

Lemma dict_get_In (d : dict V) (k : string) (v : V) :
  dict_get d k = Some v -> In (k, v) d.
Proof.
  induction d as [|[k0 v0] d IH]; simpl; [discriminate|].
  destruct (String.eqb_spec k0 k) as [->|Hne]; intros H.
  - injection H as ->. auto.
  - auto.
Qed.

Lemma dict_In_get (d : dict V) (k : string) (v : V) :
  NoDup (dict_keys d) -> In (k, v) d -> dict_get d k = Some v.
Proof.
  induction d as [|[k0 v0] d IH]; simpl; [tauto|].
  intros Hnd [H | H].
  - injection H as -> ->. now rewrite String.eqb_refl.
  - inversion Hnd as [|? ? Hnin Hnd']; subst.
    destruct (String.eqb_spec k0 k) as [->|Hne].
    + exfalso. apply Hnin. change k with (fst (k, v)). now apply in_map.
    + auto.
Qed.

Lemma find_app_first (p : V -> bool) (l1 l2 : list V) :
  find p (l1 ++ l2) =
  match find p l1 with Some x => Some x | None => find p l2 end.
Proof.
  induction l1 as [|a l1 IH]; simpl; [reflexivity|].
  destruct (p a); [reflexivity | exact IH].
Qed.

Lemma find_rev_last (p : V -> bool) (xs : list V) (x : V) :
  find p (rev xs) = Some x <->
  exists before after,
    xs = before ++ x :: after /\ p x = true /\
    forall y, In y after -> p y = false.
Proof.
  induction xs as [|a xs IH] using rev_ind.
  - simpl. split; [discriminate|].
    intros (b & c & H & _). destruct b; discriminate.
  - rewrite rev_app_distr. simpl. destruct (p a) eqn:Ea.
    + split.
      * intros H. injection H as ->. exists xs, []. simpl. tauto.
      * intros (b & c & H & Hx & Hc).
        destruct c as [|c0 c] using rev_ind.
        -- apply app_inj_tail in H. destruct H as [_ ->]. reflexivity.
        -- clear IHc. rewrite app_comm_cons, app_assoc in H.
           apply app_inj_tail in H. destruct H as [_ ->].
           rewrite Hc in Ea; [discriminate | apply in_or_app; simpl; auto].
    + rewrite IH. split.
      * intros (b & c & -> & Hx & Hc). exists b, (c ++ [a]).
        rewrite <- app_assoc. simpl. repeat split; auto.
        intros y Hy. apply in_app_or in Hy. destruct Hy as [Hy | [<- | []]]; auto.
      * intros (b & c & H & Hx & Hc).
        destruct c as [|c0 c] using rev_ind.
        -- apply app_inj_tail in H. destruct H as [_ ->]. congruence.
        -- clear IHc. rewrite app_comm_cons, app_assoc in H.
           apply app_inj_tail in H. destruct H as [-> ->].
           exists b, c. repeat split; auto.
           intros y Hy. apply Hc. apply in_or_app. auto.
Qed.

Variable key : V -> string.

Lemma dict_set_keyed (d : dict V) (v : V) :
  keyed key d -> keyed key (dict_set d (key v) v).
Proof.
  unfold keyed. induction d as [|[k0 v0] d IH]; simpl; intros Hd k x.
  - intros [H | []]. now injection H as <- <-.
  - destruct (String.eqb_spec k0 (key v)) as [->|Hne]; simpl.
    + intros [H | H]; [now injection H as <- <- | auto].
    + intros [H | H]; [auto|]. apply IH; auto.
Qed.

Lemma dict_fold_inv (xs : list V) (d : dict V) :
  NoDup (dict_keys d) -> keyed key d ->
  let d' := fold_left (fun d x => dict_set d (key x) x) xs d in
  NoDup (dict_keys d') /\ keyed key d'.
Proof.
  revert d. induction xs as [|x xs IH]; simpl; intros d Hnd Hk; [auto|].
  apply IH; [now apply dict_set_NoDup | now apply dict_set_keyed].
Qed.

(** Looking a key up after the assignments of [xs]: the last item of
    [xs] with that key, or what was there before. *)
Lemma dict_fold_get (xs : list V) (d : dict V) (k : string) :
  dict_get (fold_left (fun d x => dict_set d (key x) x) xs d) k =
  match find (fun x => String.eqb (key x) k) (rev xs) with
  | Some x => Some x
  | None => dict_get d k
  end.
Proof.
  revert d. induction xs as [|x xs IH]; simpl; intros d; [reflexivity|].
  rewrite IH, find_app_first.
  destruct (find _ (rev xs)); [reflexivity|]. simpl.
  rewrite dict_get_set. destruct (String.eqb (key x) k); reflexivity.
Qed.

(** The values of [{key(x): x for x in xs}] are the items of [xs] that
    are the last with their key, each once. *)
Lemma dict_by_values (xs : list V) :
  NoDup (map key (dict_values (dict_by key xs))) /\
  forall x, In x (dict_values (dict_by key xs)) <->
            exists before after,
              xs = before ++ x :: after /\
              forall y, In y after -> key y <> key x.
Proof.
  unfold dict_by.
  destruct (dict_fold_inv xs []) as [Hnd Hk]; [constructor | intros ? ? [] |].
  cbv zeta in Hnd, Hk.
  set (d := fold_left (fun d x => dict_set d (key x) x) xs []) in *.
  assert (Hkeys : map key (dict_values d) = dict_keys d).
  { unfold dict_values, dict_keys. rewrite map_map.
    apply map_ext_in. intros [k v] Hin. simpl. symmetry. now apply Hk. }
  split; [now rewrite Hkeys|].
  intros x.
  assert (Hget : In x (dict_values d) <-> dict_get d (key x) = Some x).
  { split.
    - intros Hin. apply in_map_iff in Hin. destruct Hin as ([k v] & <- & Hin).
      simpl. apply dict_In_get; auto. now rewrite <- (Hk _ _ Hin).
    - intros H. apply dict_get_In in H. change x with (snd (key x, x)).
      now apply in_map. }
  rewrite Hget. unfold d. rewrite dict_fold_get. simpl.
  destruct (find (fun y => String.eqb (key y) (key x)) (rev xs)) as [y|] eqn:Ef.
  - split.
    + intros H. injection H as ->. apply find_rev_last in Ef.
      destruct Ef as (b & c & -> & _ & Hc). exists b, c. split; auto.
      intros y Hy. specialize (Hc y Hy).
      now destruct (String.eqb_spec (key y) (key x)).
    + intros (b & c & Hx & Hc). f_equal.
      assert (H : find (fun y => String.eqb (key y) (key x)) (rev xs) = Some x).
      { apply find_rev_last. exists b, c. repeat split; auto.
        - apply String.eqb_refl.
        - intros z Hz. specialize (Hc z Hz).
          now destruct (String.eqb_spec (key z) (key x)). }
      congruence.
  - split; [discriminate|].
    intros (b & c & Hx & Hc). exfalso.
    assert (H : find (fun y => String.eqb (key y) (key x)) (rev xs) = Some x).
    { apply find_rev_last. exists b, c. repeat split; auto.
      - apply String.eqb_refl.
      - intros z Hz. specialize (Hc z Hz).
        now destruct (String.eqb_spec (key z) (key x)). }
    congruence.
Qed.

End DictFacts.

(** ** Sorting *)

Section SortFacts.
Context {V : Type}.
Variable ltb : V -> V -> bool.

Hypothesis ltb_asym : forall a b, ltb a b = true -> ltb b a = false.
Hypothesis le_trans :
  forall a b c, ltb b a = false -> ltb c b = false -> ltb c a = false.

Lemma insert_sorted_perm (x : V) (l : list V) :
  Permutation (insert_sorted ltb x l) (x :: l).
Proof.
  induction l as [|y l IH]; simpl; [reflexivity|].
  destruct (ltb y x); [|reflexivity].
  rewrite IH. apply perm_swap.
Qed.

Lemma sorted_perm (l : list V) : Permutation (sorted ltb l) l.
Proof.
  induction l as [|x l IH]; simpl; [reflexivity|].
  rewrite insert_sorted_perm. now apply perm_skip.
Qed.

Lemma insert_sorted_strongly (x : V) (l : list V) :
  StronglySorted (fun a b => ltb b a = false) l ->
  StronglySorted (fun a b => ltb b a = false) (insert_sorted ltb x l).
Proof.
  induction 1 as [|y l Hl IH Hy]; simpl.
  - repeat constructor.
  - destruct (ltb y x) eqn:E.
    + constructor; [exact IH|].
      eapply Permutation_Forall.
      * symmetry. apply insert_sorted_perm.
      * constructor; [now apply ltb_asym | exact Hy].
    + constructor; [now constructor|].
      constructor; [exact E|].
      eapply Forall_impl; [|exact Hy]. intros z Hz.
      apply (le_trans x y z); assumption.
Qed.

Lemma sorted_strongly (l : list V) :
  StronglySorted (fun a b => ltb b a = false) (sorted ltb l).
Proof.
  induction l as [|x l IH]; simpl; [constructor|].
  now apply insert_sorted_strongly.
Qed.

End SortFacts.

Lemma lex_ltb_asym (a : list Z) :
  forall b, lex_ltb a b = true -> lex_ltb b a = false.
Proof.
  induction a as [|x a IH]; intros [|y b]; simpl; try reflexivity; try discriminate.
  destruct (Z.ltb_spec x y), (Z.ltb_spec y x), (Z.eqb_spec x y), (Z.eqb_spec y x);
    simpl; try lia; try discriminate; auto.
Qed.

Lemma lex_ltb_le_trans (a : list Z) :
  forall b c, lex_ltb b a = false -> lex_ltb c b = false -> lex_ltb c a = false.
Proof.
  induction a as [|x a IH]; intros [|y b] [|z c]; simpl;
    try reflexivity; try discriminate.
  destruct (Z.ltb_spec y x), (Z.ltb_spec z y), (Z.ltb_spec z x),
    (Z.eqb_spec y x), (Z.eqb_spec z y), (Z.eqb_spec z x);
    simpl; try lia; try discriminate; eauto.
Qed.

Lemma event_ltb_asym (a b : Event) : event_ltb a b = true -> event_ltb b a = false.
Proof. apply lex_ltb_asym. Qed.

Lemma starts_no_later_trans (a b c : Event) :
  starts_no_later a b -> starts_no_later b c -> starts_no_later a c.
Proof. unfold starts_no_later, event_ltb, dt_ltb. apply lex_ltb_le_trans. Qed.

(** ** Deduplicating by a key, then sorting *)

Section DedupSort.
Context {V : Type}.
Variable key : V -> string.
Variable ltb : V -> V -> bool.
Hypothesis ltb_asym : forall a b, ltb a b = true -> ltb b a = false.
Hypothesis le_trans :
  forall a b c, ltb b a = false -> ltb c b = false -> ltb c a = false.

Lemma key_has_last (l : list V) (x : V) :
  In x l -> exists y, key y = key x /\ last_of_its_key key l y.
Proof.
  intros Hx.
  destruct (find (fun y => String.eqb (key y) (key x)) (rev l)) as [y|] eqn:Ef.
  - apply find_rev_last in Ef. destruct Ef as (b & c & Hl & Hy & Hc).
    apply String.eqb_eq in Hy.
    exists y. split; [exact Hy|]. exists b, c. split; [exact Hl|].
    intros z Hz. specialize (Hc z Hz). cbv beta in Hc. rewrite Hy.
    apply String.eqb_neq. exact Hc.
  - exfalso. apply in_rev in Hx.
    pose proof (find_none _ _ Ef x Hx) as H. cbv beta in H.
    rewrite String.eqb_refl in H. discriminate.
Qed.

Lemma dedup_sorted (l : list V) :
  let final := sorted ltb (dict_values (dict_by key l)) in
  NoDup (map key final) /\
  (forall u, In u (map key final) <-> In u (map key l)) /\
  (forall x, In x final <-> last_of_its_key key l x) /\
  StronglySorted (fun a b => ltb b a = false) final.
Proof.
  intros final.
  destruct (dict_by_values key l) as [Hnd Hlast].
  assert (Hperm : Permutation final (dict_values (dict_by key l)))
    by apply sorted_perm.
  assert (Hin : forall x, In x final <-> last_of_its_key key l x).
  { intros x. split.
    - intros H. apply Hlast. eapply Permutation_in; [exact Hperm | exact H].
    - intros H. apply Hlast in H.
      eapply Permutation_in; [symmetry; exact Hperm | exact H]. }
  split; [|split; [|split]].
  - eapply Permutation_NoDup; [|exact Hnd].
    apply Permutation_map. symmetry. exact Hperm.
  - intros u. split.
    + intros H. apply in_map_iff in H. destruct H as (x & Hu & Hx).
      apply Hin in Hx. destruct Hx as (b & c & Hl & _).
      apply in_map_iff. exists x. split; [exact Hu|].
      rewrite Hl. apply in_or_app. right. left. reflexivity.
    + intros H. apply in_map_iff in H. destruct H as (x & Hu & Hx).
      destruct (key_has_last l x Hx) as (y & Hy & Hlasty).
      apply in_map_iff. exists y. split; [congruence|].
      apply Hin. exact Hlasty.
  - exact Hin.
  - apply sorted_strongly; assumption.
Qed.

End DedupSort.

(** ** EventPipeline: the final list *)

(** C2. For every accumulated list, the final list (the values of the
    dictionary keyed by uid, sorted by start time) holds no two events with
    the same uid, holds an event for every uid of the accumulated list and
    no other, holds exactly the events that are the last of their uid in
    the accumulated list, and is in ascending order of start time. *)
Theorem final_events_dedup_sorted :
  forall all_events : list Event,
    NoDup (map uid (final_events all_events)) /\
    (forall u, In u (map uid (final_events all_events)) <->
               In u (map uid all_events)) /\
    (forall e, In e (final_events all_events) <->
               last_of_its_uid all_events e) /\
    StronglySorted starts_no_later (final_events all_events).
Proof.
  intros l.
  exact (dedup_sorted uid event_ltb event_ltb_asym
           (fun a b c => starts_no_later_trans a b c) l).
Qed.

(** ** RowExtractor: short titles *)

(** C6. When the first candidate, which is the title selected at first,
    is shorter than 3 characters and there is more than one candidate,
    the title becomes the second candidate and the location the third
    candidate, or the empty text when there is none. The step is not
    repeated: a second candidate that is itself shorter than 3 characters
    is kept as the title. *)
Theorem short_title_correction_once :
  (forall first second rest,
      (String.length first < 3)%nat ->
      choose_title_location (first :: second :: rest)
      = (second, match rest with third :: _ => third | [] => "" end)) /\
  choose_title_location ["HB"; "X"; "Room 1"; "Budget Session"] = ("X", "Room 1") /\
  choose_title_location
    (potential_titles
       ["1/5/2025"; "10:00 AM"; "HB"; "Budget Session"; "Senate Chamber"])
  = ("Budget Session", "Senate Chamber").
Proof.
  split; [|split; vm_compute; reflexivity].
  intros first second rest Hlen. unfold choose_title_location.
  apply Nat.ltb_lt in Hlen. rewrite Hlen.
  destruct rest as [|third rest]; reflexivity.
Qed.

Lemma short_title_correction_once_witness :
  choose_title_location ["SB"; "Finance Committee"]
  = ("Finance Committee", "").
Proof.
  apply (proj1 short_title_correction_once "SB" "Finance Committee" []).
  simpl. lia.
Defined.

(** ** Lines of a text *)

Lemma string_app_assoc (a b c : string) :
  ((a ++ b) ++ c)%string = (a ++ b ++ c)%string.
Proof. induction a as [|x a IH]; simpl; [reflexivity | now rewrite IH]. Qed.

Lemma forallb_app (p : ascii -> bool) (a b : string) :
  string_forallb p (a ++ b) = string_forallb p a && string_forallb p b.
Proof.
  induction a as [|x a IH]; simpl; [reflexivity|].
  now rewrite IH, andb_assoc.
Qed.

Lemma no_newline_app (a b : string) :
  no_newline (a ++ b) = no_newline a && no_newline b.
Proof. apply forallb_app. Qed.

Lemma split_crlf_line (l rest : string) :
  no_newline l = true ->
  split_crlf (l ++ CRLF ++ rest) = l :: split_crlf rest.
Proof.
  induction l as [|c l IH]; intros Hl.
  - reflexivity.
  - simpl in Hl. apply andb_prop in Hl. destruct Hl as [Hc Hl].
    apply andb_prop in Hc. destruct Hc as [Hcr _].
    apply negb_true_iff in Hcr.
    specialize (IH Hl).
    change ((String c l ++ CRLF ++ rest)%string)
      with (String c (l ++ CRLF ++ rest)).
    remember ((l ++ CRLF ++ rest)%string) as t eqn:Et.
    cbn [split_crlf]. fold split_crlf.
    rewrite IH, Hcr. simpl.
    destruct t; reflexivity.
Qed.

Lemma split_crlf_terminated (lines : list string) :
  Forall (fun l => no_newline l = true) lines ->
  split_crlf (terminated lines) = lines ++ [EmptyString].
Proof.
  induction 1 as [|l lines Hl _ IH]; [reflexivity|].
  change (terminated (l :: lines)) with (l ++ CRLF ++ terminated lines)%string.
  rewrite split_crlf_line by assumption. rewrite IH. reflexivity.
Qed.

Lemma join_terminated (l : string) (lines : list string) :
  (join CRLF (l :: lines) ++ CRLF)%string = terminated (l :: lines).
Proof.
  revert l. induction lines as [|l' lines IH]; intros l.
  - reflexivity.
  - change (join CRLF (l :: l' :: lines))
      with (l ++ CRLF ++ join CRLF (l' :: lines))%string.
    rewrite !string_app_assoc, IH. reflexivity.
Qed.

Lemma count_line_app (line : string) (a b : list string) :
  count_line line (a ++ b) = (count_line line a + count_line line b)%nat.
Proof. unfold count_line. now rewrite filter_app, length_app. Qed.

(** ** The pieces of an event block hold no line break *)

Lemma digit_char_plain (d : Z) :
  negb (Ascii.eqb (digit_char d) CR) && negb (Ascii.eqb (digit_char d) LF) = true.
Proof.
  unfold digit_char.
  assert (H : 0 <= d mod 10 < 10) by (apply Z.mod_pos_bound; lia).
  assert (C : d mod 10 = 0 \/ d mod 10 = 1 \/ d mod 10 = 2 \/ d mod 10 = 3 \/
              d mod 10 = 4 \/ d mod 10 = 5 \/ d mod 10 = 6 \/ d mod 10 = 7 \/
              d mod 10 = 8 \/ d mod 10 = 9) by lia.
  repeat (destruct C as [-> | C]; [reflexivity|]). rewrite C. reflexivity.
Qed.

Lemma no_newline_single (c : ascii) :
  negb (Ascii.eqb c CR) && negb (Ascii.eqb c LF) = true ->
  no_newline (String c EmptyString) = true.
Proof. intros H. unfold no_newline. cbn [string_forallb]. now rewrite H. Qed.

Lemma pad_digits_plain (width : nat) :
  forall n, no_newline (pad_digits width n) = true.
Proof.
  induction width as [|w IH]; intros n; [reflexivity|].
  cbn [pad_digits]. rewrite no_newline_app, IH.
  apply no_newline_single, digit_char_plain.
Qed.

Lemma hex_char_plain (d : Z) :
  0 <= d < 16 ->
  negb (Ascii.eqb (Sha1.hex_char d) CR) && negb (Ascii.eqb (Sha1.hex_char d) LF)
  = true.
Proof.
  intros H.
  assert (C : d = 0 \/ d = 1 \/ d = 2 \/ d = 3 \/ d = 4 \/ d = 5 \/ d = 6 \/
              d = 7 \/ d = 8 \/ d = 9 \/ d = 10 \/ d = 11 \/ d = 12 \/
              d = 13 \/ d = 14 \/ d = 15) by lia.
  repeat (destruct C as [-> | C]; [reflexivity|]). rewrite C. reflexivity.
Qed.

Lemma hex_plain (width : nat) : forall n, no_newline (Sha1.hex width n) = true.
Proof.
  induction width as [|w IH]; intros n; [reflexivity|].
  cbn [Sha1.hex]. rewrite no_newline_app, IH.
  apply no_newline_single, hex_char_plain. apply Z.mod_pos_bound. lia.
Qed.

Lemma hexdigest_plain (msg : list Z) : no_newline (Sha1.hexdigest msg) = true.
Proof.
  unfold Sha1.hexdigest.
  destruct (Sha1.digest msg) as [[[[h0 h1] h2] h3] h4].
  now rewrite !no_newline_app, !hex_plain.
Qed.

Lemma uid_plain (e : Event) : no_newline (uid e) = true.
Proof.
  unfold uid. cbv zeta.
  rewrite !no_newline_app, hexdigest_plain. reflexivity.
Qed.

Lemma nat_digits_plain (fuel : nat) :
  forall n, no_newline (nat_digits fuel n) = true.
Proof.
  induction fuel as [|f IH]; intros n; [reflexivity|].
  cbn [nat_digits]. destruct (n <? 10)%Z.
  - apply no_newline_single, digit_char_plain.
  - rewrite no_newline_app, IH. apply no_newline_single, digit_char_plain.
Qed.

(** From the year 1000 on, [%Y] writes the four digits that [isoformat]
    writes. *)
Lemma str_of_Z_four_digits (y : Z) :
  (1000 <= y <= 9999)%Z -> str_of_Z y = fmt04 y.
Proof.
  intros Hy. unfold str_of_Z, fmt04.
  assert (Hl : (9 <= Z.log2 y)%Z) by (apply Z.log2_le_pow2; simpl; lia).
  remember (Z.to_nat (Z.log2 y)) as n eqn:En.
  assert (Hn : (4 <= n)%nat) by lia.
  destruct n as [|[|[|[|n]]]]; try lia.
  cbn [nat_digits pad_digits].
  assert (H1 : (y <? 10)%Z = false) by (apply Z.ltb_ge; lia).
  assert (H2 : (y / 10 <? 10)%Z = false)
    by (apply Z.ltb_ge; apply Z.div_le_lower_bound; lia).
  assert (H3 : (y / 10 / 10 <? 10)%Z = false).
  { apply Z.ltb_ge. rewrite Z.div_div by lia.
    apply Z.div_le_lower_bound; lia. }
  assert (H4 : (y / 10 / 10 / 10 <? 10)%Z = true).
  { apply Z.ltb_lt. rewrite !Z.div_div by lia.
    apply Z.div_lt_upper_bound; lia. }
  rewrite H1, H2, H3, H4. reflexivity.
Qed.

Lemma strftime_compact_plain (dt : datetime) :
  no_newline (strftime_compact dt) = true.
Proof.
  unfold strftime_compact, fmt02, str_of_Z.
  now rewrite !no_newline_app, !pad_digits_plain, nat_digits_plain.
Qed.

Lemma escape_commas_plain (s : string) :
  no_newline s = true -> no_newline (escape_commas s) = true.
Proof.
  unfold escape_commas.
  induction s as [|c s IH]; [reflexivity|].
  intros H.
  change (no_newline (String c s))
    with (negb (Ascii.eqb c CR) && negb (Ascii.eqb c LF) && no_newline s) in H.
  apply andb_prop in H. destruct H as [Hc Hs].
  cbn [replace_char]. destruct (Ascii.eqb c ",").
  - rewrite no_newline_app, (IH Hs). reflexivity.
  - change (no_newline (String c ?x))
      with (negb (Ascii.eqb c CR) && negb (Ascii.eqb c LF)
            && no_newline (replace_char "," "\," s)).
    now rewrite Hc, (IH Hs).
Qed.

Lemma vevent_lines_plain (now : string) (e : Event) :
  no_newline now = true -> single_line e ->
  Forall (fun l => no_newline l = true) (vevent_lines now e).
Proof.
  intros Hnow [Ht Hl]. unfold vevent_lines.
  repeat constructor.
  - rewrite no_newline_app. now rewrite uid_plain.
  - rewrite no_newline_app. now rewrite Hnow.
  - rewrite !no_newline_app. now rewrite strftime_compact_plain.
  - rewrite no_newline_app. now rewrite escape_commas_plain.
  - rewrite no_newline_app. now rewrite escape_commas_plain.
Qed.

Lemma ics_lines_plain (now : string) (events : list Event) :
  no_newline now = true -> Forall single_line events ->
  Forall (fun l => no_newline l = true) (ics_lines now events).
Proof.
  intros Hnow Hev. unfold ics_lines.
  apply Forall_app. split; [repeat constructor|].
  apply Forall_app. split; [|repeat constructor].
  induction Hev as [|e events He _ IH]; [constructor|].
  cbn [flat_map].
  apply Forall_app. split; [now apply vevent_lines_plain | exact IH].
Qed.

Lemma vevent_lines_count (now : string) (e : Event) :
  count_line "BEGIN:VEVENT" (vevent_lines now e) = 1%nat /\
  count_line "END:VEVENT" (vevent_lines now e) = 1%nat.
Proof. split; reflexivity. Qed.

Lemma ics_lines_count (now : string) (events : list Event) :
  count_line "BEGIN:VEVENT" (ics_lines now events) = List.length events /\
  count_line "END:VEVENT" (ics_lines now events) = List.length events.
Proof.
  unfold ics_lines. rewrite !count_line_app.
  assert (H : count_line "BEGIN:VEVENT" (flat_map (vevent_lines now) events)
              = List.length events /\
              count_line "END:VEVENT" (flat_map (vevent_lines now) events)
              = List.length events).
  { induction events as [|e events [IHb IHe]]; [split; reflexivity|].
    cbn [flat_map List.length]. rewrite !count_line_app, IHb, IHe.
    destruct (vevent_lines_count now e) as [-> ->]. split; reflexivity. }
  destruct H as [-> ->].
  split; change (count_line _ [_; _; _; _]) with 0%nat;
    change (count_line _ [_]) with 0%nat; lia.
Qed.

(** ** CalendarSerializer *)

Lemma build_ics_terminated (utcnow : datetime) (events : list Event) :
  build_ics utcnow events
  = terminated (ics_lines (strftime_compact utcnow ++ "Z") events).
Proof.
  unfold build_ics. cbv zeta. unfold ics_lines. cbn [app].
  apply join_terminated.
Qed.

Lemma utcnow_text_plain (utcnow : datetime) :
  no_newline (strftime_compact utcnow ++ "Z") = true.
Proof. rewrite no_newline_app, strftime_compact_plain. reflexivity. Qed.

(** The lines are joined as they are: a line break inside a title is
    written out with the title. [RowExtractor] builds no such title, its
    titles being white space normalised; on one built by hand, the text
    cut at the terminators has one piece more that reads BEGIN:VEVENT. *)
Example build_ics_line_break_in_title :
  let e := mkEvent (mkDatetime 2025 1 5 10 0 0 0)
                   ("Hearing" ++ CRLF ++ "BEGIN:VEVENT") "" in
  no_newline (title e) = false /\
  count_line "BEGIN:VEVENT"
    (split_crlf (build_ics (mkDatetime 2025 1 1 8 0 0 0) [e])) = 2%nat.
Proof. vm_compute. split; reflexivity. Qed.

(** ** Runs: what a computation leaves alone *)

Section Frame.
Variable R : World -> World -> Prop.
Hypothesis R_refl : forall w, R w w.
Hypothesis R_trans : forall a b c, R a b -> R b c -> R a c.

Lemma respects_ret {A : Type} (a : A) : respects R (ret a).
Proof. intros w. apply R_refl. Qed.

Lemma respects_lift {A : Type} (r : result A) : respects R (lift r).
Proof. intros w. apply R_refl. Qed.

Lemma respects_bind {A B : Type} (c : M A) (k : A -> M B) :
  respects R c -> (forall a, respects R (k a)) -> respects R (bind c k).
Proof.
  intros Hc Hk w. unfold bind. specialize (Hc w).
  destruct (c w) as [[a|e] w1]; simpl in *.
  - eapply R_trans; [exact Hc | apply Hk].
  - exact Hc.
Qed.

Lemma respects_try_catch {A : Type} (c : M A) (h : exn -> M A) :
  respects R c -> (forall e, respects R (h e)) -> respects R (try_catch c h).
Proof.
  intros Hc Hh w. unfold try_catch. specialize (Hc w).
  destruct (c w) as [[a|e] w1]; simpl in *.
  - exact Hc.
  - eapply R_trans; [exact Hc | apply Hh].
Qed.

Variable BeautifulSoup : string -> Soup.
Variable server : nat -> request -> result string.
Variable today : date.

Hypothesis R_print : forall line, respects R (print line).
Hypothesis R_sleep : forall q, respects R (sleep q).
Hypothesis R_fetch :
  forall d, respects R (fetch_events_for_day BeautifulSoup server d).

Lemma respects_parse_row cols events : respects R (parse_row cols events).
Proof.
  unfold parse_row. destruct (List.length cols <? 4)%nat.
  - apply respects_ret.
  - apply respects_bind; [apply respects_lift|].
    intros [dt|]; [|apply respects_ret].
    destruct (choose_title_location (potential_titles cols)) as [t l].
    apply respects_bind; [apply R_print | intros _; apply respects_ret].
Qed.

Lemma respects_parse_rows rows :
  forall events, respects R (parse_rows rows events).
Proof.
  induction rows as [|cols rows IH]; intros events; simpl.
  - apply respects_ret.
  - apply respects_bind; [apply respects_parse_row | intros a; apply IH].
Qed.

Lemma respects_day_body current all_events :
  respects R (day_body BeautifulSoup server current all_events).
Proof.
  unfold day_body.
  apply respects_bind; [apply R_fetch | intros html].
  apply respects_bind; [apply respects_parse_rows | intros day_events].
  apply respects_bind; [apply R_sleep | intros _; apply respects_ret].
Qed.

Lemma respects_day_step i all_events :
  respects R (day_step BeautifulSoup server today i all_events).
Proof.
  unfold day_step.
  apply respects_bind; [apply respects_lift | intros current].
  apply respects_try_catch; [apply respects_day_body | intros e].
  apply respects_bind; [apply R_print | intros _; apply respects_ret].
Qed.

Lemma respects_for_days days :
  forall all_events,
    respects R (for_days BeautifulSoup server today days all_events).
Proof.
  induction days as [|i days IH]; intros all_events; simpl.
  - apply respects_ret.
  - apply respects_bind; [apply respects_day_step | intros a; apply IH].
Qed.

End Frame.

Lemma filter_snoc {A : Type} (P : A -> bool) (l : list A) (x : A) :
  filter P (l ++ [x]) = filter P l ++ (if P x then [x] else []).
Proof. rewrite filter_app. reflexivity. Qed.

Lemma unchanged_refl P w : unchanged P w w.
Proof. reflexivity. Qed.

Lemma unchanged_trans P a b c :
  unchanged P a b -> unchanged P b c -> unchanged P a c.
Proof. unfold unchanged. congruence. Qed.

Lemma unchanged_emit P e : P e = false -> respects (unchanged P) (emit e).
Proof.
  intros H w. unfold unchanged, emit. simpl.
  rewrite filter_snoc, H. apply app_nil_r.
Qed.

Lemma same_file_refl w : same_file w w.
Proof. reflexivity. Qed.

Lemma same_file_trans a b c : same_file a b -> same_file b c -> same_file a c.
Proof. unfold same_file. congruence. Qed.

Lemma tokens_kept_refl w : tokens_kept w w.
Proof. intros t H. split; [exact H | reflexivity]. Qed.

Lemma tokens_kept_trans a b c :
  tokens_kept a b -> tokens_kept b c -> tokens_kept a c.
Proof.
  intros Hab Hbc t Ha. destruct (Hab t Ha) as [Hb Gb].
  destruct (Hbc t Hb) as [Hc Gc]. split; [exact Hc|].
  eapply unchanged_trans; eassumption.
Qed.

Lemma tokens_kept_emit e : is_get e = false -> respects tokens_kept (emit e).
Proof.
  intros H w t Ht. split; [exact Ht | now apply unchanged_emit].
Qed.

(** ** SessionFetcher: the three ways a fetch can go *)

Section FetchFacts.
Variable BeautifulSoup : string -> Soup.
Variable server : nat -> request -> result string.

Lemma fetch_with_tokens (d : date) (w : World) (t : dict string) :
  asp_tokens w = Some t ->
  fetch_events_for_day BeautifulSoup server d w =
  (server (sent w) (day_post d t),
   mkWorld (Some t) (S (sent w))
           (trace w ++ [IoRequest (day_post d t)]) (output_ics w)).
Proof.
  intros Ht. unfold fetch_events_for_day, bind, has_asp_tokens, get_asp_tokens,
    ret, send. rewrite Ht. simpl. rewrite Ht. reflexivity.
Qed.

Lemma fetch_capture (d : date) (w : World) (text : string) :
  asp_tokens w = None ->
  server (sent w) (GET search_url) = Ok text ->
  let t := extract_tokens (BeautifulSoup text) in
  fetch_events_for_day BeautifulSoup server d w =
  (server (S (sent w)) (day_post d t),
   mkWorld (Some t) (S (S (sent w)))
           (trace w ++ [IoRequest (GET search_url); IoRequest (day_post d t)])
           (output_ics w)).
Proof.
  intros Ht Hget. unfold fetch_events_for_day, bind, has_asp_tokens,
    get_asp_tokens, set_asp_tokens, ret, send. rewrite Ht. simpl.
  rewrite Hget. simpl. rewrite <- app_assoc. reflexivity.
Qed.

Lemma fetch_landing_fails (d : date) (w : World) (e : exn) :
  asp_tokens w = None ->
  server (sent w) (GET search_url) = Raise e ->
  fetch_events_for_day BeautifulSoup server d w =
  (Raise e,
   mkWorld None (S (sent w)) (trace w ++ [IoRequest (GET search_url)])
           (output_ics w)).
Proof.
  intros Ht Hget. unfold fetch_events_for_day, bind, has_asp_tokens,
    get_asp_tokens, set_asp_tokens, ret, send. rewrite Ht. simpl.
  rewrite Hget, Ht. reflexivity.
Qed.

(** Whatever way it goes, a fetch adds requests to the trace and nothing
    else, and leaves the file alone. *)
Lemma fetch_adds_requests (d : date) (w : World) :
  exists reqs,
    trace (snd (fetch_events_for_day BeautifulSoup server d w))
    = trace w ++ reqs /\
    forallb is_request reqs = true /\
    output_ics (snd (fetch_events_for_day BeautifulSoup server d w))
    = output_ics w.
Proof.
  destruct (asp_tokens w) as [t|] eqn:Ht.
  - rewrite (fetch_with_tokens d w t Ht). simpl. eauto.
  - destruct (server (sent w) (GET search_url)) as [text|e] eqn:Hg.
    + rewrite (fetch_capture d w text Ht Hg). simpl. eauto.
    + rewrite (fetch_landing_fails d w e Ht Hg). simpl. eauto.
Qed.

Lemma fetch_unchanged (P : io_event -> bool) (d : date) :
  (forall r, P (IoRequest r) = false) ->
  respects (unchanged P) (fetch_events_for_day BeautifulSoup server d).
Proof.
  intros HP w. destruct (fetch_adds_requests d w) as (reqs & Ht & Hr & _).
  unfold unchanged. rewrite Ht, filter_app.
  replace (filter P reqs) with (@nil io_event); [apply app_nil_r|].
  clear Ht. induction reqs as [|r reqs IH]; [reflexivity|].
  simpl in Hr. apply andb_prop in Hr. destruct Hr as [Hr1 Hr2].
  destruct r as [r| | |]; try discriminate. simpl. rewrite HP. now apply IH.
Qed.

Lemma fetch_same_file (d : date) :
  respects same_file (fetch_events_for_day BeautifulSoup server d).
Proof.
  intros w. destruct (fetch_adds_requests d w) as (reqs & _ & _ & Hf).
  exact Hf.
Qed.

Lemma fetch_tokens_kept (d : date) :
  respects tokens_kept (fetch_events_for_day BeautifulSoup server d).
Proof.
  intros w t Ht. rewrite (fetch_with_tokens d w t Ht). simpl.
  split; [reflexivity|]. unfold unchanged. simpl.
  rewrite filter_snoc. simpl. apply app_nil_r.
Qed.

End FetchFacts.

(** ** The loop over the rows of a parsed document returns *)

Lemma parse_dt_line_ok (date_str time_str : string) :
  exists v, parse_dt_line date_str time_str = Ok v.
Proof.
  unfold parse_dt_line, try_except.
  destruct (parse_dt_line_body date_str time_str); eauto.
Qed.

Section LoopFacts.
Variable BeautifulSoup : string -> Soup.
Variable server : nat -> request -> result string.
Variable today : date.
Variable utcnow : datetime.

Lemma parse_row_ok cols events w :
  exists evs, fst (parse_row cols events w) = Ok evs.
Proof.
  unfold parse_row. destruct (List.length cols <? 4)%nat; [simpl; eauto|].
  unfold bind, lift.
  destruct (parse_dt_line_ok (nth 0 cols "") (nth 1 cols "")) as [[dt|] ->];
    [|simpl; eauto].
  destruct (choose_title_location (potential_titles cols)) as [t l].
  simpl. eauto.
Qed.

Lemma parse_rows_ok rows :
  forall events w, exists evs, fst (parse_rows rows events w) = Ok evs.
Proof.
  induction rows as [|cols rows IH]; intros events w; simpl; [eauto|].
  unfold bind. destruct (parse_row_ok cols events w) as [evs Hevs].
  destruct (parse_row cols events w) as [r w1]. simpl in Hevs. subst r.
  apply IH.
Qed.

(** *** What the loop leaves alone *)

Lemma for_days_unchanged (P : io_event -> bool) days all_events :
  (forall r, P (IoRequest r) = false) ->
  (forall l, P (IoPrint l) = false) ->
  (forall q, P (IoSleep q) = false) ->
  respects (unchanged P)
    (for_days BeautifulSoup server today days all_events).
Proof.
  intros Hr Hp Hs.
  apply respects_for_days.
  - apply unchanged_refl.
  - apply unchanged_trans.
  - intros l. apply unchanged_emit, Hp.
  - intros q. apply unchanged_emit, Hs.
  - intros d. now apply fetch_unchanged.
Qed.

Lemma for_days_same_file days all_events :
  respects same_file (for_days BeautifulSoup server today days all_events).
Proof.
  apply respects_for_days.
  - apply same_file_refl.
  - apply same_file_trans.
  - intros l w. reflexivity.
  - intros q w. reflexivity.
  - apply fetch_same_file.
Qed.

Lemma for_days_tokens_kept days all_events :
  respects tokens_kept (for_days BeautifulSoup server today days all_events).
Proof.
  apply respects_for_days.
  - apply tokens_kept_refl.
  - apply tokens_kept_trans.
  - intros l. now apply tokens_kept_emit.
  - intros q. now apply tokens_kept_emit.
  - apply fetch_tokens_kept.
Qed.

Lemma parse_events_unchanged (P : io_event -> bool) html :
  (forall l, P (IoPrint l) = false) ->
  respects (unchanged P) (parse_events_from_html BeautifulSoup html).
Proof.
  intros Hp. unfold parse_events_from_html.
  apply respects_parse_rows.
  - apply unchanged_refl.
  - apply unchanged_trans.
  - intros l. apply unchanged_emit, Hp.
Qed.

(** *** main, case by case *)

Lemma main_unfold w :
  main BeautifulSoup server today utcnow w =
  match (print start_message ;; collect_events BeautifulSoup server today)%M w with
  | (Ok all_events, w1) => report utcnow all_events w1
  | (Raise e, w1) => (Raise e, w1)
  end.
Proof.
  unfold main, bind. simpl.
  destruct (collect_events BeautifulSoup server today _) as [[a|e] w1];
    reflexivity.
Qed.

Lemma before_report w :
  let w1 := snd ((print start_message ;; collect_events BeautifulSoup server today)%M w) in
  output_ics w1 = output_ics w /\ writes (trace w1) = writes (trace w).
Proof.
  cbv zeta. split.
  - apply (respects_bind same_file same_file_trans);
      [intros w0; reflexivity | intros _; apply for_days_same_file].
  - apply (respects_bind (unchanged is_write) (unchanged_trans is_write));
      [now apply unchanged_emit | intros _; now apply for_days_unchanged].
Qed.

End LoopFacts.

Lemma final_events_nonempty (e : Event) (l : list Event) :
  final_events (e :: l) <> [].
Proof.
  destruct (dedup_sorted uid event_ltb event_ltb_asym
              (fun a b c => starts_no_later_trans a b c) (e :: l))
    as (_ & Hu & _).
  intros Hnil. fold (final_events (e :: l)) in Hu. rewrite Hnil in Hu.
  apply (proj2 (Hu (uid e))). simpl. auto.
Qed.

(** ** EventPipeline: the output file *)

(** C5. In a run whose loop over the 14 days ends with an empty list,
    [main] ends normally, its last print is the failure message, no write
    of the output file occurs and the file is as it was before the run,
    present or absent. A run that writes the file, or leaves it different,
    is a run whose final list is not empty, and the file then holds the
    calendar of that list. *)
Theorem empty_run_leaves_output_untouched :
  forall BeautifulSoup server today utcnow (w : World),
    (collected BeautifulSoup server today w = Ok [] ->
     exists w',
       main BeautifulSoup server today utcnow w = (Ok tt, w') /\
       output_ics w' = output_ics w /\
       writes (trace w') = writes (trace w) /\
       exists t, trace w' = t ++ [IoPrint fail_message]) /\
    (writes (trace (snd (main BeautifulSoup server today utcnow w)))
       <> writes (trace w) \/
     output_ics (snd (main BeautifulSoup server today utcnow w))
       <> output_ics w ->
     exists all_events,
       collected BeautifulSoup server today w = Ok all_events /\
       final_events all_events <> [] /\
       output_ics (snd (main BeautifulSoup server today utcnow w))
       = Some (build_ics utcnow (final_events all_events))).
Proof.
  intros bs server today utcnow w.
  pose proof (before_report bs server today w) as Hpre. cbv zeta in Hpre.
  pose proof (main_unfold bs server today utcnow w) as Hmain.
  unfold collected.
  destruct ((print start_message ;; collect_events bs server today)%M w)
    as [[all|e] w1]; simpl in Hpre |- *; destruct Hpre as [Hf Hw].
  - destruct all as [|a all].
    + split.
      * intros _. eexists. split; [exact Hmain|]. simpl.
        split; [exact Hf|]. split.
        -- rewrite <- Hw. unfold writes. rewrite filter_snoc. simpl.
           apply app_nil_r.
        -- eauto.
      * rewrite Hmain. simpl. intros [H | H]; exfalso; apply H.
        -- rewrite <- Hw. unfold writes. rewrite filter_snoc. simpl.
           apply app_nil_r.
        -- exact Hf.
    + split; [discriminate|]. intros _. exists (a :: all).
      split; [reflexivity|]. split; [apply final_events_nonempty|].
      rewrite Hmain. reflexivity.
  - split; [discriminate|]. rewrite Hmain. simpl.
    intros [H | H]; exfalso; apply H; assumption.
Qed.

Lemma empty_run_leaves_output_untouched_witness :
  exists w',
    main blank_soup server_down (mkDate 2025 1 5) (mkDatetime 2025 1 5 13 0 0 0)
      (fresh_world (Some "BEGIN:VCALENDAR")) = (Ok tt, w') /\
    output_ics w' = Some "BEGIN:VCALENDAR" /\
    writes (trace w') = [] /\
    exists t, trace w' = t ++ [IoPrint fail_message].
Proof.
  apply (proj1 (empty_run_leaves_output_untouched
                  blank_soup server_down (mkDate 2025 1 5)
                  (mkDatetime 2025 1 5 13 0 0 0)
                  (fresh_world (Some "BEGIN:VCALENDAR")))).
  vm_compute. reflexivity.
Defined.

(** ** EventPipeline: the delay between days *)

Section DayFacts.
Variable BeautifulSoup : string -> Soup.
Variable server : nat -> request -> result string.
Variable today : date.

Lemma day_body_fetch_ok current all_events w html w1 :
  fetch_events_for_day BeautifulSoup server current w = (Ok html, w1) ->
  exists all_events' w2,
    day_body BeautifulSoup server current all_events w
    = (Ok all_events',
       mkWorld (asp_tokens w2) (sent w2) (trace w2 ++ [IoSleep (1 # 2)])
               (output_ics w2)) /\
    sleeps (trace w2) = sleeps (trace w).
Proof.
  intros Hf. unfold day_body, bind. rewrite Hf.
  pose proof (parse_rows_ok (soup_rows (BeautifulSoup html)) [] w1)
    as [evs Hevs].
  pose proof (parse_events_unchanged BeautifulSoup is_sleep html
                (fun _ => eq_refl) w1) as Hs.
  unfold parse_events_from_html in *.
  destruct (parse_rows (soup_rows (BeautifulSoup html)) [] w1) as [r w2].
  simpl in Hevs, Hs. subst r. simpl.
  eexists. exists w2. split; [reflexivity|].
  unfold sleeps. rewrite Hs.
  pose proof (fetch_unchanged BeautifulSoup server is_sleep current
                (fun _ => eq_refl) w) as Hw.
  rewrite Hf in Hw. exact Hw.
Qed.

Lemma day_body_fetch_raises current all_events w e w1 :
  fetch_events_for_day BeautifulSoup server current w = (Raise e, w1) ->
  day_body BeautifulSoup server current all_events w = (Raise e, w1) /\
  sleeps (trace w1) = sleeps (trace w).
Proof.
  intros Hf. unfold day_body, bind. rewrite Hf. split; [reflexivity|].
  pose proof (fetch_unchanged BeautifulSoup server is_sleep current
                (fun _ => eq_refl) w) as Hw.
  rewrite Hf in Hw. exact Hw.
Qed.

End DayFacts.

(** C7, as amended. In one turn of the loop over the days, when the fetch
    of the day returns, the turn ends with a delay of 0.5 and adds this one
    delay to those performed so far; when the fetch raises, the turn
    performs no delay: it prints the error of the day, keeps the list and
    the loop goes on. *)
Theorem day_delay_follows_success_only :
  forall BeautifulSoup server today (i : nat) (all_events : list Event)
         (current : date) (w : World),
    date_add_days today i = Ok current ->
    (forall html w1,
        fetch_events_for_day BeautifulSoup server current w = (Ok html, w1) ->
        exists all_events' w2 t,
          day_step BeautifulSoup server today i all_events w
          = (Ok all_events', w2) /\
          trace w2 = t ++ [IoSleep (1 # 2)] /\
          sleeps (trace w2) = sleeps (trace w) ++ [IoSleep (1 # 2)]) /\
    (forall e w1,
        fetch_events_for_day BeautifulSoup server current w = (Raise e, w1) ->
        exists w2,
          day_step BeautifulSoup server today i all_events w
          = (Ok all_events, w2) /\
          trace w2 = trace w1 ++ [IoPrint (error_message current e)] /\
          sleeps (trace w2) = sleeps (trace w)).
Proof.
  intros bs server today i all current w Hd. split.
  - intros html w1 Hf.
    destruct (day_body_fetch_ok bs server current all w html w1 Hf)
      as (all' & w2 & Hb & Hs).
    unfold day_step, bind, lift, try_catch. rewrite Hd, Hb.
    eexists. eexists. exists (trace w2). split; [reflexivity|]. simpl.
    split; [reflexivity|].
    unfold sleeps in *. rewrite filter_snoc, Hs. reflexivity.
  - intros e w1 Hf.
    destruct (day_body_fetch_raises bs server current all w e w1 Hf)
      as (Hb & Hs).
    unfold day_step, bind, lift, try_catch. rewrite Hd, Hb.
    eexists. split; [reflexivity|]. simpl. split; [reflexivity|].
    unfold sleeps in *. rewrite filter_snoc, Hs. simpl. apply app_nil_r.
Qed.

Lemma day_delay_follows_success_only_witness :
  (forall html w1,
      fetch_events_for_day blank_soup server_late (mkDate 2025 1 6)
        (fresh_world None) = (Ok html, w1) ->
      exists all_events' w2 t,
        day_step blank_soup server_late (mkDate 2025 1 5) 1 [] (fresh_world None)
        = (Ok all_events', w2) /\
        trace w2 = t ++ [IoSleep (1 # 2)] /\
        sleeps (trace w2) = sleeps (trace (fresh_world None)) ++ [IoSleep (1 # 2)]) /\
  (forall e w1,
      fetch_events_for_day blank_soup server_late (mkDate 2025 1 6)
        (fresh_world None) = (Raise e, w1) ->
      exists w2,
        day_step blank_soup server_late (mkDate 2025 1 5) 1 [] (fresh_world None)
        = (Ok [], w2) /\
        trace w2 = trace w1 ++ [IoPrint (error_message (mkDate 2025 1 6) e)] /\
        sleeps (trace w2) = sleeps (trace (fresh_world None))).
Proof.
  apply (day_delay_follows_success_only blank_soup server_late
           (mkDate 2025 1 5) 1 [] (mkDate 2025 1 6) (fresh_world None)).
  vm_compute. reflexivity.
Defined.

(** C7, as stated, fails when the days raise: with a server that refuses
    every request the loop makes its 14 turns, prints 14 errors and
    performs no delay at all. *)
Lemma no_delay_when_every_day_fails :
  let w := snd (main blank_soup server_down (mkDate 2025 1 5)
                  (mkDatetime 2025 1 5 13 0 0 0) (fresh_world None)) in
  sleeps (trace w) = [] /\
  List.length (gets (trace w)) = 14%nat /\
  List.length (filter is_print (trace w)) = 16%nat.
Proof. vm_compute. repeat split. Qed.

(** ** SessionFetcher: the token mapping *)

Lemma extract_fold_get (soup : Soup) (f : string) (fields : list string) :
  forall d : dict string,
    dict_get
      (fold_left (fun d g => match find_input soup g with
                             | Some tag => dict_set d g (tag_get_value tag)
                             | None => d
                             end) fields d) f =
    if existsb (String.eqb f) fields
    then match find_input soup f with
         | Some tag => Some (tag_get_value tag)
         | None => dict_get d f
         end
    else dict_get d f.
Proof.
  induction fields as [|g fields IH]; intros d; [reflexivity|].
  cbn [fold_left existsb]. rewrite IH.
  destruct (String.eqb_spec f g) as [-> | Hne]; cbn [orb].
  - destruct (find_input soup g) as [tag|].
    + rewrite dict_get_set, String.eqb_refl.
      destruct (existsb (String.eqb g) fields); reflexivity.
    + destruct (existsb (String.eqb g) fields); reflexivity.
  - assert (Hd : dict_get
                   match find_input soup g with
                   | Some tag => dict_set d g (tag_get_value tag)
                   | None => d
                   end f = dict_get d f).
    { destruct (find_input soup g) as [tag|]; [|reflexivity].
      rewrite dict_get_set.
      destruct (String.eqb_spec g f); [congruence | reflexivity]. }
    rewrite Hd. reflexivity.
Qed.

Lemma extract_tokens_get (soup : Soup) (f : string) :
  dict_get (extract_tokens soup) f =
  if existsb (String.eqb f) token_fields
  then option_map tag_get_value (find_input soup f)
  else None.
Proof.
  unfold extract_tokens. rewrite extract_fold_get.
  destruct (existsb (String.eqb f) token_fields); [|reflexivity].
  destruct (find_input soup f); reflexivity.
Qed.

(** C9, as amended. A fetch that finds a token mapping stored requests no
    landing page, keeps the mapping as it is and sends it with the search
    request, whether that request succeeds or raises; this stays so for
    every later day of the loop. A fetch that finds no mapping requests the
    landing page: when the page arrives, the mapping extracted from it is
    stored, when the request raises, nothing is stored and the fetch
    raises. The mapping extracted holds, for each of the three hidden
    fields, the value of the field when the page has it and no entry when
    it has not. *)
Theorem token_mapping_stored_once :
  forall BeautifulSoup server,
    (forall d w t,
        asp_tokens w = Some t ->
        let w' := snd (fetch_events_for_day BeautifulSoup server d w) in
        asp_tokens w' = Some t /\
        trace w' = trace w ++ [IoRequest (day_post d t)]) /\
    (forall today days all_events w t,
        asp_tokens w = Some t ->
        let w' := snd (for_days BeautifulSoup server today days all_events w) in
        asp_tokens w' = Some t /\ gets (trace w') = gets (trace w)) /\
    (forall d w text,
        asp_tokens w = None ->
        server (sent w) (GET search_url) = Ok text ->
        let t := extract_tokens (BeautifulSoup text) in
        let w' := snd (fetch_events_for_day BeautifulSoup server d w) in
        asp_tokens w' = Some t /\
        trace w' = trace w ++ [IoRequest (GET search_url);
                               IoRequest (day_post d t)]) /\
    (forall d w e,
        asp_tokens w = None ->
        server (sent w) (GET search_url) = Raise e ->
        let r := fetch_events_for_day BeautifulSoup server d w in
        fst r = Raise e /\ asp_tokens (snd r) = None /\
        trace (snd r) = trace w ++ [IoRequest (GET search_url)]) /\
    (forall soup f,
        dict_get (extract_tokens soup) f =
        if existsb (String.eqb f) token_fields
        then option_map tag_get_value (find_input soup f)
        else None).
Proof.
  intros bs server. repeat apply conj.
  - intros d w t Ht. cbv zeta. rewrite (fetch_with_tokens bs server d w t Ht).
    split; reflexivity.
  - intros today days all w t Ht. cbv zeta.
    exact (for_days_tokens_kept bs server today days all w t Ht).
  - intros d w text Ht Hg. cbv zeta.
    rewrite (fetch_capture bs server d w text Ht Hg). split; reflexivity.
  - intros d w e Ht Hg. cbv zeta.
    rewrite (fetch_landing_fails bs server d w e Ht Hg). repeat split.
  - apply extract_tokens_get.
Qed.

Lemma token_mapping_stored_once_witness :
  let w := mkWorld (Some [("__VIEWSTATE", "abc")]) 3 [] None in
  let w' := snd (fetch_events_for_day blank_soup server_down
                   (mkDate 2025 1 6) w) in
  asp_tokens w' = Some [("__VIEWSTATE", "abc")] /\
  trace w' = trace w ++ [IoRequest (day_post (mkDate 2025 1 6)
                                      [("__VIEWSTATE", "abc")])].
Proof.
  apply (proj1 (token_mapping_stored_once blank_soup server_down)
           (mkDate 2025 1 6)
           (mkWorld (Some [("__VIEWSTATE", "abc")]) 3 [] None)
           [("__VIEWSTATE", "abc")]).
  reflexivity.
Defined.

(** C9, as stated, fails when the first landing request raises: the
    second fetch of the run requests the landing page again, and it is
    this second request that captures the mapping. *)
Lemma second_fetch_requests_landing_page_again :
  let w1 := snd (fetch_events_for_day blank_soup server_late
                   (mkDate 2025 1 5) (fresh_world None)) in
  let w2 := snd (fetch_events_for_day blank_soup server_late
                   (mkDate 2025 1 6) w1) in
  trace w1 = [IoRequest (GET search_url)] /\
  asp_tokens w1 = None /\
  trace w2 = trace w1 ++ [IoRequest (GET search_url);
                          IoRequest (day_post (mkDate 2025 1 6) [])] /\
  asp_tokens w2 = Some [].
Proof. vm_compute. repeat split. Qed.

(** ** The events of the pipeline are single-line *)

Lemma not_space_plain (c : ascii) :
  Chars.is_space c = false ->
  negb (Ascii.eqb c CR) && negb (Ascii.eqb c LF) = true.
Proof.
  intros H.
  destruct (Ascii.eqb_spec c CR) as [-> | _]; [discriminate H|].
  destruct (Ascii.eqb_spec c LF) as [-> | _]; [discriminate H|].
  reflexivity.
Qed.

Lemma collapse_ws_plain (s : string) :
  forall in_run, no_newline (collapse_ws in_run s) = true.
Proof.
  induction s as [|c s IH]; intros in_run; [reflexivity|].
  cbn [collapse_ws]. destruct (Chars.is_space c) eqn:Ec.
  - destruct in_run; [apply IH|].
    change (no_newline (String " " ?x)) with (no_newline (collapse_ws true s)).
    apply IH.
  - unfold no_newline. cbn [string_forallb].
    rewrite (not_space_plain c Ec). apply IH.
Qed.

Lemma normalize_ws_plain (s : string) : no_newline (normalize_ws s) = true.
Proof. apply collapse_ws_plain. Qed.

Lemma potential_titles_plain (cols : list string) :
  Forall (fun t => no_newline t = true) (potential_titles cols).
Proof.
  unfold potential_titles. apply Forall_forall. intros t Ht.
  apply filter_In in Ht. destruct Ht as [Ht _].
  apply in_map_iff in Ht. destruct Ht as (x & <- & _).
  apply normalize_ws_plain.
Qed.

Lemma choose_title_location_plain (candidates : list string) :
  Forall (fun t => no_newline t = true) candidates ->
  no_newline (fst (choose_title_location candidates)) = true /\
  no_newline (snd (choose_title_location candidates)) = true.
Proof.
  intros H. unfold choose_title_location.
  destruct candidates as [|a [|b [|c rest]]].
  - split; reflexivity.
  - inversion H; subst. cbn [List.length Nat.ltb Nat.leb nth].
    rewrite andb_false_r. split; [assumption | reflexivity].
  - inversion H as [|? ? Ha H']; subst. inversion H' as [|? ? Hb _]; subst.
    cbn [List.length Nat.ltb Nat.leb nth]. rewrite andb_true_r.
    match goal with |- context [if ?c then _ else _] => destruct c end;
      cbn [fst snd]; split; first [assumption | reflexivity].
  - inversion H as [|? ? Ha H']; subst. inversion H' as [|? ? Hb H'']; subst.
    inversion H'' as [|? ? Hc _]; subst.
    cbn [List.length Nat.ltb Nat.leb nth]. rewrite andb_true_r.
    match goal with |- context [if ?c then _ else _] => destruct c end;
      cbn [fst snd]; split; first [assumption | reflexivity].
Qed.

Lemma returns_ret {A : Type} (Q : A -> Prop) (a : A) : Q a -> returns Q (ret a).
Proof. intros H w. exact H. Qed.

Lemma returns_bind {A B : Type} (P : A -> Prop) (Q : B -> Prop)
      (c : M A) (k : A -> M B) :
  returns P c -> (forall a, P a -> returns Q (k a)) -> returns Q (bind c k).
Proof.
  intros Hc Hk w. unfold bind. specialize (Hc w).
  destruct (c w) as [[a|e] w1]; simpl in *; [|exact I].
  apply (Hk a Hc w1).
Qed.

Lemma returns_any {A : Type} (c : M A) : returns (fun _ => True) c.
Proof. intros w. destruct (fst (c w)); exact I. Qed.

Lemma returns_try_catch {A : Type} (Q : A -> Prop) (c : M A) (h : exn -> M A) :
  returns Q c -> (forall e, returns Q (h e)) -> returns Q (try_catch c h).
Proof.
  intros Hc Hh w. unfold try_catch. specialize (Hc w).
  destruct (c w) as [[a|e] w1]; simpl in *; [exact Hc | apply Hh].
Qed.

Section PipelineEvents.
Variable BeautifulSoup : string -> Soup.
Variable server : nat -> request -> result string.
Variable today : date.

Lemma parse_row_single_line cols events :
  Forall single_line events ->
  returns (Forall single_line) (parse_row cols events).
Proof.
  intros Hev. unfold parse_row.
  destruct (List.length cols <? 4)%nat; [now apply returns_ret|].
  apply (returns_bind (fun _ => True)); [apply returns_any|].
  intros [dt|] _; [|now apply returns_ret].
  pose proof (choose_title_location_plain _ (potential_titles_plain cols))
    as [Ht Hl].
  destruct (choose_title_location (potential_titles cols)) as [t l].
  apply (returns_bind (fun _ => True)); [apply returns_any|].
  intros _ _. apply returns_ret.
  apply Forall_app. split; [exact Hev|].
  constructor; [split; assumption | constructor].
Qed.

Lemma parse_rows_single_line rows :
  forall events,
    Forall single_line events ->
    returns (Forall single_line) (parse_rows rows events).
Proof.
  induction rows as [|cols rows IH]; intros events Hev; simpl.
  - now apply returns_ret.
  - apply (returns_bind (Forall single_line));
      [now apply parse_row_single_line | exact IH].
Qed.

Lemma day_step_single_line i all_events :
  Forall single_line all_events ->
  returns (Forall single_line)
    (day_step BeautifulSoup server today i all_events).
Proof.
  intros Hall. unfold day_step.
  apply (returns_bind (fun _ => True)); [apply returns_any|].
  intros current _. apply returns_try_catch.
  - unfold day_body.
    apply (returns_bind (fun _ => True)); [apply returns_any|].
    intros html _.
    apply (returns_bind (Forall single_line)).
    + apply parse_rows_single_line. constructor.
    + intros day_events Hday.
      apply (returns_bind (fun _ => True)); [apply returns_any|].
      intros _ _. apply returns_ret.
      destruct day_events; [exact Hall|].
      apply Forall_app. split; assumption.
  - intros e. apply (returns_bind (fun _ => True)); [apply returns_any|].
    intros _ _. now apply returns_ret.
Qed.

Lemma for_days_single_line days :
  forall all_events,
    Forall single_line all_events ->
    returns (Forall single_line)
      (for_days BeautifulSoup server today days all_events).
Proof.
  induction days as [|i days IH]; intros all_events Hall; simpl.
  - now apply returns_ret.
  - apply (returns_bind (Forall single_line));
      [now apply day_step_single_line | exact IH].
Qed.

(** Every event of the final list of a run is single-line: the calendar
    written by [main] is covered by the statement about [build_ics]. *)
Lemma collected_final_single_line (w : World) (all_events : list Event) :
  collected BeautifulSoup server today w = Ok all_events ->
  Forall single_line (final_events all_events).
Proof.
  intros Hc.
  assert (Hall : Forall single_line all_events).
  { unfold collected in Hc.
    assert (H : returns (Forall single_line)
                  (print start_message ;;
                   collect_events BeautifulSoup server today)%M).
    { apply (returns_bind (fun _ => True)); [apply returns_any|].
      intros _ _. apply for_days_single_line. constructor. }
    specialize (H w). rewrite Hc in H. exact H. }
  destruct (dedup_sorted uid event_ltb event_ltb_asym
              (fun a b c => starts_no_later_trans a b c) all_events)
    as (_ & _ & Hin & _).
  apply Forall_forall. intros e He.
  apply Hin in He. destruct He as (b & c & -> & _).
  rewrite Forall_forall in Hall. apply Hall.
  apply in_or_app. right. left. reflexivity.
Qed.

End PipelineEvents.

(** C8. For every list of events, the text of [build_ics] is a sequence
    of lines each followed by carriage return and line feed, the last one
    included, and exactly as many of these lines read BEGIN:VEVENT, and as
    many END:VEVENT, as there are events. When no title and no location
    holds a carriage return or a line feed, no line holds one, and the
    text cut at the terminators gives back exactly these lines; this is so
    for the list that any run of [main] hands to [build_ics]. *)
Theorem build_ics_lines :
  forall (utcnow : datetime) (events : list Event),
    exists lines,
      build_ics utcnow events = terminated lines /\
      count_line "BEGIN:VEVENT" lines = List.length events /\
      count_line "END:VEVENT" lines = List.length events /\
      (Forall single_line events ->
       Forall (fun l => no_newline l = true) lines /\
       split_crlf (build_ics utcnow events) = lines ++ [EmptyString]) /\
      (forall BeautifulSoup server today (w : World) all_events,
         collected BeautifulSoup server today w = Ok all_events ->
         events = final_events all_events ->
         Forall (fun l => no_newline l = true) lines /\
         split_crlf (build_ics utcnow events) = lines ++ [EmptyString]).
Proof.
  intros utcnow events.
  exists (ics_lines (strftime_compact utcnow ++ "Z") events).
  assert (Htext : Forall single_line events ->
            Forall (fun l => no_newline l = true)
                   (ics_lines (strftime_compact utcnow ++ "Z") events) /\
            split_crlf (terminated
                          (ics_lines (strftime_compact utcnow ++ "Z") events))
            = ics_lines (strftime_compact utcnow ++ "Z") events
              ++ [EmptyString]).
  { intros Hev.
    pose proof (ics_lines_plain _ events (utcnow_text_plain utcnow) Hev)
      as Hplain.
    split; [exact Hplain | now apply split_crlf_terminated]. }
  rewrite build_ics_terminated. repeat apply conj.
  - reflexivity.
  - apply ics_lines_count.
  - apply ics_lines_count.
  - exact Htext.
  - intros bs server today w all_events Hc ->.
    apply Htext. eapply collected_final_single_line. exact Hc.
Qed.

Lemma build_ics_lines_witness :
  let e := mkEvent (mkDatetime 2025 1 5 10 0 0 0) "Budget, Session" "Room 2C" in
  let utcnow := mkDatetime 2025 1 1 8 0 0 0 in
  collected (soup_of_rows [["1/5/2025"; "10:00 AM"; "101";
                            "Budget, Session"; "Room 2C"]])
            server_late (mkDate 2025 1 1) (fresh_world None)
  = Ok (repeat e 13) /\
  final_events (repeat e 13) = [e] /\
  exists lines,
    build_ics utcnow [e] = terminated lines /\
    count_line "BEGIN:VEVENT" lines = 1%nat /\
    count_line "END:VEVENT" lines = 1%nat /\
    Forall (fun l => no_newline l = true) lines /\
    split_crlf (build_ics utcnow [e]) = lines ++ [EmptyString].
Proof.
  cbv zeta.
  assert (Hrun : collected
                   (soup_of_rows [["1/5/2025"; "10:00 AM"; "101";
                                   "Budget, Session"; "Room 2C"]])
                   server_late (mkDate 2025 1 1) (fresh_world None)
                 = Ok (repeat (mkEvent (mkDatetime 2025 1 5 10 0 0 0)
                                       "Budget, Session" "Room 2C") 13))
    by (vm_compute; reflexivity).
  assert (Hfinal : final_events
                     (repeat (mkEvent (mkDatetime 2025 1 5 10 0 0 0)
                                      "Budget, Session" "Room 2C") 13)
                   = [mkEvent (mkDatetime 2025 1 5 10 0 0 0)
                              "Budget, Session" "Room 2C"])
    by (vm_compute; reflexivity).
  split; [exact Hrun | split; [exact Hfinal |]].
  destruct (build_ics_lines
              (mkDatetime 2025 1 1 8 0 0 0)
              [mkEvent (mkDatetime 2025 1 5 10 0 0 0)
                       "Budget, Session" "Room 2C"])
    as (lines & Ht & Hb & He & _ & Hr).
  exists lines.
  destruct (Hr _ _ _ _ _ Hrun (eq_sym Hfinal)) as [Hp Hs].
  repeat split; assumption.
Defined.

(** * Further properties *)

(** ** parse_dt_line gives calendar timestamps *)

(** X1. A timestamp returned by [parse_dt_line] is a calendar timestamp:
    year 1..9999, month 1..12, a day the month has in that year, hour
    0..23, minute 0..59, no seconds and no microseconds. *)
Theorem parse_dt_line_valid_stamp :
  forall date_str time_str dt,
    parse_dt_line date_str time_str = Ok (Some dt) ->
    valid_minute_stamp dt.
Proof.
  intros d t dt H.
  destruct (parse_dt_line_Some _ _ _ H)
    as (m & mon & dd & yr & h & mi & ap & _ & _ & _ & _ & _ & _ & _ & _ & _ & Hdt).
  apply datetime_new_ok in Hdt.
  destruct Hdt as (-> & Hy & Hmo & Hd & Hh & Hmi & _ & _).
  unfold valid_minute_stamp. cbn [year month day hour minute second microsecond].
  repeat split; lia.
Qed.

Lemma parse_dt_line_valid_stamp_witness :
  valid_minute_stamp (mkDatetime 2024 2 29 23 59 0 0).
Proof.
  apply (parse_dt_line_valid_stamp "2/29/2024" "11:59 pm").
  vm_compute. reflexivity.
Defined.

(** ** The shape of a uid *)

Lemma hex_length (width : nat) : forall n, String.length (Sha1.hex width n) = width.
Proof.
  induction width as [|w IH]; intros n; [reflexivity|].
  cbn [Sha1.hex]. rewrite string_app_length, IH. simpl. lia.
Qed.

Lemma hex_char_lower (d : Z) : 0 <= d < 16 -> is_hex_lower (Sha1.hex_char d) = true.
Proof.
  intros H.
  assert (C : d = 0 \/ d = 1 \/ d = 2 \/ d = 3 \/ d = 4 \/ d = 5 \/ d = 6 \/
              d = 7 \/ d = 8 \/ d = 9 \/ d = 10 \/ d = 11 \/ d = 12 \/
              d = 13 \/ d = 14 \/ d = 15) by lia.
  repeat (destruct C as [-> | C]; [reflexivity|]). rewrite C. reflexivity.
Qed.

Lemma hex_lower (width : nat) :
  forall n, string_forallb is_hex_lower (Sha1.hex width n) = true.
Proof.
  induction width as [|w IH]; intros n; [reflexivity|].
  cbn [Sha1.hex]. rewrite forallb_app, IH. cbn [string_forallb andb].
  rewrite hex_char_lower by (apply Z.mod_pos_bound; lia). reflexivity.
Qed.

(** X2. The uid of every event is the text cga-, then 40 lower-case
    hexadecimal digits, then @cga.ct.gov: 55 characters in all. *)
Theorem uid_shape :
  forall e : Event,
    exists h,
      uid e = ("cga-" ++ h ++ "@cga.ct.gov")%string /\
      String.length h = 40%nat /\
      string_forallb is_hex_lower h = true /\
      String.length (uid e) = 55%nat.
Proof.
  intros e. unfold uid. cbv zeta.
  set (msg := utf8 (uid_key e)).
  exists (Sha1.hexdigest msg).
  assert (Hlen : String.length (Sha1.hexdigest msg) = 40%nat).
  { unfold Sha1.hexdigest.
    destruct (Sha1.digest msg) as [[[[h0 h1] h2] h3] h4].
    rewrite !string_app_length, !hex_length. reflexivity. }
  repeat apply conj.
  - reflexivity.
  - exact Hlen.
  - unfold Sha1.hexdigest.
    destruct (Sha1.digest msg) as [[[[h0 h1] h2] h3] h4].
    now rewrite !forallb_app, !hex_lower.
  - rewrite !string_app_length, Hlen. reflexivity.
Qed.

(** ** Escaping of commas *)

Lemma escape_commas_cons (c : ascii) (s : string) :
  escape_commas (String c s) =
  if Ascii.eqb c "," then String "\" (String "," (escape_commas s))
  else String c (escape_commas s).
Proof. unfold escape_commas. cbn [replace_char]. destruct (Ascii.eqb c ","); reflexivity. Qed.

Lemma escape_commas_head (s : string) :
  match escape_commas s with
  | String c _ => Ascii.eqb c "," = false
  | EmptyString => True
  end.
Proof.
  destruct s as [|c s]; [exact I|].
  rewrite escape_commas_cons. destruct (Ascii.eqb c ",") eqn:E; [reflexivity | exact E].
Qed.

Lemma commas_escaped_escape (s : string) :
  forall prev, commas_escaped prev (escape_commas s) = true.
Proof.
  induction s as [|c s IH]; intros prev; [reflexivity|].
  rewrite escape_commas_cons. destruct (Ascii.eqb c ",") eqn:E.
  - cbn [commas_escaped]. rewrite IH. reflexivity.
  - cbn [commas_escaped]. rewrite E, IH. reflexivity.
Qed.

Lemma escape_commas_inj (s1 : string) :
  forall s2, escape_commas s1 = escape_commas s2 -> s1 = s2.
Proof.
  induction s1 as [|c1 s1 IH]; intros [|c2 s2] H.
  - reflexivity.
  - rewrite escape_commas_cons in H. destruct (Ascii.eqb c2 ","); discriminate.
  - rewrite escape_commas_cons in H. destruct (Ascii.eqb c1 ","); discriminate.
  - rewrite !escape_commas_cons in H.
    destruct (Ascii.eqb_spec c1 ",") as [-> | N1];
      destruct (Ascii.eqb_spec c2 ",") as [-> | N2].
    + injection H as H. now rewrite (IH _ H).
    + injection H as <- H.
      pose proof (escape_commas_head s2) as Hh. rewrite <- H in Hh.
      discriminate Hh.
    + injection H as -> H.
      pose proof (escape_commas_head s1) as Hh. rewrite H in Hh.
      discriminate Hh.
    + injection H as -> H. now rewrite (IH _ H).
Qed.

(** X3. Escaping the commas of a text puts a backslash before each comma
    and changes nothing else: in the result every comma follows a
    backslash, the result is longer than the text by its number of commas,
    a text without comma is left as it is, and two different texts never
    escape to the same text. *)
Theorem escape_commas_faithful :
  (forall s prev, commas_escaped prev (escape_commas s) = true) /\
  (forall s, String.length (escape_commas s)
             = (String.length s + count_commas s)%nat) /\
  (forall s, count_commas s = 0%nat -> escape_commas s = s) /\
  (forall s1 s2, escape_commas s1 = escape_commas s2 -> s1 = s2).
Proof.
  repeat apply conj.
  - apply commas_escaped_escape.
  - induction s as [|c s IH]; [reflexivity|].
    rewrite escape_commas_cons. cbn [count_commas].
    destruct (Ascii.eqb c ","); cbn [String.length]; rewrite IH; lia.
  - induction s as [|c s IH]; [reflexivity|].
    rewrite escape_commas_cons. cbn [count_commas].
    destruct (Ascii.eqb c ","); [discriminate|].
    intros H. now rewrite IH.
  - intros s1 s2. apply escape_commas_inj.
Qed.

Lemma escape_commas_faithful_witness :
  escape_commas "Room 2C" = "Room 2C".
Proof.
  apply (proj1 (proj2 (proj2 escape_commas_faithful)) "Room 2C").
  reflexivity.
Defined.

(** ** normalize_ws *)

Lemma lstrip_starts_clean (s : string) : starts_clean (lstrip s) = true.
Proof.
  induction s as [|c s IH]; [reflexivity|].
  cbn [lstrip]. destruct (Chars.is_space c) eqn:E; [exact IH|].
  cbn [starts_clean]. now rewrite E.
Qed.

Lemma rstrip_starts_clean (s : string) :
  starts_clean s = true -> starts_clean (rstrip s) = true.
Proof.
  destruct s as [|c s]; [reflexivity|]. cbn [starts_clean rstrip]. intros Hc.
  apply negb_true_iff in Hc. rewrite Hc.
  destruct (rstrip s); cbn [starts_clean]; now rewrite Hc.
Qed.

Lemma rstrip_ends_clean (s : string) : ends_clean (rstrip s) = true.
Proof.
  induction s as [|c s IH]; [reflexivity|].
  cbn [rstrip]. destruct (rstrip s) as [|c' r] eqn:Er.
  - destruct (Chars.is_space c) eqn:E; [reflexivity|].
    cbn [ends_clean]. now rewrite E.
  - exact IH.
Qed.

Lemma ends_clean_tail (c : ascii) (s : string) :
  ends_clean (String c s) = true -> ends_clean s = true.
Proof. destruct s; [reflexivity | exact (fun H => H)]. Qed.

Lemma collapse_starts_word (t : string) :
  ends_clean t = true -> t <> EmptyString ->
  starts_word (collapse_ws true t) = true.
Proof.
  induction t as [|c t IH]; intros He Hne; [congruence|].
  cbn [collapse_ws]. destruct (Chars.is_space c) eqn:E.
  - destruct t as [|c' t']; [cbn [ends_clean] in He; rewrite E in He; discriminate|].
    apply IH; [exact He | discriminate].
  - cbn [starts_word]. now rewrite E.
Qed.

Lemma collapse_single_spaced (t : string) :
  forall in_run,
    ends_clean t = true -> single_spaced (collapse_ws in_run t) = true.
Proof.
  induction t as [|c t IH]; intros b He; [reflexivity|].
  pose proof (ends_clean_tail c t He) as Ht.
  cbn [collapse_ws]. destruct (Chars.is_space c) eqn:E.
  - destruct b; [now apply IH|].
    cbn [single_spaced].
    assert (Hne : t <> EmptyString).
    { destruct t; [cbn [ends_clean] in He; rewrite E in He; discriminate | discriminate]. }
    rewrite (collapse_starts_word t Ht Hne), (IH true Ht). reflexivity.
  - cbn [single_spaced]. rewrite E, (IH false Ht). reflexivity.
Qed.

Lemma collapse_starts_clean (t : string) :
  starts_clean t = true -> starts_clean (collapse_ws false t) = true.
Proof.
  destruct t as [|c t]; [reflexivity|]. cbn [starts_clean collapse_ws].
  intros Hc. apply negb_true_iff in Hc. rewrite Hc. cbn [starts_clean].
  now rewrite Hc.
Qed.

Lemma normalize_ws_normal (s : string) : ws_normal (normalize_ws s) = true.
Proof.
  unfold ws_normal, normalize_ws, strip.
  rewrite collapse_starts_clean
    by (apply rstrip_starts_clean, lstrip_starts_clean).
  rewrite collapse_single_spaced by apply rstrip_ends_clean.
  reflexivity.
Qed.

Lemma single_spaced_cons (c : ascii) (s : string) :
  single_spaced (String c s) = true ->
  (Chars.is_space c = false \/ (c = " "%char /\ starts_word s = true)) /\
  single_spaced s = true.
Proof.
  cbn [single_spaced]. intros H. apply andb_prop in H. destruct H as [H1 H2].
  split; [|exact H2].
  apply orb_prop in H1. destruct H1 as [H1 | H1].
  - left. now apply negb_true_iff.
  - right. apply andb_prop in H1. destruct H1 as [Hc Hs].
    split; [now apply Ascii.eqb_eq | exact Hs].
Qed.

Lemma starts_word_clean (s : string) : starts_word s = true -> starts_clean s = true.
Proof. destruct s; [discriminate | exact (fun H => H)]. Qed.

Lemma rstrip_normal (s : string) : single_spaced s = true -> rstrip s = s.
Proof.
  induction s as [|c s IH]; [reflexivity|]. intros H.
  apply single_spaced_cons in H. destruct H as [Hc Hs].
  cbn [rstrip]. rewrite (IH Hs).
  destruct s as [|c' s']; [|reflexivity].
  destruct Hc as [Hc | [_ Hw]]; [now rewrite Hc | discriminate Hw].
Qed.

Lemma lstrip_normal (s : string) : starts_clean s = true -> lstrip s = s.
Proof.
  destruct s as [|c s]; [reflexivity|]. cbn [starts_clean lstrip]. intros Hc.
  apply negb_true_iff in Hc. now rewrite Hc.
Qed.

Lemma collapse_normal (s : string) :
  forall in_run,
    single_spaced s = true ->
    (in_run = true -> starts_clean s = true) ->
    collapse_ws in_run s = s.
Proof.
  induction s as [|c s IH]; intros b H Hb; [reflexivity|].
  apply single_spaced_cons in H. destruct H as [Hc Hs].
  cbn [collapse_ws]. destruct (Chars.is_space c) eqn:E.
  - destruct Hc as [Hc | [-> Hw]]; [congruence|].
    destruct b.
    + specialize (Hb eq_refl). cbn [starts_clean] in Hb. rewrite E in Hb.
      discriminate.
    + f_equal. apply IH; [exact Hs|]. intros _. now apply starts_word_clean.
  - f_equal. apply IH; [exact Hs | discriminate].
Qed.

Lemma normalize_ws_fixed (s : string) : ws_normal s = true -> normalize_ws s = s.
Proof.
  unfold ws_normal. intros H. apply andb_prop in H. destruct H as [H1 H2].
  unfold normalize_ws, strip.
  rewrite (lstrip_normal s H1), (rstrip_normal s H2).
  apply collapse_normal; [exact H2 | discriminate].
Qed.

(** X4. [normalize_ws] leaves a text with no white space at either end and
    with exactly one space character wherever it has white space; a text
    that is already so is returned as it is, so normalising twice is the
    same as normalising once. *)
Theorem normalize_ws_normal_form :
  (forall s, ws_normal (normalize_ws s) = true) /\
  (forall s, ws_normal s = true -> normalize_ws s = s) /\
  (forall s, normalize_ws (normalize_ws s) = normalize_ws s).
Proof.
  repeat apply conj.
  - apply normalize_ws_normal.
  - apply normalize_ws_fixed.
  - intros s. apply normalize_ws_fixed, normalize_ws_normal.
Qed.

Lemma normalize_ws_normal_form_witness :
  normalize_ws "Public Hearing on Energy" = "Public Hearing on Energy".
Proof.
  apply (proj1 (proj2 normalize_ws_normal_form) "Public Hearing on Energy").
  reflexivity.
Defined.

(** ** RowExtractor as a function of the rows *)

Lemma world_eta (w : World) :
  mkWorld (asp_tokens w) (sent w) (trace w) (output_ics w) = w.
Proof. destruct w; reflexivity. Qed.

Lemma parse_row_as_row_event cols events w :
  parse_row cols events w =
  let found := match row_event cols with Some e => [e] | None => [] end in
  (Ok (events ++ found),
   mkWorld (asp_tokens w) (sent w)
           (trace w ++ map (fun e => IoPrint (found_message e)) found)
           (output_ics w)).
Proof.
  unfold parse_row, row_event. cbv zeta.
  destruct (List.length cols <? 4)%nat.
  - unfold ret. cbn [map]. rewrite !app_nil_r, world_eta. reflexivity.
  - unfold bind, lift.
    destruct (parse_dt_line_ok (nth 0 cols "") (nth 1 cols "")) as [[dt|] ->].
    + destruct (choose_title_location (potential_titles cols)) as [t l].
      reflexivity.
    + unfold ret. cbn [map]. rewrite !app_nil_r, world_eta. reflexivity.
Qed.

Lemma parse_rows_as_row_events rows :
  forall events w,
    parse_rows rows events w =
    (Ok (events ++ row_events rows),
     mkWorld (asp_tokens w) (sent w)
             (trace w ++ map (fun e => IoPrint (found_message e)) (row_events rows))
             (output_ics w)).
Proof.
  induction rows as [|cols rows IH]; intros events w.
  - cbn [parse_rows row_events flat_map map]. unfold ret.
    rewrite !app_nil_r, world_eta. reflexivity.
  - cbn [parse_rows]. unfold bind. rewrite parse_row_as_row_event.
    cbv beta iota zeta. rewrite IH. cbn [asp_tokens sent trace output_ics].
    unfold row_events. cbn [flat_map]. rewrite map_app, <- !app_assoc.
    reflexivity.
Qed.

Lemma choose_title_location_from (candidates : list string) :
  let '(t, l) := choose_title_location candidates in
  (In t candidates \/ t = "Unknown CGA Meeting") /\
  (In l candidates \/ l = "").
Proof.
  unfold choose_title_location.
  destruct candidates as [|a [|b [|c rest]]];
    cbn [List.length Nat.ltb Nat.leb nth];
    rewrite ?andb_false_r, ?andb_true_r;
    try match goal with |- context [if ?c then _ else _] => destruct c end;
    cbn [In]; auto 6.
Qed.

Lemma potential_titles_row_text (cols : list string) (s : string) :
  In s (potential_titles cols) -> row_text s.
Proof.
  unfold potential_titles. intros H. apply filter_In in H.
  destruct H as [Hin Hc]. split; [exact Hc|].
  apply in_map_iff in Hin. destruct Hin as (x & <- & _).
  apply normalize_ws_normal.
Qed.


(** X5. Whenever [parse_events_from_html] returns, the parser having read
    the document, it returns the events of the rows that have at least four
    cells and whose first two cells parse as a date and a time, in the
    order of the rows; it has printed one FOUND line for each event
    returned, in the same order, and nothing else; it has sent no request,
    and the session tokens and the output file are as before. *)
Theorem parse_events_from_html_rows :
  forall BeautifulSoup html_content (w w' : World) (events : list Event),
    parse_events_from_html BeautifulSoup html_content w = (Ok events, w') ->
    events = row_events (soup_rows (BeautifulSoup html_content)) /\
    trace w' = trace w ++ map (fun e => IoPrint (found_message e)) events /\
    sent w' = sent w /\
    asp_tokens w' = asp_tokens w /\
    output_ics w' = output_ics w.
Proof.
  intros bs html w w' events H.
  unfold parse_events_from_html in H.
  rewrite parse_rows_as_row_events in H.
  injection H as <- <-. cbn [trace sent asp_tokens output_ics app].
  repeat split; reflexivity.
Qed.

Lemma parse_events_from_html_rows_witness :
  let rows := [["Date"; "Time"; "Event"];
               ["1/5/2025"; "10:00 AM"; "101"; "Public Hearing"; "Room 2C"];
               ["soon"; "2:30 PM"; "102"; "Caucus"; "Room 1A"];
               ["1/6/2025"; "2:30 PM"; "7"; "CGA Event"; "Floor Session"]] in
  let events := [mkEvent (mkDatetime 2025 1 5 10 0 0 0)
                         "Public Hearing" "Room 2C";
                 mkEvent (mkDatetime 2025 1 6 14 30 0 0) "Floor Session" ""] in
  let w' := mkWorld None 0 [IoPrint "    [FOUND] 01/05 10:00 -> Public Hearing";
                            IoPrint "    [FOUND] 01/06 14:30 -> Floor Session"]
                    None in
  events = row_events rows /\
  trace w' = trace (fresh_world None)
             ++ map (fun e => IoPrint (found_message e)) events /\
  sent w' = sent (fresh_world None) /\
  asp_tokens w' = asp_tokens (fresh_world None) /\
  output_ics w' = output_ics (fresh_world None).
Proof.
  apply (parse_events_from_html_rows
           (soup_of_rows
              [["Date"; "Time"; "Event"];
               ["1/5/2025"; "10:00 AM"; "101"; "Public Hearing"; "Room 2C"];
               ["soon"; "2:30 PM"; "102"; "Caucus"; "Room 1A"];
               ["1/6/2025"; "2:30 PM"; "7"; "CGA Event"; "Floor Session"]])
           "<table></table>" (fresh_world None)).
  vm_compute. reflexivity.
Defined.

(** X6. Every event taken from a row has a calendar timestamp as start, a
    title that is either the placeholder or a cell text of the row that is
    not empty, not a number, not the filler phrase and is white space
    normalised, and a location that is either empty or such a cell text. *)
Theorem row_event_well_formed :
  forall cols e,
    row_event cols = Some e ->
    valid_minute_stamp (dt_start e) /\
    row_text (title e) /\
    (title e = "Unknown CGA Meeting" \/ In (title e) (potential_titles cols)) /\
    (location e = "" \/
     (In (location e) (potential_titles cols) /\ row_text (location e))).
Proof.
  intros cols e. unfold row_event.
  destruct (List.length cols <? 4)%nat; [discriminate|].
  destruct (parse_dt_line (nth 0 cols "") (nth 1 cols "")) as [[dt|]|x] eqn:Ep;
    try discriminate.
  pose proof (choose_title_location_from (potential_titles cols)) as Hc.
  destruct (choose_title_location (potential_titles cols)) as [t l].
  destruct Hc as [Ht Hl]. intros H. injection H as <-.
  cbn [dt_start title location].
  split; [|split; [|split]].
  - pose proof (parse_dt_line_Some _ _ _ Ep)
      as (m & mon & dd & yr & h & mi & ap & _ & _ & _ & _ & _ & _ & _ & _ & _ & Hdt).
    apply datetime_new_ok in Hdt.
    destruct Hdt as (-> & Hy & Hmo & Hd & Hh & Hmi & _ & _).
    unfold valid_minute_stamp.
    cbn [year month day hour minute second microsecond]. repeat split; lia.
  - destruct Ht as [Ht | ->].
    + now apply (potential_titles_row_text cols).
    + split; reflexivity.
  - tauto.
  - destruct Hl as [Hl | ->]; [right | left; reflexivity].
    split; [exact Hl | now apply (potential_titles_row_text cols)].
Qed.

Lemma row_event_well_formed_witness :
  let cols := ["1/5/2025"; "10:00 AM"; "HB"; "  Budget   Session "; "42"] in
  let e := mkEvent (mkDatetime 2025 1 5 10 0 0 0) "Budget Session" "" in
  valid_minute_stamp (dt_start e) /\
  row_text (title e) /\
  (title e = "Unknown CGA Meeting" \/ In (title e) (potential_titles cols)) /\
  (location e = "" \/
   (In (location e) (potential_titles cols) /\ row_text (location e))).
Proof.
  apply (row_event_well_formed
           ["1/5/2025"; "10:00 AM"; "HB"; "  Budget   Session "; "42"]
           (mkEvent (mkDatetime 2025 1 5 10 0 0 0) "Budget Session" "")).
  vm_compute. reflexivity.
Defined.

(** ** The order of a dictionary and the stability of sorted *)

Section DictOrder.
Context {V : Type}.
Variable key : V -> string.

Lemma dict_set_new (d : dict V) (k : string) (v : V) :
  ~ In k (dict_keys d) -> dict_set d k v = d ++ [(k, v)].
Proof.
  induction d as [|[k0 v0] d IH]; intros Hn; [reflexivity|].
  cbn [dict_set]. destruct (String.eqb_spec k0 k) as [-> | Hne].
  - exfalso. apply Hn. left. reflexivity.
  - rewrite IH; [reflexivity|]. intros H. apply Hn. right. exact H.
Qed.

Lemma dict_keys_set_old (d : dict V) (k : string) (v : V) :
  In k (dict_keys d) -> dict_keys (dict_set d k v) = dict_keys d.
Proof.
  intros Hin. destruct (dict_keys_set d k v) as [H | [Hn _]];
    [exact H | contradiction].
Qed.

Lemma filter_filter_absorb (P Q : string -> bool) (l : list string) :
  (forall x, P x = true -> Q x = true) ->
  filter P (filter Q l) = filter P l.
Proof.
  intros H. induction l as [|x l IH]; [reflexivity|].
  cbn [filter]. destruct (Q x) eqn:Eq; cbn [filter].
  - now rewrite IH.
  - destruct (P x) eqn:Ep; [|exact IH].
    rewrite (H x Ep) in Eq. discriminate.
Qed.

Lemma filter_filter_and (P Q : string -> bool) (l : list string) :
  filter P (filter Q l) = filter (fun x => P x && Q x) l.
Proof.
  induction l as [|x l IH]; [reflexivity|].
  cbn [filter]. destruct (Q x); cbn [filter]; destruct (P x); cbn [andb];
    now rewrite IH.
Qed.

Lemma absent_false (ks : list string) (k : string) :
  In k ks -> absent ks k = false.
Proof.
  intros H. unfold absent. apply negb_false_iff. apply existsb_exists.
  exists k. split; [exact H | apply String.eqb_refl].
Qed.

Lemma absent_true (ks : list string) (k : string) :
  ~ In k ks -> absent ks k = true.
Proof.
  intros H. unfold absent. apply negb_true_iff.
  destruct (existsb (String.eqb k) ks) eqn:E; [|reflexivity].
  apply existsb_exists in E. destruct E as (x & Hx & Ex).
  apply String.eqb_eq in Ex. subst x. contradiction.
Qed.

Lemma dict_fold_keys (xs : list V) :
  forall d : dict V,
    dict_keys (fold_left (fun d x => dict_set d (key x) x) xs d) =
    dict_keys d ++ filter (absent (dict_keys d)) (first_occurrences (map key xs)).
Proof.
  induction xs as [|x xs IH]; intros d.
  - cbn. now rewrite app_nil_r.
  - cbn [fold_left map first_occurrences filter]. rewrite IH.
    destruct (in_dec string_dec (key x) (dict_keys d)) as [Hin | Hn].
    + rewrite (dict_keys_set_old d _ x Hin), (absent_false _ _ Hin).
      f_equal. symmetry. apply filter_filter_absorb.
      intros k Hk. apply negb_true_iff.
      destruct (String.eqb_spec (key x) k) as [<- | _]; [|reflexivity].
      rewrite (absent_false _ _ Hin) in Hk. discriminate.
    + rewrite (absent_true _ _ Hn).
      unfold dict_keys at 1 2. rewrite (dict_set_new d _ x Hn), map_app.
      cbn [map fst]. rewrite <- app_assoc. cbn [app]. do 2 f_equal.
      rewrite filter_filter_and. apply filter_ext. intros k.
      unfold absent. fold (dict_keys d). rewrite existsb_app. cbn [existsb].
      rewrite orb_false_r, negb_orb.
      rewrite (String.eqb_sym k (key x)). reflexivity.
Qed.

Lemma dict_by_key_order (xs : list V) :
  map key (dict_values (dict_by key xs)) = first_occurrences (map key xs).
Proof.
  destruct (dict_fold_inv key xs []) as [_ Hk]; [constructor | intros ? ? [] |].
  cbv zeta in Hk. unfold dict_by.
  set (d := fold_left (fun d x => dict_set d (key x) x) xs []) in *.
  assert (Hkeys : map key (dict_values d) = dict_keys d).
  { unfold dict_values, dict_keys. rewrite map_map.
    apply map_ext_in. intros [k v] Hin. cbn. symmetry. now apply Hk. }
  rewrite Hkeys. unfold d. rewrite dict_fold_keys. cbn [dict_keys map app].
  clear. induction (first_occurrences (map key xs)) as [|k l IH]; [reflexivity|].
  cbn [filter]. unfold absent at 1. cbn [existsb negb]. now rewrite IH.
Qed.

Lemma dict_by_nodup (xs : list V) :
  NoDup (map key xs) -> dict_values (dict_by key xs) = xs.
Proof.
  unfold dict_by.
  assert (H : forall d : dict V,
             NoDup (dict_keys d ++ map key xs) ->
             fold_left (fun d x => dict_set d (key x) x) xs d
             = d ++ map (fun x => (key x, x)) xs).
  { induction xs as [|x xs IH]; intros d Hnd.
    - cbn. now rewrite app_nil_r.
    - cbn [fold_left map]. rewrite dict_set_new.
      + rewrite IH.
        * now rewrite <- app_assoc.
        * unfold dict_keys. rewrite map_app. cbn [map fst].
          rewrite <- app_assoc. exact Hnd.
      + cbn [map] in Hnd. apply NoDup_remove_2 in Hnd.
        intros Hin. apply Hnd. apply in_or_app. left. exact Hin. }
  intros Hnd. rewrite (H [] Hnd). cbn [app].
  unfold dict_values. rewrite map_map. cbn [snd]. apply map_id.
Qed.

End DictOrder.

Section SortStable.
Context {V : Type}.
Variable ltb : V -> V -> bool.

Lemma insert_sorted_stable (p : V -> bool) (x : V) (l : list V) :
  (forall a b, p a = true -> p b = true -> ltb a b = false) ->
  filter p (insert_sorted ltb x l) = filter p (x :: l).
Proof.
  intros Hp. induction l as [|y l IH]; [reflexivity|].
  cbn [insert_sorted]. destruct (ltb y x) eqn:E; [|reflexivity].
  cbn [filter] in *. rewrite IH.
  destruct (p y) eqn:Ey; destruct (p x) eqn:Ex; try reflexivity.
  rewrite (Hp y x Ey Ex) in E. discriminate.
Qed.

Lemma sorted_stable (p : V -> bool) (l : list V) :
  (forall a b, p a = true -> p b = true -> ltb a b = false) ->
  filter p (sorted ltb l) = filter p l.
Proof.
  intros Hp. induction l as [|x l IH]; [reflexivity|].
  cbn [sorted fold_right]. fold (sorted ltb l).
  rewrite insert_sorted_stable by exact Hp.
  cbn [filter]. now rewrite IH.
Qed.

Lemma sorted_of_sorted (l : list V) :
  StronglySorted (fun a b => ltb b a = false) l -> sorted ltb l = l.
Proof.
  induction 1 as [|x l Hl IH Hx]; [reflexivity|].
  cbn [sorted fold_right]. fold (sorted ltb l). rewrite IH.
  destruct l as [|y l']; [reflexivity|].
  cbn [insert_sorted]. inversion Hx as [|? ? Hy _]; subst. now rewrite Hy.
Qed.

End SortStable.

(** ** EventPipeline: more on the final list *)

Lemma datetime_eqb_eq (a b : datetime) : datetime_eqb a b = true -> a = b.
Proof.
  destruct a as [y1 mo1 d1 h1 mi1 s1 us1], b as [y2 mo2 d2 h2 mi2 s2 us2].
  unfold datetime_eqb.
  cbn [year month day hour minute second microsecond]. intros H.
  repeat (apply andb_prop in H; destruct H as [H ?]).
  repeat match goal with
         | E : (_ =? _)%Z = true |- _ => apply Z.eqb_eq in E
         end.
  congruence.
Qed.

Lemma event_ltb_irrefl (a b : Event) :
  dt_start a = dt_start b -> event_ltb a b = false.
Proof.
  intros H. destruct (event_ltb a b) eqn:E; [|reflexivity].
  pose proof (event_ltb_asym a b E) as E'.
  unfold event_ltb in *. rewrite H in *. congruence.
Qed.

Lemma first_occurrences_length (ks : list string) :
  (List.length (first_occurrences ks) <= List.length ks)%nat.
Proof.
  induction ks as [|k ks IH]; [apply le_n|].
  cbn [first_occurrences List.length].
  pose proof (filter_length_le (fun k' => negb (String.eqb k k'))
                (first_occurrences ks)). lia.
Qed.

(** X7. Deduplicating and sorting a list that is already final changes
    nothing: [final_events] applied twice is [final_events] applied once. *)
Theorem final_events_idempotent :
  forall all_events : list Event,
    final_events (final_events all_events) = final_events all_events.
Proof.
  intros l.
  destruct (dedup_sorted uid event_ltb event_ltb_asym
              (fun a b c => starts_no_later_trans a b c) l)
    as (Hnd & _ & _ & Hs).
  fold (final_events l) in Hnd, Hs.
  unfold final_events at 1.
  rewrite (dict_by_nodup uid (final_events l) Hnd).
  apply sorted_of_sorted. exact Hs.
Qed.

(** X8. The final list has as many events as the accumulated list has
    distinct uids, so never more than the accumulated list, and it is empty
    only when the accumulated list is. *)
Theorem final_events_count :
  forall all_events : list Event,
    List.length (final_events all_events)
    = List.length (first_occurrences (map uid all_events)) /\
    (List.length (final_events all_events) <= List.length all_events)%nat /\
    (final_events all_events = [] <-> all_events = []).
Proof.
  intros l.
  assert (Hlen : List.length (final_events l)
                 = List.length (first_occurrences (map uid l))).
  { unfold final_events.
    rewrite (Permutation_length (sorted_perm event_ltb _)).
    rewrite <- (dict_by_key_order uid l). now rewrite length_map. }
  repeat apply conj.
  - exact Hlen.
  - rewrite Hlen. pose proof (first_occurrences_length (map uid l)) as H.
    now rewrite length_map in H.
  - intros H. destruct l as [|e l]; [reflexivity|].
    exfalso. exact (final_events_nonempty e l H).
  - intros ->. reflexivity.
Qed.

(** X9. Ties keep the order of first appearance. The uids of the
    dictionary of line 163 come in the order in which they first appear
    in the accumulated list, and sorting by start time keeps, among the
    events that start at the same time, the order they have in the
    dictionary. *)
Theorem final_events_tie_order :
  forall all_events : list Event,
    map uid (dict_values (dict_by uid all_events))
    = first_occurrences (map uid all_events) /\
    forall t, filter (starts_at t) (final_events all_events)
              = filter (starts_at t) (dict_values (dict_by uid all_events)).
Proof.
  intros l. split.
  - apply dict_by_key_order.
  - intros t. unfold final_events. apply sorted_stable.
    intros a b Ha Hb. apply event_ltb_irrefl.
    apply datetime_eqb_eq in Ha. apply datetime_eqb_eq in Hb. congruence.
Qed.

(** ** SessionFetcher: the search request *)

Lemma dict_update_get_absent {V : Type} (d2 : dict V) :
  forall (d1 : dict V) (k : string),
    dict_get d2 k = None ->
    dict_get (dict_update d1 d2) k = dict_get d1 k.
Proof.
  unfold dict_update.
  induction d2 as [|[k2 v2] d2 IH]; intros d1 k H; [reflexivity|].
  cbn [fold_left fst snd]. cbn [dict_get] in H.
  destruct (String.eqb_spec k2 k) as [-> | Hne]; [discriminate|].
  rewrite (IH _ _ H), dict_get_set.
  destruct (String.eqb_spec k2 k); [contradiction | reflexivity].
Qed.

Lemma dict_update_get_present {V : Type} (d2 : dict V) :
  forall (d1 : dict V) (k : string) (v : V),
    NoDup (dict_keys d2) ->
    dict_get d2 k = Some v ->
    dict_get (dict_update d1 d2) k = Some v.
Proof.
  unfold dict_update.
  induction d2 as [|[k2 v2] d2 IH]; intros d1 k v Hnd H; [discriminate|].
  cbn [fold_left fst snd]. cbn [dict_get] in H.
  inversion Hnd as [|? ? Hn Hnd']; subst.
  destruct (String.eqb_spec k2 k) as [-> | Hne].
  - injection H as ->.
    assert (Hk : dict_get d2 k = None).
    { destruct (dict_get d2 k) as [v'|] eqn:E; [|reflexivity].
      exfalso. apply Hn. apply dict_get_In in E.
      change k with (fst (k, v')). now apply in_map. }
    change (dict_get (dict_update (dict_set d1 k v) d2) k = Some v).
    rewrite (dict_update_get_absent d2 _ k Hk), dict_get_set, String.eqb_refl.
    reflexivity.
  - now apply IH.
Qed.

Lemma dict_update_keys_fresh {V : Type} (d2 : dict V) :
  forall d1 : dict V,
    NoDup (dict_keys d1 ++ dict_keys d2) ->
    dict_keys (dict_update d1 d2) = dict_keys d1 ++ dict_keys d2.
Proof.
  unfold dict_update.
  induction d2 as [|[k2 v2] d2 IH]; intros d1 Hnd.
  - cbn. now rewrite app_nil_r.
  - cbn [fold_left fst snd].
    change (dict_keys ((k2, v2) :: d2)) with (k2 :: dict_keys d2) in *.
    assert (Hn : ~ In k2 (dict_keys d1)).
    { apply NoDup_remove_2 in Hnd. intros H. apply Hnd.
      apply in_or_app. left. exact H. }
    assert (Hk : dict_keys (dict_set d1 k2 v2) = dict_keys d1 ++ [k2]).
    { rewrite (dict_set_new d1 k2 v2 Hn). unfold dict_keys.
      now rewrite map_app. }
    rewrite IH; rewrite Hk, <- app_assoc; [reflexivity | exact Hnd].
Qed.

Lemma extract_tokens_keys (soup : Soup) :
  NoDup (dict_keys (extract_tokens soup)) /\
  forall k, In k (dict_keys (extract_tokens soup)) -> In k token_fields.
Proof.
  unfold extract_tokens, token_fields. cbn [fold_left].
  destruct (find_input soup "__VIEWSTATE");
    destruct (find_input soup "__VIEWSTATEGENERATOR");
    destruct (find_input soup "__EVENTVALIDATION");
    cbn; (split; [repeat constructor; cbn; intuition discriminate
                 | intros k H; intuition]).
Qed.

(** The form of the search request for a day and the tokens found in a
    document. *)
Lemma day_post_form (soup : Soup) (target_date : date) :
  let tokens := extract_tokens soup in
  exists data,
    day_post target_date tokens
    = POST xhr_url [("User-Agent", USER_AGENT); ("Referer", search_url)] data /\
    dict_get data "sDate" = Some (strftime_mdY target_date) /\
    dict_get data "eDate" = Some (strftime_mdY target_date) /\
    dict_get data "btnSubmit" = Some "Search" /\
    dict_get data "List" = Some "1" /\
    (forall f v, dict_get tokens f = Some v -> dict_get data f = Some v) /\
    dict_keys data = search_fields ++ dict_keys tokens.
Proof.
  cbv zeta. unfold day_post. cbv zeta.
  destruct (extract_tokens_keys soup) as [Hnd Hsub].
  assert (Habs : forall k, In k search_fields ->
                           dict_get (extract_tokens soup) k = None).
  { intros k Hk. rewrite extract_tokens_get.
    cbn in Hk. destruct Hk as [<- | [<- | [<- | [<- | []]]]]; reflexivity. }
  eexists. split; [reflexivity|]. repeat apply conj.
  - rewrite dict_update_get_absent by (apply Habs; cbn; auto). reflexivity.
  - rewrite dict_update_get_absent by (apply Habs; cbn; auto). reflexivity.
  - rewrite dict_update_get_absent by (apply Habs; cbn; auto). reflexivity.
  - rewrite dict_update_get_absent by (apply Habs; cbn; auto). reflexivity.
  - intros f v Hf. now apply dict_update_get_present.
  - apply dict_update_keys_fresh. cbn [dict_keys map fst app].
    repeat (constructor; [
      intros Hin; cbn [In] in Hin;
      repeat (destruct Hin as [Hin | Hin]; [discriminate Hin|]);
      apply Hsub in Hin; cbn in Hin; intuition discriminate |]).
    exact Hnd.
Qed.

(** X10. A call of [fetch_events_for_day] that finds the tokens of a
    document stored in the session, or that finds none stored and gets the
    landing page, ends with one POST to the search address, with the two
    fixed headers, and returns what the server answers to it; before the
    POST it has sent the GET of the landing page in the second case and
    nothing in the first. The form of the POST has the start and the end
    date both set to the target day as [strftime("%m/%d/%Y")] writes it,
    the submit marker, the list marker, and every token with its value;
    the tokens come after the four search fields and replace none of
    them. After the call the session holds these tokens. *)
Theorem search_request_payload :
  forall BeautifulSoup server (target_date : date) (w : World) (soup : Soup),
    asp_tokens w = Some (extract_tokens soup) \/
    (asp_tokens w = None /\
     exists text, server (sent w) (GET search_url) = Ok text /\
                  soup = BeautifulSoup text) ->
    let tokens := extract_tokens soup in
    let landing := match asp_tokens w with
                   | Some _ => []
                   | None => [IoRequest (GET search_url)]
                   end in
    let call := fetch_events_for_day BeautifulSoup server target_date w in
    exists data,
      let post :=
        POST xhr_url [("User-Agent", USER_AGENT); ("Referer", search_url)] data in
      trace (snd call) = trace w ++ landing ++ [IoRequest post] /\
      sent (snd call) = (sent w + List.length landing + 1)%nat /\
      fst call = server (sent w + List.length landing)%nat post /\
      asp_tokens (snd call) = Some tokens /\
      dict_get data "sDate" = Some (strftime_mdY target_date) /\
      dict_get data "eDate" = Some (strftime_mdY target_date) /\
      dict_get data "btnSubmit" = Some "Search" /\
      dict_get data "List" = Some "1" /\
      (forall f v, dict_get tokens f = Some v -> dict_get data f = Some v) /\
      dict_keys data = search_fields ++ dict_keys tokens.
Proof.
  intros bs server d w soup Hs. cbv zeta.
  destruct (day_post_form soup d)
    as (data & Hpost & HsD & HeD & Hb & Hl & Htok & Hkeys).
  exists data.
  destruct Hs as [Ht | (Ht & text & Hget & Hsoup)].
  - rewrite (fetch_with_tokens bs server d w _ Ht), Ht, Hpost.
    cbn [fst snd trace sent asp_tokens List.length app].
    rewrite !Nat.add_0_r, Nat.add_1_r. repeat split; assumption.
  - rewrite (fetch_capture bs server d w text Ht Hget), Ht, <- Hsoup, Hpost.
    cbn [fst snd trace sent asp_tokens List.length app].
    rewrite !Nat.add_1_r. repeat split; assumption.
Qed.

Lemma search_request_payload_witness :
  let bs := fun _ : string =>
              mkSoup [[("name", "__VIEWSTATE"); ("value", "abc")]] [] in
  let call := fetch_events_for_day bs server_up (mkDate 2025 1 6)
                                   (fresh_world None) in
  exists data,
    trace (snd call)
    = [IoRequest (GET search_url);
       IoRequest (POST xhr_url
                       [("User-Agent", USER_AGENT); ("Referer", search_url)]
                       data)] /\
    dict_get data "sDate" = Some "01/06/2025" /\
    dict_get data "__VIEWSTATE" = Some "abc" /\
    dict_keys data = ["sDate"; "eDate"; "btnSubmit"; "List"; "__VIEWSTATE"].
Proof.
  cbv zeta.
  destruct (search_request_payload
              (fun _ : string =>
                 mkSoup [[("name", "__VIEWSTATE"); ("value", "abc")]] [])
              server_up (mkDate 2025 1 6) (fresh_world None)
              (mkSoup [[("name", "__VIEWSTATE"); ("value", "abc")]] []))
    as (data & Htr & _ & _ & _ & HsD & _ & _ & _ & Htok & Hkeys).
  - right. split; [reflexivity|].
    exists "<html></html>". split; reflexivity.
  - exists data. repeat split.
    + exact Htr.
    + exact HsD.
    + apply Htok. reflexivity.
    + exact Hkeys.
Defined.

(** ** EventPipeline: every day is accounted for *)





Section Accounting.
Variable BeautifulSoup : string -> Soup.
Variable server : nat -> request -> result string.
Variable today : date.
Variable utcnow : datetime.




End Accounting.





(** ** CalendarSerializer: the events in order *)

Lemma tagged_app (tag : string) (a b : list string) :
  tagged tag (a ++ b) = tagged tag a ++ tagged tag b.
Proof. apply filter_app. Qed.

Lemma vevent_lines_tagged (now : string) (e : Event) :
  tagged "UID:" (vevent_lines now e) = ["UID:" ++ uid e]%string /\
  tagged "DTSTART;" (vevent_lines now e)
  = ["DTSTART;TZID=America/New_York:" ++ strftime_compact (dt_start e)]%string /\
  tagged "SUMMARY:" (vevent_lines now e)
  = ["SUMMARY:" ++ escape_commas (title e)]%string /\
  tagged "LOCATION:" (vevent_lines now e)
  = ["LOCATION:" ++ escape_commas (location e)]%string.
Proof. repeat split. Qed.

Lemma ics_lines_tagged (now : string) (events : list Event) :
  tagged "UID:" (ics_lines now events)
  = map (fun e => "UID:" ++ uid e)%string events /\
  tagged "DTSTART;" (ics_lines now events)
  = map (fun e => "DTSTART;TZID=America/New_York:"
                  ++ strftime_compact (dt_start e))%string events /\
  tagged "SUMMARY:" (ics_lines now events)
  = map (fun e => "SUMMARY:" ++ escape_commas (title e))%string events /\
  tagged "LOCATION:" (ics_lines now events)
  = map (fun e => "LOCATION:" ++ escape_commas (location e))%string events.
Proof.
  unfold ics_lines. rewrite !tagged_app.
  change (tagged _ [_; _; _; _]) with (@nil string).
  change (tagged _ ["END:VCALENDAR"]) with (@nil string).
  cbn [app]. rewrite !app_nil_r.
  induction events as [|e events (IH1 & IH2 & IH3 & IH4)]; [repeat split|].
  cbn [flat_map map]. rewrite !tagged_app, IH1, IH2, IH3, IH4.
  destruct (vevent_lines_tagged now e) as (-> & -> & -> & ->).
  repeat split.
Qed.

Lemma ics_lines_length (now : string) (events : list Event) :
  List.length (ics_lines now events) = (7 * List.length events + 5)%nat.
Proof.
  unfold ics_lines. rewrite !length_app. cbn [List.length].
  induction events as [|e events IH]; [reflexivity|].
  cbn [flat_map]. rewrite length_app. cbn [List.length vevent_lines] in *. lia.
Qed.

(** X13. For events whose titles and locations hold no line break, the
    calendar text cut at its line terminators has five lines around seven
    lines for each event, and it lists the events in the order given: the
    UID lines are the uids of the events in that order, and likewise the
    DTSTART lines their start times as written on the wall clock, the
    SUMMARY lines their titles and the LOCATION lines their locations,
    commas escaped. *)
Theorem build_ics_lists_events_in_order :
  forall (utcnow : datetime) (events : list Event),
    Forall single_line events ->
    let lines := removelast (split_crlf (build_ics utcnow events)) in
    List.length lines = (7 * List.length events + 5)%nat /\
    tagged "UID:" lines = map (fun e => "UID:" ++ uid e)%string events /\
    tagged "DTSTART;" lines
    = map (fun e => "DTSTART;TZID=America/New_York:"
                    ++ strftime_compact (dt_start e))%string events /\
    tagged "SUMMARY:" lines
    = map (fun e => "SUMMARY:" ++ escape_commas (title e))%string events /\
    tagged "LOCATION:" lines
    = map (fun e => "LOCATION:" ++ escape_commas (location e))%string events.
Proof.
  intros utcnow events Hev. cbv zeta.
  rewrite build_ics_terminated.
  rewrite split_crlf_terminated
    by (apply ics_lines_plain; [apply utcnow_text_plain | exact Hev]).
  rewrite removelast_last.
  split; [apply ics_lines_length | apply ics_lines_tagged].
Qed.

Lemma build_ics_lists_events_in_order_witness :
  let events := [mkEvent (mkDatetime 2025 1 5 10 0 0 0) "A, B" "Room 2C";
                 mkEvent (mkDatetime 999 1 5 9 0 0 0) "UID:x" ""] in
  let lines := removelast (split_crlf (build_ics (mkDatetime 2025 1 1 8 0 0 0)
                                                 events)) in
  List.length lines = (7 * List.length events + 5)%nat /\
  tagged "UID:" lines = map (fun e => "UID:" ++ uid e)%string events /\
  tagged "DTSTART;" lines
  = map (fun e => "DTSTART;TZID=America/New_York:"
                  ++ strftime_compact (dt_start e))%string events /\
  tagged "SUMMARY:" lines
  = map (fun e => "SUMMARY:" ++ escape_commas (title e))%string events /\
  tagged "LOCATION:" lines
  = map (fun e => "LOCATION:" ++ escape_commas (location e))%string events.
Proof.
  apply (build_ics_lists_events_in_order (mkDatetime 2025 1 1 8 0 0 0)
           [mkEvent (mkDatetime 2025 1 5 10 0 0 0) "A, B" "Room 2C";
            mkEvent (mkDatetime 999 1 5 9 0 0 0) "UID:x" ""]).
  repeat constructor.
Defined.

(** A row dated in the year 999: the start is written in the calendar as
    [%Y] writes the year, with three digits, and hashed as [isoformat]
    writes it, with four. *)
Example build_ics_year_999_row :
  let e := mkEvent (mkDatetime 999 1 5 10 0 0 0) "Hearing" "Room 2C" in
  row_event ["1/5/0999"; "10:00 AM"; "101"; "Hearing"; "Room 2C"] = Some e /\
  tagged "DTSTART;"
    (removelast (split_crlf (build_ics (mkDatetime 2025 1 1 8 0 0 0) [e])))
  = ["DTSTART;TZID=America/New_York:9990105T100000"] /\
  uid_key e = "0999-01-05T10:00:00|hearing".
Proof. vm_compute. repeat split; reflexivity. Qed.

(** ** parse_dt_line accepts the well-formed fragments *)

Lemma rep_takes_all {A : Type} (cl : Re.cclass) (w : string) :
  forall (s' : string) (lo : nat) (hi : option nat)
         (k : string -> option A) (x : A),
    string_forallb (Re.in_class cl) w = true ->
    (lo <= String.length w)%nat ->
    match hi with Some h => (String.length w <= h)%nat | None => True end ->
    hi = Some (String.length w) \/ starts_in_class cl s' = false ->
    k s' = Some x ->
    Re.rep cl lo hi (w ++ s') k = Some x.
Proof.
  induction w as [|c w IH]; intros s' lo hi k x Hw Hlo Hhi Hmax Hk.
  - cbn [String.length] in *. assert (lo = 0%nat) by lia. subst lo.
    cbn [append].
    destruct s' as [|c t]; destruct hi as [[|h]|]; cbn [Re.rep]; try exact Hk.
    + destruct Hmax as [Hmax | Hmax]; [discriminate|].
      cbn [starts_in_class] in Hmax. rewrite Hmax. exact Hk.
    + destruct Hmax as [Hmax | Hmax]; [discriminate|].
      cbn [starts_in_class] in Hmax. rewrite Hmax. exact Hk.
  - cbn [string_forallb] in Hw. apply andb_prop in Hw. destruct Hw as [Hc Hw].
    cbn [String.length] in *.
    assert (Hrec : Re.rep cl (Nat.pred lo) (option_map Nat.pred hi) (w ++ s') k
                   = Some x).
    { apply IH; try assumption.
      - lia.
      - destruct hi as [h|]; cbn [option_map]; [lia | exact I].
      - destruct Hmax as [-> | Hmax]; [left; reflexivity | right; exact Hmax]. }
    change ((String c w ++ s')%string) with (String c (w ++ s')).
    destruct hi as [[|h]|]; [lia | |]; cbn [Re.rep]; rewrite Hc;
      fold (@Re.rep A); rewrite Hrec; reflexivity.
Qed.

Lemma search_at_head (r : Re.regex) (s : string) (m : Re.captures) :
  Re.rmatch r s [] (fun _ caps => Some caps) = Some m ->
  Re.search r s = Some m.
Proof. intros H. destruct s; cbn [Re.search]; now rewrite H. Qed.

Lemma decimal_not_space (c : ascii) :
  Chars.is_decimal c = true -> Chars.is_space c = false.
Proof.
  destruct c as [[] [] [] [] [] [] [] []]; vm_compute; intros H;
    solve [reflexivity | discriminate H].
Qed.

Lemma digits_single_spaced (w s : string) :
  string_forallb Chars.is_decimal w = true ->
  single_spaced (w ++ s) = single_spaced s.
Proof.
  induction w as [|c w IH]; intros H; [reflexivity|].
  cbn [string_forallb] in H. apply andb_prop in H. destruct H as [Hc Hw].
  change ((String c w ++ s)%string) with (String c (w ++ s)).
  cbn [single_spaced]. rewrite (decimal_not_space c Hc), (IH Hw). reflexivity.
Qed.

Lemma digits_starts_word (lo hi : nat) (w s : string) :
  (1 <= lo)%nat -> digits_text lo hi w -> starts_word (w ++ s) = true.
Proof.
  intros Hlo [Hw Hlen]. destruct w as [|c w]; [cbn in Hlen; lia|].
  cbn [string_forallb] in Hw. apply andb_prop in Hw. destruct Hw as [Hc _].
  cbn [append starts_word]. now rewrite (decimal_not_space c Hc).
Qed.

Section WellFormed.
Variables mon dd yr h mi ap : string.
Hypothesis Hmon : digits_text 1 2 mon.
Hypothesis Hdd : digits_text 1 2 dd.
Hypothesis Hyr : digits_text 4 4 yr.
Hypothesis Hh : digits_text 1 2 h.
Hypothesis Hmi : digits_text 2 2 mi.
Hypothesis Hap : In ap markers.

Lemma well_formed_text :
  ((mon ++ "/" ++ dd ++ "/" ++ yr) ++ " " ++ h ++ ":" ++ mi ++ " " ++ ap)%string
  = (mon ++ String "/" (dd ++ String "/" (yr ++ String " "
       (h ++ String ":" (mi ++ String " " ap)))))%string.
Proof. rewrite !string_app_assoc. reflexivity. Qed.

Lemma well_formed_normal :
  ws_normal (mon ++ String "/" (dd ++ String "/" (yr ++ String " "
       (h ++ String ":" (mi ++ String " " ap)))))%string = true.
Proof.
  unfold ws_normal.
  assert (Hs : starts_clean (mon ++ String "/" (dd ++ String "/" (yr ++ String " "
       (h ++ String ":" (mi ++ String " " ap)))))%string = true).
  { apply starts_word_clean. apply (digits_starts_word 1 2); [lia | exact Hmon]. }
  rewrite Hs. cbn [andb].
  rewrite (digits_single_spaced mon) by apply Hmon.
  cbn [single_spaced]. change (Chars.is_space "/") with false. cbn [negb orb andb].
  rewrite (digits_single_spaced dd) by apply Hdd.
  cbn [single_spaced]. change (Chars.is_space "/") with false. cbn [negb orb andb].
  rewrite (digits_single_spaced yr) by apply Hyr.
  cbn [single_spaced]. change (Chars.is_space " ") with true.
  change (Ascii.eqb " " " ") with true. cbn [negb orb andb].
  rewrite (digits_starts_word 1 2 h) by (lia || exact Hh). cbn [andb].
  rewrite (digits_single_spaced h) by apply Hh.
  cbn [single_spaced]. change (Chars.is_space ":") with false. cbn [negb orb andb].
  rewrite (digits_single_spaced mi) by apply Hmi.
  pose proof Hap as Hm. unfold markers in Hm. cbn [In] in Hm.
  repeat (destruct Hm as [E | Hm]; [rewrite <- E; reflexivity|]). contradiction.
Qed.

Lemma well_formed_match :
  Re.rmatch pattern
    (mon ++ String "/" (dd ++ String "/" (yr ++ String " "
       (h ++ String ":" (mi ++ String " " ap)))))%string
    [] (fun _ caps => Some caps)
  = Some [("ampm", ap); ("m", mi); ("h", h); ("year", yr); ("day", dd);
          ("mon", mon)].
Proof.
  unfold pattern. cbn [Re.rmatch].
  change (Re.rep Re.Digit 1 (Some 2%nat)
            (mon ++ String "/" (dd ++ String "/" (yr ++ String " "
               (h ++ String ":" (mi ++ String " " ap)))))%string ?k)
    with (Re.rep Re.Digit 1 (Some 2%nat)
            (mon ++ String "/" (dd ++ String "/" (yr ++ String " "
               (h ++ String ":" (mi ++ String " " ap)))))%string k).
  destruct Hmon as [Wmon Lmon], Hdd as [Wdd Ldd], Hyr as [Wyr Lyr],
    Hh as [Wh Lh], Hmi as [Wmi Lmi].
  apply rep_takes_all; try assumption; try lia; [right; reflexivity|].
  rewrite consumed_app. change (Chars.eq_ci "/" "/") with true. cbv iota.
  apply rep_takes_all; try assumption; try lia; [right; reflexivity|].
  rewrite consumed_app. change (Chars.eq_ci "/" "/") with true. cbv iota.
  apply rep_takes_all; try assumption; try lia; [right; reflexivity|].
  rewrite consumed_app.
  apply (rep_takes_all Re.Space " "); try reflexivity.
  { right. apply (digits_starts_word 1 2 h) with (s := String ":" (mi ++ String " " ap)) in Hh;
      [|lia].
    destruct h as [|c h']; [cbn in Lh; lia|].
    cbn [string_forallb] in Wh. apply andb_prop in Wh. destruct Wh as [Hc _].
    cbn [append starts_in_class Re.in_class]. now apply decimal_not_space. }
  apply rep_takes_all; try assumption; try lia; [right; reflexivity|].
  rewrite consumed_app. change (Chars.eq_ci ":" ":") with true. cbv iota.
  apply rep_takes_all; try assumption; try lia; [right; reflexivity|].
  rewrite consumed_app.
  pose proof Hap as Hm. unfold markers in Hm. cbn [In] in Hm.
  repeat (destruct Hm as [E | Hm]; [rewrite <- E; vm_compute; reflexivity|]).
  contradiction.
Qed.

End WellFormed.

(** X14. [parse_dt_line] accepts every pair of fragments of the expected
    shape: a date M/D/YYYY with one or two digits for the month and the
    day and four for the year, and a time H:MM followed by a space and the
    marker AM or PM in any letter case. The result is then the timestamp
    of those numbers, the hour turned to 24-hour form, or "no match" when
    the constructor refuses them. *)
Theorem parse_dt_line_accepts_well_formed :
  forall mon dd yr h mi ap : string,
    digits_text 1 2 mon -> digits_text 1 2 dd -> digits_text 4 4 yr ->
    digits_text 1 2 h -> digits_text 2 2 mi -> In ap markers ->
    parse_dt_line (mon ++ "/" ++ dd ++ "/" ++ yr) (h ++ ":" ++ mi ++ " " ++ ap)
    = stamp_of_fields yr mon dd h mi ap.
Proof.
  intros mon dd yr h mi ap Hmon Hdd Hyr Hh Hmi Hap.
  unfold parse_dt_line, parse_dt_line_body. cbv zeta.
  rewrite well_formed_text.
  rewrite normalize_ws_fixed
    by (apply well_formed_normal; assumption).
  rewrite (search_at_head _ _ _
             (well_formed_match mon dd yr h mi ap Hmon Hdd Hyr Hh Hmi Hap)).
  change (Re.group _ "h") with (Some h).
  change (Re.group _ "ampm") with (Some ap).
  change (Re.group _ "year") with (Some yr).
  change (Re.group _ "mon") with (Some mon).
  change (Re.group _ "day") with (Some dd).
  change (Re.group _ "m") with (Some mi).
  rewrite (py_int_digits 1 2 h), (py_int_digits 1 2 mon), (py_int_digits 1 2 dd),
    (py_int_digits 4 4 yr), (py_int_digits 2 2 mi) by (assumption || lia).
  cbn [group_upper rbind]. unfold stamp_of_fields.
  destruct (datetime_new _ _ _ _ _ 0 0); reflexivity.
Qed.

Lemma parse_dt_line_accepts_well_formed_witness :
  parse_dt_line ("3" ++ "/" ++ "09" ++ "/" ++ "2025") ("7" ++ ":" ++ "45" ++ " " ++ "pm")
  = stamp_of_fields "2025" "3" "09" "7" "45" "pm".
Proof.
  apply (parse_dt_line_accepts_well_formed "3" "09" "2025" "7" "45" "pm");
    try (split; [reflexivity | cbn; lia]).
  cbn. auto.
Defined.

Example stamp_of_fields_sample :
  stamp_of_fields "2025" "3" "09" "7" "45" "pm"
  = Ok (Some (mkDatetime 2025 3 9 19 45 0 0)).
Proof. reflexivity. Qed.

(** ** What the uid is hashed from *)

Lemma int_digits_app (s1 s2 : string) :
  forall acc, int_digits acc (s1 ++ s2) = int_digits (int_digits acc s1) s2.
Proof.
  induction s1 as [|c s1 IH]; intros acc; [reflexivity|].
  cbn [append int_digits]. apply IH.
Qed.

Lemma digit_value_char (d : Z) : digit_value (digit_char d) = d mod 10.
Proof.
  unfold digit_char.
  assert (H : 0 <= d mod 10 < 10) by (apply Z.mod_pos_bound; lia).
  assert (C : d mod 10 = 0 \/ d mod 10 = 1 \/ d mod 10 = 2 \/ d mod 10 = 3 \/
              d mod 10 = 4 \/ d mod 10 = 5 \/ d mod 10 = 6 \/ d mod 10 = 7 \/
              d mod 10 = 8 \/ d mod 10 = 9) by lia.
  repeat (destruct C as [-> | C]; [reflexivity|]). rewrite C. reflexivity.
Qed.

Lemma int_digits_pad (width : nat) :
  forall n acc,
    int_digits acc (pad_digits width n)
    = acc * 10 ^ Z.of_nat width + n mod 10 ^ Z.of_nat width.
Proof.
  induction width as [|w IH]; intros n acc.
  - cbn [pad_digits int_digits]. change (10 ^ Z.of_nat 0) with 1.
    rewrite Z.mod_1_r. lia.
  - cbn [pad_digits]. rewrite int_digits_app, IH. cbn [int_digits].
    rewrite digit_value_char.
    rewrite Nat2Z.inj_succ, Z.pow_succ_r by lia.
    rewrite (Z.rem_mul_r n 10 (10 ^ Z.of_nat w)) by lia. lia.
Qed.

Lemma pad_digits_length (width : nat) :
  forall n, String.length (pad_digits width n) = width.
Proof.
  induction width as [|w IH]; intros n; [reflexivity|].
  cbn [pad_digits]. rewrite string_app_length, IH. cbn. lia.
Qed.

Lemma pad_digits_inj (width : nat) (a b : Z) :
  0 <= a < 10 ^ Z.of_nat width -> 0 <= b < 10 ^ Z.of_nat width ->
  pad_digits width a = pad_digits width b -> a = b.
Proof.
  intros Ha Hb H. apply (f_equal (int_digits 0)) in H.
  rewrite !int_digits_pad, !Z.mod_small in H by assumption. lia.
Qed.

Lemma string_app_inj (a a' b b' : string) :
  String.length a = String.length a' ->
  (a ++ b)%string = (a' ++ b')%string -> a = a' /\ b = b'.
Proof.
  revert a'. induction a as [|c a IH]; intros [|c' a'] Hl H;
    try discriminate Hl.
  - split; [reflexivity | exact H].
  - cbn [append] in H. injection H as -> H. cbn in Hl.
    destruct (IH a' (eq_add_S _ _ Hl) H) as [-> ->]. split; reflexivity.
Qed.

Lemma isoformat_length (dt : datetime) :
  microsecond dt = 0 -> String.length (isoformat dt) = 19%nat.
Proof.
  intros Hus. unfold isoformat, fmt02, fmt04. rewrite Hus. cbn [Z.eqb].
  rewrite !string_app_length, !pad_digits_length. reflexivity.
Qed.

Lemma isoformat_inj (a b : datetime) :
  valid_minute_stamp a -> valid_minute_stamp b ->
  isoformat a = isoformat b -> a = b.
Proof.
  intros (Ya & Ma & Da & Ha & Mia & Sa & Ua) (Yb & Mb & Db & Hb & Mib & Sb & Ub).
  destruct a as [y1 mo1 d1 h1 mi1 s1 us1], b as [y2 mo2 d2 h2 mi2 s2 us2].
  cbn [year month day hour minute second microsecond] in *. subst.
  unfold isoformat, fmt02, fmt04.
  cbn [year month day hour minute second microsecond Z.eqb]. intros H.
  assert (D1 : d1 <= 31).
  { unfold days_in_month in Da.
    destruct (mo1 =? 2)%Z; [destruct (is_leap y1); lia|].
    destruct ((mo1 =? 4)%Z || (mo1 =? 6)%Z || (mo1 =? 9)%Z || (mo1 =? 11)%Z); lia. }
  assert (D2 : d2 <= 31).
  { unfold days_in_month in Db.
    destruct (mo2 =? 2)%Z; [destruct (is_leap y2); lia|].
    destruct ((mo2 =? 4)%Z || (mo2 =? 6)%Z || (mo2 =? 9)%Z || (mo2 =? 11)%Z); lia. }
  apply string_app_inj in H; [|now rewrite !pad_digits_length].
  destruct H as [Hy H].
  apply string_app_inj in H; [destruct H as [_ H] | reflexivity].
  apply string_app_inj in H; [|now rewrite !pad_digits_length].
  destruct H as [Hm H].
  apply string_app_inj in H; [destruct H as [_ H] | reflexivity].
  apply string_app_inj in H; [|now rewrite !pad_digits_length].
  destruct H as [Hd H].
  apply string_app_inj in H; [destruct H as [_ H] | reflexivity].
  apply string_app_inj in H; [|now rewrite !pad_digits_length].
  destruct H as [Hh H].
  apply string_app_inj in H; [destruct H as [_ H] | reflexivity].
  apply string_app_inj in H; [|now rewrite !pad_digits_length].
  destruct H as [Hmi _].
  apply pad_digits_inj in Hy; [|cbn; lia|cbn; lia].
  apply pad_digits_inj in Hm; [|cbn; lia|cbn; lia].
  apply pad_digits_inj in Hd; [|cbn; lia|cbn; lia].
  apply pad_digits_inj in Hh; [|cbn; lia|cbn; lia].
  apply pad_digits_inj in Hmi; [|cbn; lia|cbn; lia].
  congruence.
Qed.

(** X15. For two events that start at calendar timestamps, as every event
    taken from a row does, the texts their uids are hashed from are equal
    exactly when the events start at the same time and have the same title
    once lower-cased: nothing else of an event reaches its uid, and
    neither of the two is lost on the way. *)
Theorem uid_key_tells_start_and_title :
  forall e1 e2 : Event,
    valid_minute_stamp (dt_start e1) ->
    valid_minute_stamp (dt_start e2) ->
    (uid_key e1 = uid_key e2 <->
     dt_start e1 = dt_start e2 /\ str_lower (title e1) = str_lower (title e2)).
Proof.
  intros e1 e2 V1 V2. unfold uid_key. split.
  - intros H.
    apply string_app_inj in H.
    + destruct H as [Hiso H].
      apply string_app_inj in H; [destruct H as [_ H] | reflexivity].
      split; [now apply isoformat_inj | exact H].
    + rewrite !isoformat_length; [reflexivity | apply V2 | apply V1].
  - intros [-> ->]. reflexivity.
Qed.

Lemma uid_key_tells_start_and_title_witness :
  let e1 := mkEvent (mkDatetime 2025 1 5 10 0 0 0) "Budget Session" "Room 2C" in
  let e2 := mkEvent (mkDatetime 2025 1 5 10 0 0 0) "BUDGET session" "" in
  uid_key e1 = uid_key e2 <->
  dt_start e1 = dt_start e2 /\ str_lower (title e1) = str_lower (title e2).
Proof.
  apply (uid_key_tells_start_and_title
           (mkEvent (mkDatetime 2025 1 5 10 0 0 0) "Budget Session" "Room 2C")
           (mkEvent (mkDatetime 2025 1 5 10 0 0 0) "BUDGET session" ""));
    unfold valid_minute_stamp; cbn; lia.
Defined.

(** ** normalize_ws touches white space only *)

Lemma without_ws_lstrip (s : string) : without_ws (lstrip s) = without_ws s.
Proof.
  induction s as [|c s IH]; [reflexivity|].
  cbn [lstrip without_ws]. destruct (Chars.is_space c) eqn:E; [exact IH|].
  cbn [without_ws]. now rewrite E.
Qed.

Lemma without_ws_rstrip (s : string) : without_ws (rstrip s) = without_ws s.
Proof.
  induction s as [|c s IH]; [reflexivity|].
  cbn [rstrip without_ws]. rewrite <- IH.
  destruct (rstrip s) as [|c' r]; destruct (Chars.is_space c) eqn:E;
    cbn [without_ws]; rewrite ?E; reflexivity.
Qed.

Lemma without_ws_collapse (s : string) :
  forall in_run, without_ws (collapse_ws in_run s) = without_ws s.
Proof.
  induction s as [|c s IH]; intros b; [reflexivity|].
  cbn [collapse_ws without_ws]. destruct (Chars.is_space c) eqn:E.
  - destruct b; [apply IH|].
    cbn [without_ws]. change (Chars.is_space " ") with true. apply IH.
  - cbn [without_ws]. now rewrite E, IH.
Qed.

(** X16. [normalize_ws] changes white space only: the characters of a text
    that are no white space are those of the normalised text, in the same
    order, and the normalised text is empty exactly when the text holds
    nothing but white space. *)
Theorem normalize_ws_keeps_other_characters :
  forall s,
    without_ws (normalize_ws s) = without_ws s /\
    (normalize_ws s = EmptyString <-> without_ws s = EmptyString).
Proof.
  intros s.
  assert (H : without_ws (normalize_ws s) = without_ws s).
  { unfold normalize_ws, strip.
    now rewrite without_ws_collapse, without_ws_rstrip, without_ws_lstrip. }
  split; [exact H|]. split.
  - intros E. rewrite <- H, E. reflexivity.
  - intros E. rewrite <- H in E.
    pose proof (normalize_ws_normal s) as Hn.
    destruct (normalize_ws s) as [|c t]; [reflexivity|].
    unfold ws_normal in Hn. cbn [starts_clean] in Hn.
    apply andb_prop in Hn. destruct Hn as [Hc _].
    apply negb_true_iff in Hc. cbn [without_ws] in E. rewrite Hc in E.
    discriminate.
Qed.

(** ** RowExtractor: the location follows the title *)

(** X17. Whenever a row has a candidate at all, the title chosen is the
    first or the second candidate, and the location is the candidate that
    comes right after the title, or the empty text when the title is the
    last candidate. With no candidate the title is the placeholder and the
    location is empty. *)
Theorem location_follows_title :
  (choose_title_location [] = ("Unknown CGA Meeting", "")) /\
  forall first rest,
    exists before after,
      (first :: rest) = before ++ fst (choose_title_location (first :: rest))
                                  :: after /\
      (List.length before <= 1)%nat /\
      snd (choose_title_location (first :: rest))
      = match after with next :: _ => next | [] => "" end.
Proof.
  split; [reflexivity|].
  intros a rest. unfold choose_title_location.
  destruct rest as [|b [|c rest]]; cbn [List.length Nat.ltb Nat.leb nth].
  - rewrite andb_false_r. exists [], []. repeat split. cbn. lia.
  - rewrite andb_true_r.
    match goal with |- context [if ?c then _ else _] => destruct c end;
      cbn [fst snd].
    + exists [a], []. repeat split. cbn. lia.
    + exists [], [b]. repeat split. cbn. lia.
  - rewrite andb_true_r.
    match goal with |- context [if ?c then _ else _] => destruct c end;
      cbn [fst snd].
    + exists [a], (c :: rest). repeat split. cbn. lia.
    + exists [], (b :: c :: rest). repeat split. cbn. lia.
Qed.
